(** * Slow-query-log parser of go-mysql ([package slow]): model and properties

    The development embeds [SlowLogParser] (the line loop [Start], the
    header, query and admin parsers and the finalizer [sendEvent]) as Rocq
    functions and proves properties of them.

    Conventions of the model:
    - a Go [string] is a [string] of bytes ([ascii]); regular expressions
      are matched byte-wise, which agrees with Go's rune-wise matching for
      the six expressions of the parser (every class is a set of ASCII
      characters or the complement of one);
    - [uint64] and [uint] (64-bit platform) are [N] with the wrap-around at
      [2^64] written out;
    - a Go map is a [gmap]; reading a missing key gives the zero value;
    - a panic is the [Panic] result of the [Res] monad;
    - the two channels are the fields [eventChan] (events handed to the
      consumer so far) and [stopChan] (for each [select] still to run,
      whether the stop signal is what it receives);
    - the diagnostic output under [opt.Debug] and the closing of the event
      channel when [Start] returns are not modelled. *)

From Stdlib Require Import String Ascii NArith List Lia Bool.
From stdpp Require Import base option gmap strings list numbers sorting.

Local Open Scope string_scope.
Local Open Scope N_scope.
Local Open Scope list_scope.

(** ** Bytes and Go's [strings] package *)

Definition LF : ascii := "010"%char.
Definition newline : string := String LF EmptyString.

Definition byte_of (c : ascii) : N := N_of_ascii c.

Definition in_range (lo hi c : ascii) : bool :=
  (byte_of lo <=? byte_of c) && (byte_of c <=? byte_of hi).

(** [len(s)] *)
Definition len (s : string) : N := N.of_nat (String.length s).

(** [s[lo:hi]] for [lo <= hi <= len(s)] *)
Definition slice (s : string) (lo hi : nat) : string :=
  String.substring lo (hi - lo) s.

(** [strings.HasPrefix(s, prefix)]:
    [len(s) >= len(prefix) && s[0:len(prefix)] == prefix] *)
Fixpoint HasPrefix (s pre : string) {struct pre} : bool :=
  match pre with
  | EmptyString => true
  | String a pre' =>
      match s with
      | String b s' => Ascii.eqb a b && HasPrefix s' pre'
      | EmptyString => false
      end
  end.

(** [strings.HasSuffix(s, suffix)]:
    [len(s) >= len(suffix) && s[len(s)-len(suffix):] == suffix] *)
Definition HasSuffix (s suf : string) : bool :=
  (String.length suf <=? String.length s)%nat
  && String.eqb (slice s (String.length s - String.length suf) (String.length s)) suf.

(** [strings.TrimPrefix(s, prefix)] *)
Definition TrimPrefix (s pre : string) : string :=
  if HasPrefix s pre then slice s (String.length pre) (String.length s) else s.

(** [strings.TrimSuffix(s, suffix)] *)
Definition TrimSuffix (s suf : string) : string :=
  if HasSuffix s suf then slice s 0 (String.length s - String.length suf) else s.

(** [strings.TrimRight(s, cutset)] for a cutset of one byte: every trailing
    occurrence of the byte is removed. *)
Fixpoint TrimRight (s : string) (c : ascii) : string :=
  match s with
  | EmptyString => EmptyString
  | String a s' =>
      match TrimRight s' c with
      | EmptyString => if Ascii.eqb a c then EmptyString else String a EmptyString
      | t => String a t
      end
  end.


(** Every byte of the string satisfies [p]. *)
Fixpoint every (p : ascii -> bool) (s : string) : bool :=
  match s with
  | EmptyString => true
  | String c s' => p c && every p s'
  end.

(** ** Regular expressions (Go's [regexp], leftmost-first matching)

    The syntax covers what the parser's six expressions use: literals,
    character classes, repetition of a class (greedy or not), sequence,
    ordered alternation, capture groups, [^] and [\z]. *)

Module Regexp.

Inductive Regex : Type :=
| Lit (l : string)
| Class (p : ascii -> bool)
| Rep (greedy : bool) (lo : nat) (hi : option nat) (p : ascii -> bool)
| Seq (r1 r2 : Regex)
| Alt (r1 r2 : Regex)
| Group (i : nat) (r : Regex)
| Bol
| Eot.

(** Submatch positions, most recent first: group, start, end. *)
Definition Caps : Type := list (nat * (nat * nat)).

(** [\s] is [[\t\n\f\r ]], [\w] is [[0-9A-Za-z_]], [.] is any byte but
    newline. *)
Definition space (c : ascii) : bool :=
  let n := byte_of c in
  (n =? 9) || (n =? 10) || (n =? 12) || (n =? 13) || (n =? 32).
Definition notspace (c : ascii) : bool := negb (space c).
Definition upper (c : ascii) : bool := in_range "A" "Z" c.
Definition word (c : ascii) : bool :=
  in_range "0" "9" c || in_range "A" "Z" c || in_range "a" "z" c
  || Ascii.eqb c "_".
Definition dot (c : ascii) : bool := negb (Ascii.eqb c LF).
Definition notchar (a : ascii) (c : ascii) : bool := negb (Ascii.eqb c a).

Fixpoint lit (l s : string) (pos : nat) : option (string * nat) :=
  match l with
  | EmptyString => Some (s, pos)
  | String a l' =>
      match s with
      | String b s' => if Ascii.eqb a b then lit l' s' (S pos) else None
      | EmptyString => None
      end
  end.

Definition exhausted (hi : option nat) : bool :=
  match hi with Some O => true | _ => false end.

(** [p{lo,hi}] followed by the continuation [k]; a greedy repetition tries
    one more byte before it tries to stop, a lazy one the other way. *)
Fixpoint rep {A} (p : ascii -> bool) (greedy : bool) (lo : nat) (hi : option nat)
    (s : string) (pos : nat) (k : string -> nat -> option A) : option A :=
  match s with
  | String c s' =>
      if p c && negb (exhausted hi) then
        if greedy then
          match rep p greedy (pred lo) (option_map pred hi) s' (S pos) k with
          | Some x => Some x
          | None => match lo with O => k s pos | S _ => None end
          end
        else
          match (match lo with O => k s pos | S _ => None end) with
          | Some x => Some x
          | None => rep p greedy (pred lo) (option_map pred hi) s' (S pos) k
          end
      else match lo with O => k s pos | S _ => None end
  | EmptyString => match lo with O => k s pos | S _ => None end
  end.

(** Backtracking matcher in continuation-passing style: [s] is the text
    from byte [pos] on. *)
Fixpoint matchK (r : Regex) (s : string) (pos : nat) (caps : Caps)
    (k : string -> nat -> Caps -> option Caps) : option Caps :=
  match r with
  | Lit l =>
      match lit l s pos with
      | Some (s', pos') => k s' pos' caps
      | None => None
      end
  | Class p =>
      match s with
      | String c s' => if p c then k s' (S pos) caps else None
      | EmptyString => None
      end
  | Rep g lo hi p => rep p g lo hi s pos (fun s' pos' => k s' pos' caps)
  | Seq r1 r2 =>
      matchK r1 s pos caps (fun s' pos' caps' => matchK r2 s' pos' caps' k)
  | Alt r1 r2 =>
      match matchK r1 s pos caps k with
      | Some c => Some c
      | None => matchK r2 s pos caps k
      end
  | Group i r1 =>
      matchK r1 s pos caps
        (fun s' pos' caps' => k s' pos' ((i, (pos, pos')) :: caps'))
  | Bol => if (pos =? 0)%nat then k s pos caps else None
  | Eot => match s with EmptyString => k s pos caps | _ => None end
  end.

(** A match of [r] that starts at [pos]: group 0 is the whole match. *)
Definition matchAt (r : Regex) (s : string) (pos : nat) : option Caps :=
  matchK r s pos [] (fun _ e caps => Some ((0%nat, (pos, e)) :: caps)).

(** The leftmost match at or after [pos]. *)
Fixpoint search (r : Regex) (s : string) (pos : nat) : option Caps :=
  match matchAt r s pos with
  | Some c => Some c
  | None =>
      match s with
      | String _ s' => search r s' (S pos)
      | EmptyString => None
      end
  end.

Fixpoint ngroups (r : Regex) : nat :=
  match r with
  | Seq r1 r2 | Alt r1 r2 => Nat.max (ngroups r1) (ngroups r2)
  | Group i r1 => Nat.max i (ngroups r1)
  | _ => 0%nat
  end.

Fixpoint capture (caps : Caps) (i : nat) : option (nat * nat) :=
  match caps with
  | [] => None
  | (j, se) :: caps' => if (i =? j)%nat then Some se else capture caps' i
  end.

(** The text of every group of a match; a group that took no part gives
    the empty string. *)
Definition submatches (r : Regex) (text : string) (caps : Caps) : list string :=
  map (fun i => match capture caps i with
                | Some (b, e) => slice text b e
                | None => EmptyString
                end)
      (seq 0 (S (ngroups r))).

(** [re.MatchString(s)] *)
Definition MatchString (r : Regex) (s : string) : bool :=
  match search r s 0 with Some _ => true | None => false end.

(** [re.FindStringSubmatch(s)]; the [nil] result is the empty list. *)
Definition FindStringSubmatch (r : Regex) (s : string) : list string :=
  match search r s 0 with
  | Some caps => submatches r s caps
  | None => []
  end.

(** [re.FindAllStringSubmatch(s, -1)]: successive matches that do not
    overlap; an empty match that touches the match before it is dropped,
    and after an empty match the search moves on by one byte. *)
Fixpoint findAll (fuel : nat) (r : Regex) (text : string) (pos : nat)
    (prevEnd : option nat) : list (list string) :=
  match fuel with
  | O => []
  | S fuel' =>
      if (String.length text <? pos)%nat then [] else
      match search r (slice text pos (String.length text)) pos with
      | None => []
      | Some caps =>
          match capture caps 0 with
          | None => []
          | Some (b, e) =>
              if (e =? pos)%nat then
                if decide (prevEnd = Some b)
                then findAll fuel' r text (S pos) (Some e)
                else submatches r text caps :: findAll fuel' r text (S pos) (Some e)
              else submatches r text caps :: findAll fuel' r text e (Some e)
          end
      end
  end.

Definition FindAllStringSubmatch (r : Regex) (s : string) : list (list string) :=
  findAll (S (String.length s)) r s 0 None.

End Regexp.

Import Regexp.

(** The parser's six expressions. *)

(** timeRe: the literal "Time: " and group 1 = "\S+\s{1,2}\S+". *)
Definition timeRe : Regex :=
  Seq (Lit "Time: ")
      (Group 1 (Seq (Rep true 1 None notspace)
               (Seq (Rep true 1 (Some 2%nat) space)
                    (Rep true 1 None notspace)))).

(** userRe: the literal "User@Host: ", group 1 = "[^\[]+" or "\[[^[]+\]",
    a lazy ".*?", the literal "@ ", group 2 = a greedy run of "\S" (possibly
    empty), the literal " \[", group 3 = a greedy run of "." (possibly
    empty), and "\]". *)
Definition userRe : Regex :=
  Seq (Lit "User@Host: ")
 (Seq (Group 1 (Alt (Rep true 1 None (notchar "["))
                    (Seq (Lit "[") (Seq (Rep true 1 None (notchar "[")) (Lit "]")))))
 (Seq (Rep false 0 None dot)
 (Seq (Lit "@ ")
 (Seq (Group 2 (Rep true 0 None notspace))
 (Seq (Lit " [")
 (Seq (Group 3 (Rep true 0 None dot))
      (Lit "]"))))))).

(** headerRe: "^#\s+[A-Z]". *)
Definition headerRe : Regex :=
  Seq Bol (Seq (Lit "#") (Seq (Rep true 1 None space) (Class upper))).

(** metricsRe: group 1 = "\w+", the literal ": ", group 2 = "\S+|\z". *)
Definition metricsRe : Regex :=
  Seq (Group 1 (Rep true 1 None word))
 (Seq (Lit ": ")
      (Group 2 (Alt (Rep true 1 None notspace) Eot))).

(** adminRe: the literal "command: " and group 1 = ".+". *)
Definition adminRe : Regex :=
  Seq (Lit "command: ") (Group 1 (Rep true 1 None dot)).

(** setRe: "SET " and one of last_insert_id, insert_id, timestamp. *)
Definition setRe : Regex :=
  Seq (Lit "SET ")
      (Alt (Lit "last_insert_id") (Alt (Lit "insert_id") (Lit "timestamp"))).

(** ** Go's [strconv] package *)

Inductive NumError : Type := ErrSyntax | ErrRange.

Definition two64 : N := 2 ^ 64.
Definition maxUint64 : N := two64 - 1.

(** [uint64] arithmetic wraps around. *)
Definition wrap64 (n : N) : N := n mod two64.
Definition add64 (a b : N) : N := wrap64 (a + b).
Definition sub64 (a b : N) : N := wrap64 (a + two64 - wrap64 b).

(** [byte(v)] *)
Definition to_byte (v : N) : N := v mod 256.

(** The digit loop of [strconv.ParseUint(s, 10, 64)]: a byte that is not
    a decimal digit ends it with value 0 and a syntax error, an overflow
    with the largest [uint64] and a range error, whichever comes first. *)
Fixpoint parseUintFrom (s : string) (n : N) : N * option NumError :=
  match s with
  | EmptyString => (n, None)
  | String c s' =>
      if in_range "0" "9" c then
        if maxUint64 / 10 + 1 <=? n then (maxUint64, Some ErrRange)
        else
          let n1 := n * 10 + (byte_of c - 48) in
          if maxUint64 <? n1 then (maxUint64, Some ErrRange)
          else parseUintFrom s' n1
      else (0, Some ErrSyntax)
  end.

(** [strconv.ParseUint(s, 10, 64)] *)
Definition ParseUint (s : string) : N * option NumError :=
  match s with
  | EmptyString => (0, Some ErrSyntax)
  | _ => parseUintFrom s 0
  end.

(** [float32(v)] for [v, err := strconv.ParseFloat(s, 32)].  The syntax
    of the numbers [ParseFloat] accepts is modelled as [strconv] has it
    ([special], [readFloat], [underscoreOK]); binary floating point is
    outside the model, so the value type and the rounding of a well-formed
    number are an interface. *)
Class FloatParser : Type := {
  float32 : Type;
  f32zero : float32;                  (* 0 *)
  f32inf : bool -> float32;           (* math.Inf(sign), negative if true *)
  f32nan : float32;                   (* math.NaN() *)
  round32 : string -> option float32  (* the nearest float32, None on overflow *)
}.

(** [lower(c)] of [strconv]: [c | ('x' - 'X')] *)
Definition lower (c : ascii) : ascii := ascii_of_N (N.lor (byte_of c) 32).

(** [commonPrefixLenIgnoreCase(s, prefix)], for a lower-case [prefix] *)
Fixpoint commonPrefixLenIgnoreCase (s pre : string) : nat :=
  match s, pre with
  | String c s', String d pre' =>
      let c := if in_range "A" "Z" c then ascii_of_N (byte_of c + 32) else c in
      if Ascii.eqb c d then S (commonPrefixLenIgnoreCase s' pre') else O
  | _, _ => O
  end.

(** [special(s)]: the infinities and NaN, with the count of bytes taken. *)
Definition special `{FloatParser} (s : string) : option (float32 * nat) :=
  let inf (neg : bool) (nsign : nat) (t : string) :=
    let n := commonPrefixLenIgnoreCase t "infinity" in
    let n := if (3 <? n)%nat && (n <? 8)%nat then 3%nat else n in
    if (n =? 3)%nat || (n =? 8)%nat then Some (f32inf neg, (nsign + n)%nat) else None in
  match s with
  | EmptyString => None
  | String c s' =>
      if Ascii.eqb c "+" || Ascii.eqb c "-" then inf (Ascii.eqb c "-") 1%nat s'
      else if Ascii.eqb c "i" || Ascii.eqb c "I" then inf false 0%nat s
      else if Ascii.eqb c "n" || Ascii.eqb c "N" then
        if (commonPrefixLenIgnoreCase s "nan" =? 3)%nat then Some (f32nan, 3%nat) else None
      else None
  end.

(** What [underscoreOK] saw last: nothing, a digit, an underscore, or
    another byte. *)
Inductive Saw : Type := SawStart | SawDigit | SawUnderscore | SawOther.

Definition isDigit (c : ascii) : bool := in_range "0" "9" c.
Definition isHexLetter (c : ascii) : bool := in_range "a" "f" (lower c).

Fixpoint underscoreLoop (hex : bool) (saw : Saw) (s : string) : bool :=
  match s with
  | EmptyString => match saw with SawUnderscore => false | _ => true end
  | String c s' =>
      if isDigit c || (hex && isHexLetter c) then underscoreLoop hex SawDigit s'
      else if Ascii.eqb c "_" then
        match saw with
        | SawDigit => underscoreLoop hex SawUnderscore s'
        | _ => false
        end
      else
        match saw with
        | SawUnderscore => false
        | _ => underscoreLoop hex SawOther s'
        end
  end.

(** [underscoreOK(s)]: an underscore only between digits, or between a
    base prefix and a digit. *)
Definition underscoreOK (s : string) : bool :=
  let s := match s with
           | String c s' => if Ascii.eqb c "-" || Ascii.eqb c "+" then s' else s
           | EmptyString => s
           end in
  match s with
  | String c0 (String c1 s') =>
      if Ascii.eqb c0 "0"
         && (Ascii.eqb (lower c1) "b" || Ascii.eqb (lower c1) "o" || Ascii.eqb (lower c1) "x")
      then underscoreLoop (Ascii.eqb (lower c1) "x") SawDigit s'
      else underscoreLoop false SawStart s
  | _ => underscoreLoop false SawStart s
  end.

(** The mantissa loop of [readFloat]: the bytes left, the count of bytes
    taken, whether digits were seen, whether underscores were. *)
Fixpoint mantissa (hex sawdot sawdigits underscores : bool) (s : string) (i : nat)
    : string * nat * bool * bool :=
  match s with
  | EmptyString => (s, i, sawdigits, underscores)
  | String c s' =>
      if Ascii.eqb c "_" then mantissa hex sawdot sawdigits true s' (S i)
      else if Ascii.eqb c "." then
        if sawdot then (s, i, sawdigits, underscores)
        else mantissa hex true sawdigits underscores s' (S i)
      else if isDigit c then mantissa hex sawdot true underscores s' (S i)
      else if hex && isHexLetter c then mantissa hex sawdot true underscores s' (S i)
      else (s, i, sawdigits, underscores)
  end.

(** The digits of the exponent. *)
Fixpoint exponentDigits (underscores : bool) (s : string) (i : nat) : nat * bool :=
  match s with
  | EmptyString => (i, underscores)
  | String c s' =>
      if Ascii.eqb c "_" then exponentDigits true s' (S i)
      else if isDigit c then exponentDigits underscores s' (S i)
      else (i, underscores)
  end.

(** The optional exponent of [readFloat], after [i] bytes of sign and
    mantissa: the count of bytes with it and whether underscores were
    seen; [None] is the return with [ok == false]. *)
Definition exponent (hex underscores : bool) (t : string) (i : nat) : option (nat * bool) :=
  let expChar : ascii := if hex then "p"%char else "e"%char in
  match t with
  | String c t' =>
      if Ascii.eqb (lower c) expChar then
        match t' with
        | EmptyString => None
        | String d t'' =>
            let '(u, i) :=
              if Ascii.eqb d "+" || Ascii.eqb d "-"
              then (t'', (i + 2)%nat) else (t', (i + 1)%nat) in
            match u with
            | String e _ =>
                if isDigit e then Some (exponentDigits underscores u i) else None
            | EmptyString => None
            end
        end
      else if hex then None else Some (i, underscores)
  | EmptyString => if hex then None else Some (i, underscores)
  end.

(** The test for the prefix "0x" of [readFloat], [t] being the bytes
    after the sign: whether the number is hexadecimal, the bytes after
    the prefix and the count of bytes taken. *)
Definition hexPrefix (t : string) (i : nat) : bool * string * nat :=
  match t with
  | String c0 (String c1 (String c2 t')) =>
      if Ascii.eqb c0 "0" && Ascii.eqb (lower c1) "x"
      then (true, String c2 t', (i + 2)%nat)
      else (false, t, i)
  | _ => (false, t, i)
  end.

(** [readFloat] after the sign: [t] is what is left of [s] after [i]
    bytes. *)
Definition readNumber (s : string) (neg : bool) (t : string) (i : nat)
    : option (bool * nat) :=
  let '(hex, t, i) := hexPrefix t i in
  let '(t, i, sawdigits, underscores) := mantissa hex false false false t i in
  if negb sawdigits then None else
  match exponent hex underscores t i with
  | None => None
  | Some (i, underscores) =>
      if underscores && negb (underscoreOK (substring 0 i s)) then None
      else Some (neg, i)
  end.

(** [readFloat(s)]: for a string that begins with a decimal or hexadecimal
    number, whether the number is negative and the count of its bytes;
    [None] is the return with [ok == false].  The mantissa and the
    exponent it computes go to the rounding, which is not modelled. *)
Definition readFloat (s : string) : option (bool * nat) :=
  match s with
  | EmptyString => None
  | String c s' =>
      if Ascii.eqb c "+" then readNumber s false s' 1
      else if Ascii.eqb c "-" then readNumber s true s' 1
      else readNumber s false s 0
  end.

(** [float32(v)] and [err] for [v, err := strconv.ParseFloat(s, 32)]: a
    string that is not a number, or is one followed by more bytes, gives 0
    and a syntax error; a number too large gives an infinity and a range
    error. *)
Definition ParseFloat `{FloatParser} (s : string) : float32 * option NumError :=
  match special s with
  | Some (v, n) =>
      if (n =? String.length s)%nat then (v, None) else (f32zero, Some ErrSyntax)
  | None =>
      match readFloat s with
      | Some (neg, n) =>
          if (n =? String.length s)%nat then
            match round32 s with
            | Some v => (v, None)
            | None => (f32inf neg, Some ErrRange)
            end
          else (f32zero, Some ErrSyntax)
      | None => (f32zero, Some ErrSyntax)
      end
  end.

(** An instance of the interface, to run the model on examples: a float
    is stood for by the text of its number, and no number overflows. *)
Definition literal_floats : FloatParser := {|
  float32 := string;
  f32zero := "0";
  f32inf := fun neg => if neg then "-Inf" else "+Inf";
  f32nan := "NaN";
  round32 := fun s => Some s
|}.

(** ** Panics *)

Inductive PanicKind : Type :=
| IndexOutOfRange            (* runtime error: index out of range *)
| NoQueryTime (offset : N).  (* l.Panicf("No Query_time in event at %d: ...") *)

(** ** The data model *)

Section Slow.
Context `{FP : FloatParser}.

(** Modelled from the spec: the [Event] struct of package [log], which
    the parser imports; its fields are those of the spec's data model
    (offset, timestamp, user, host, db, admin, query, the three metric
    maps, rate type and rate limit). *)
Record Event : Type := mkEvent {
  Offset : N;
  Ts : string;
  Admin : bool;
  Query : string;
  User : string;
  Host : string;
  Db : string;
  TimeMetrics : gmap string float32;
  NumberMetrics : gmap string N;
  BoolMetrics : gmap string bool;
  RateType : string;
  RateLimit : N
}.

(** Modelled from the spec: [log.NewEvent()], the fresh empty event. *)
Definition NewEvent : Event :=
  mkEvent 0 EmptyString false EmptyString EmptyString EmptyString EmptyString
          ∅ ∅ ∅ EmptyString 0.

(** Modelled from the spec: the [Options] struct of package [log]; of the
    parser configuration the model keeps the start offset and the set of
    filtered admin commands (a Go [map[string]bool]). *)
Record Options : Type := mkOptions {
  StartOffset : N;
  FilterAdminCommand : gmap string bool
}.

Definition set_Offset (v : N) (e : Event) : Event :=
  mkEvent v (Ts e) (Admin e) (Query e) (User e) (Host e) (Db e)
          (TimeMetrics e) (NumberMetrics e) (BoolMetrics e) (RateType e) (RateLimit e).
Definition set_Ts (v : string) (e : Event) : Event :=
  mkEvent (Offset e) v (Admin e) (Query e) (User e) (Host e) (Db e)
          (TimeMetrics e) (NumberMetrics e) (BoolMetrics e) (RateType e) (RateLimit e).
Definition set_Admin (v : bool) (e : Event) : Event :=
  mkEvent (Offset e) (Ts e) v (Query e) (User e) (Host e) (Db e)
          (TimeMetrics e) (NumberMetrics e) (BoolMetrics e) (RateType e) (RateLimit e).
Definition set_Query (v : string) (e : Event) : Event :=
  mkEvent (Offset e) (Ts e) (Admin e) v (User e) (Host e) (Db e)
          (TimeMetrics e) (NumberMetrics e) (BoolMetrics e) (RateType e) (RateLimit e).
Definition set_User (v : string) (e : Event) : Event :=
  mkEvent (Offset e) (Ts e) (Admin e) (Query e) v (Host e) (Db e)
          (TimeMetrics e) (NumberMetrics e) (BoolMetrics e) (RateType e) (RateLimit e).
Definition set_Host (v : string) (e : Event) : Event :=
  mkEvent (Offset e) (Ts e) (Admin e) (Query e) (User e) v (Db e)
          (TimeMetrics e) (NumberMetrics e) (BoolMetrics e) (RateType e) (RateLimit e).
Definition set_Db (v : string) (e : Event) : Event :=
  mkEvent (Offset e) (Ts e) (Admin e) (Query e) (User e) (Host e) v
          (TimeMetrics e) (NumberMetrics e) (BoolMetrics e) (RateType e) (RateLimit e).
Definition set_TimeMetrics (v : gmap string float32) (e : Event) : Event :=
  mkEvent (Offset e) (Ts e) (Admin e) (Query e) (User e) (Host e) (Db e)
          v (NumberMetrics e) (BoolMetrics e) (RateType e) (RateLimit e).
Definition set_NumberMetrics (v : gmap string N) (e : Event) : Event :=
  mkEvent (Offset e) (Ts e) (Admin e) (Query e) (User e) (Host e) (Db e)
          (TimeMetrics e) v (BoolMetrics e) (RateType e) (RateLimit e).
Definition set_BoolMetrics (v : gmap string bool) (e : Event) : Event :=
  mkEvent (Offset e) (Ts e) (Admin e) (Query e) (User e) (Host e) (Db e)
          (TimeMetrics e) (NumberMetrics e) v (RateType e) (RateLimit e).
Definition set_RateType (v : string) (e : Event) : Event :=
  mkEvent (Offset e) (Ts e) (Admin e) (Query e) (User e) (Host e) (Db e)
          (TimeMetrics e) (NumberMetrics e) (BoolMetrics e) v (RateLimit e).
Definition set_RateLimit (v : N) (e : Event) : Event :=
  mkEvent (Offset e) (Ts e) (Admin e) (Query e) (User e) (Host e) (Db e)
          (TimeMetrics e) (NumberMetrics e) (BoolMetrics e) (RateType e) v.

(** The parser.  [file] is an argument of [Start]. *)
Record SlowLogParser : Type := mkParser {
  opt : Options;
  stopChan : list bool;
  eventChan : list Event;
  inHeader : bool;
  inQuery : bool;
  headerLines : N;
  queryLines : N;
  bytesRead : N;
  lineOffset : N;
  stopped : bool;
  event : Event
}.

Definition set_stopChan (v : list bool) (p : SlowLogParser) : SlowLogParser :=
  mkParser (opt p) v (eventChan p) (inHeader p) (inQuery p) (headerLines p)
           (queryLines p) (bytesRead p) (lineOffset p) (stopped p) (event p).
Definition set_eventChan (v : list Event) (p : SlowLogParser) : SlowLogParser :=
  mkParser (opt p) (stopChan p) v (inHeader p) (inQuery p) (headerLines p)
           (queryLines p) (bytesRead p) (lineOffset p) (stopped p) (event p).
Definition set_inHeader (v : bool) (p : SlowLogParser) : SlowLogParser :=
  mkParser (opt p) (stopChan p) (eventChan p) v (inQuery p) (headerLines p)
           (queryLines p) (bytesRead p) (lineOffset p) (stopped p) (event p).
Definition set_inQuery (v : bool) (p : SlowLogParser) : SlowLogParser :=
  mkParser (opt p) (stopChan p) (eventChan p) (inHeader p) v (headerLines p)
           (queryLines p) (bytesRead p) (lineOffset p) (stopped p) (event p).
Definition set_headerLines (v : N) (p : SlowLogParser) : SlowLogParser :=
  mkParser (opt p) (stopChan p) (eventChan p) (inHeader p) (inQuery p) v
           (queryLines p) (bytesRead p) (lineOffset p) (stopped p) (event p).
Definition set_queryLines (v : N) (p : SlowLogParser) : SlowLogParser :=
  mkParser (opt p) (stopChan p) (eventChan p) (inHeader p) (inQuery p) (headerLines p)
           v (bytesRead p) (lineOffset p) (stopped p) (event p).
Definition set_bytesRead (v : N) (p : SlowLogParser) : SlowLogParser :=
  mkParser (opt p) (stopChan p) (eventChan p) (inHeader p) (inQuery p) (headerLines p)
           (queryLines p) v (lineOffset p) (stopped p) (event p).
Definition set_lineOffset (v : N) (p : SlowLogParser) : SlowLogParser :=
  mkParser (opt p) (stopChan p) (eventChan p) (inHeader p) (inQuery p) (headerLines p)
           (queryLines p) (bytesRead p) v (stopped p) (event p).
Definition set_stopped (v : bool) (p : SlowLogParser) : SlowLogParser :=
  mkParser (opt p) (stopChan p) (eventChan p) (inHeader p) (inQuery p) (headerLines p)
           (queryLines p) (bytesRead p) (lineOffset p) v (event p).
Definition set_event (v : Event) (p : SlowLogParser) : SlowLogParser :=
  mkParser (opt p) (stopChan p) (eventChan p) (inHeader p) (inQuery p) (headerLines p)
           (queryLines p) (bytesRead p) (lineOffset p) (stopped p) v.

(** [NewSlowLogParser(file, opt)], with the environment's answers to the
    parser's [select] statements as [stops]. *)
Definition NewSlowLogParser (o : Options) (stops : list bool) : SlowLogParser :=
  mkParser o stops [] false false 0 0 (StartOffset o) 0 false NewEvent.

(** The result of a method of the parser: the parser it leaves, or a
    panic with the parser as it is when the panic leaves the method. *)
Inductive Res (A : Type) : Type :=
| Ok (a : A)
| Panic (e : PanicKind) (p : SlowLogParser).
Arguments Ok {A} a.
Arguments Panic {A} e p.

Definition bind {A B} (m : Res A) (f : A -> Res B) : Res B :=
  match m with
  | Ok a => f a
  | Panic e p => Panic e p
  end.

Notation "x <- m ;; f" := (bind m (fun x => f))
  (at level 100, m at next level, right associativity).

(** [m[i]] on a slice panics out of range. *)
Definition index (p : SlowLogParser) (m : list string) (i : nat) : Res string :=
  match m !! i with
  | Some x => Ok x
  | None => Panic IndexOutOfRange p
  end.

(** ** The channels *)

(** Whether the [select] about to run receives from [stopChan]. *)
Definition stopSignal (p : SlowLogParser) : bool :=
  match stopChan p with
  | true :: _ => true
  | _ => false
  end.

(** The [select] has run. *)
Definition nextSelect (p : SlowLogParser) : SlowLogParser :=
  set_stopChan (tail (stopChan p)) p.

(** ** The finalizer: [sendEvent] *)

(** The deferred function of [sendEvent]: a new event, metadata reset. *)
Definition resetEvent (inH inQ : bool) (p : SlowLogParser) : SlowLogParser :=
  set_inQuery inQ (set_inHeader inH
    (set_queryLines 0 (set_headerLines 0 (set_event NewEvent p)))).

Definition sendEvent (inH inQ : bool) (p : SlowLogParser) : Res SlowLogParser :=
  match TimeMetrics (event p) !! "Query_time" with
  | None =>
      if headerLines p =? 0
      then Panic (NoQueryTime (lineOffset p)) (resetEvent inH inQ p)
      else Ok (resetEvent inH inQ p)
  | Some _ =>
      let p := set_event
                 (set_Db (TrimSuffix (Db (event p)) (";" +:+ newline)) (event p)) p in
      let p := set_event
                 (set_Query (TrimSuffix (Query (event p)) ";") (event p)) p in
      if stopSignal p
      then Ok (resetEvent inH inQ (set_stopped true (nextSelect p)))
      else Ok (resetEvent inH inQ
                 (set_eventChan (eventChan p ++ [event p]) (nextSelect p)))
  end.

(** ** The admin handler: [parseAdmin] *)

(** [p.opt.FilterAdminCommand[q]] *)
Definition filtered (p : SlowLogParser) (q : string) : bool :=
  default false (FilterAdminCommand (opt p) !! q).

Definition parseAdmin (line : string) (p : SlowLogParser) : Res SlowLogParser :=
  let p := set_event (set_Admin true (event p)) p in
  let m := FindStringSubmatch adminRe line in
  q <- index p m 1 ;;
  let p := set_event (set_Query q (event p)) p in
  let p := set_event (set_Query (TrimSuffix (Query (event p)) ";") (event p)) p in
  if negb (filtered p (Query (event p))) then sendEvent false false p
  else Ok (set_inQuery false (set_inHeader false p)).

(** ** The header parser: [parseHeader] *)

(** The body of the loop over the name-value pairs of a metrics line;
    [None] is the index panic, of a pair with fewer than three entries. *)
Definition parseMetric (smv : list string) (e : Event) : option Event :=
  name ← smv !! 1%nat;
  value ← smv !! 2%nat;
  if HasSuffix name "_time" || HasSuffix name "_wait" then
    Some (set_TimeMetrics (<[name := (ParseFloat value).1]> (TimeMetrics e)) e)
  else if String.eqb value "Yes" || String.eqb value "No" then
    if String.eqb value "Yes"
    then Some (set_BoolMetrics (<[name := true]> (BoolMetrics e)) e)
    else Some (set_BoolMetrics (<[name := false]> (BoolMetrics e)) e)
  else if String.eqb name "Schema" then Some (set_Db value e)
  else if String.eqb name "Log_slow_rate_type" then Some (set_RateType value e)
  else if String.eqb name "Log_slow_rate_limit" then
    Some (set_RateLimit (to_byte (ParseUint value).1) e)
  else
    Some (set_NumberMetrics (<[name := (ParseUint value).1]> (NumberMetrics e)) e).

Fixpoint parseMetrics (m : list (list string)) (e : Event) : option Event :=
  match m with
  | [] => Some e
  | smv :: m' => e' ← parseMetric smv e; parseMetrics m' e'
  end.

(** [parseHeader] from its line 189 on: the line is a header line. *)
Definition parseHeaderLine (line : string) (p : SlowLogParser) : Res SlowLogParser :=
  let p := if headerLines p =? 0
           then set_event (set_Offset (lineOffset p) (event p)) p else p in
  let p := set_headerLines (add64 (headerLines p) 1) p in
  if HasPrefix line "# Time" then
    let m := FindStringSubmatch timeRe line in
    ts <- index p m 1 ;;
    let p := set_event (set_Ts ts (event p)) p in
    if MatchString userRe line then
      let m := FindStringSubmatch userRe line in
      u <- index p m 1 ;;
      let p := set_event (set_User u (event p)) p in
      h <- index p m 2 ;;
      Ok (set_event (set_Host h (event p)) p)
    else Ok p
  else if HasPrefix line "# User" then
    let m := FindStringSubmatch userRe line in
    u <- index p m 1 ;;
    let p := set_event (set_User u (event p)) p in
    h <- index p m 2 ;;
    Ok (set_event (set_Host h (event p)) p)
  else if HasPrefix line "# admin" then parseAdmin line p
  else
    match parseMetrics (FindAllStringSubmatch metricsRe line) (event p) with
    | Some e => Ok (set_event e p)
    | None => Panic IndexOutOfRange p
    end.

(** ** The query body parser: [parseQuery]

    [parseQuery] calls [parseHeader] on a line on which it has just found
    that [headerRe] matches, so that call goes on from line 189:
    [parseHeaderLine] ([parseHeader_on_header] below). *)
Definition parseQuery (line : string) (p : SlowLogParser) : Res SlowLogParser :=
  if HasPrefix line "# admin" then parseAdmin line p
  else if MatchString headerRe line then
    let p := set_inQuery false (set_inHeader true p) in
    p <- sendEvent true false p ;;
    parseHeaderLine line p
  else if (queryLines p =? 0) && HasPrefix line "use " then
    let db := TrimPrefix line "use " in
    let db := TrimRight db ";" in
    Ok (set_event (set_Db db (event p)) p)
  else if MatchString setRe line then Ok p
  else
    let p := if 0 <? queryLines p
             then set_event (set_Query (Query (event p) +:+ newline +:+ line) (event p)) p
             else set_event (set_Query line (event p)) p in
    Ok (set_queryLines (add64 (queryLines p) 1) p).

Definition parseHeader (line : string) (p : SlowLogParser) : Res SlowLogParser :=
  if negb (MatchString headerRe line) then
    parseQuery line (set_inQuery true (set_inHeader false p))
  else parseHeaderLine line p.

(** ** The driver: [Start] *)

(** The file: its bytes, and whether the read that reaches their end
    fails with an error other than [io.EOF]. *)
Record File : Type := mkFile {
  contents : string;
  faulty : bool
}.

(** [r.ReadString('\n')] on the bytes not yet read: the line with its
    newline and the bytes after it, or nothing when no newline is left
    (the reader then returns an error). *)
Fixpoint ReadString (s : string) : option (string * string) :=
  match s with
  | EmptyString => None
  | String c s' =>
      if Ascii.eqb c LF then Some (newline, s')
      else match ReadString s' with
           | Some (l, r) => Some (String c l, r)
           | None => None
           end
  end.

(** The lines all the successful reads return, in order, and the bytes
    after the last newline. *)
Fixpoint readLines (s : string) : list string * string :=
  match s with
  | EmptyString => ([], EmptyString)
  | String c s' =>
      let (ls, t) := readLines s' in
      if Ascii.eqb c LF then (newline :: ls, t)
      else match ls with
           | l :: ls' => (String c l :: ls', t)
           | [] => ([], String c t)
           end
  end.

(** The lines that are not events: the server's start-up banner. *)
Definition isMeta (line : string) : bool :=
  let n := String.length line in
  (20 <=? n)%nat
  && ((String.eqb (slice line 0 1) "/" && String.eqb (slice line (n - 6) n) ("with:" +:+ newline))
      || String.eqb (slice line 0 5) "Time "
      || String.eqb (slice line 0 4) "Tcp "
      || String.eqb (slice line 0 4) "TCP ").

(** The computed offset of a line of [lineLen] bytes: lines 123 to 130. *)
Definition countLine (lineLen : N) (p : SlowLogParser) : SlowLogParser :=
  let p := set_bytesRead (add64 (bytesRead p) lineLen) p in
  let p := set_lineOffset (sub64 (bytesRead p) lineLen) p in
  if negb (lineOffset p =? 0) then set_lineOffset (add64 (lineOffset p) 1) p else p.

(** The dispatch of a line without its newline: lines 154 to 162. *)
Definition dispatch (line : string) (p : SlowLogParser) : Res SlowLogParser :=
  if inHeader p then parseHeader line p
  else if inQuery p then parseQuery line p
  else if MatchString headerRe line then
    parseHeader line (set_inQuery false (set_inHeader true p))
  else Ok p.

(** One iteration of the loop after a successful read: lines 123 to 162. *)
Definition scanLine (line : string) (p : SlowLogParser) : Res SlowLogParser :=
  let p := countLine (len line) p in
  if isMeta line then Ok p
  else dispatch (slice line 0 (String.length line - 1)) p.

(** The loop [SCANNER_LOOP] over the lines the reader still holds; the
    flag of the result tells that the loop ended on a failed read. *)
Fixpoint scannerLoop (lines : list string) (p : SlowLogParser)
    : Res (SlowLogParser * bool) :=
  if stopped p then Ok (p, false)
  else if stopSignal p then Ok (set_stopped true (nextSelect p), false)
  else
    let p := nextSelect p in
    match lines with
    | [] => Ok (p, true)
    | line :: rest => p' <- scanLine line p ;; scannerLoop rest p'
    end.

Inductive IOError : Type := SeekError | ReadError.

(** What the loop reads: the file from [StartOffset] on. *)
Definition input (file : File) (p : SlowLogParser) : list string :=
  (readLines (slice (contents file) (N.to_nat (StartOffset (opt p)))
                    (String.length (contents file)))).1.

(** The flush after the loop: lines 165 to 167. *)
Definition flush (p : SlowLogParser) : Res SlowLogParser :=
  if negb (stopped p) && (0 <? queryLines p) then sendEvent false false p
  else Ok p.

(** [Start]: the parser at return, with the error returned. *)
Definition Start (file : File) (p : SlowLogParser)
    : Res (SlowLogParser * option IOError) :=
  if (0 <? StartOffset (opt p)) && (2 ^ 63 <=? StartOffset (opt p))
  then Ok (p, Some SeekError)
  else
    r <- scannerLoop (input file p) p ;;
    if r.2 && faulty file then Ok (r.1, Some ReadError)
    else p' <- flush r.1 ;; Ok (p', None).

(** The events a parsing session has delivered, in order. *)
Definition events (r : Res (SlowLogParser * option IOError)) : list Event :=
  match r with
  | Ok (p, _) => eventChan p
  | Panic _ p => eventChan p
  end.

(** ** The vocabulary of the properties *)

(** [post QA QP r]: an [Ok] result satisfies [QA], a panic [QP]. *)
Definition post {A} (QA : A -> Prop) (QP : PanicKind -> SlowLogParser -> Prop)
    (r : Res A) : Prop :=
  match r with
  | Ok a => QA a
  | Panic k p => QP k p
  end.

(** The parser after a method, whether it returned or panicked. *)
Definition after (Q : SlowLogParser -> Prop) (r : Res SlowLogParser) : Prop :=
  post Q (fun _ => Q) r.

(** The event has an entry for the query duration. *)
Definition hasQueryTime (e : Event) : Prop :=
  is_Some (TimeMetrics e !! "Query_time").

(** [grows p p']: the events delivered at [p'] are those at [p] and then
    events that carry the query duration. *)
Definition grows (p p' : SlowLogParser) : Prop :=
  exists es, eventChan p' = eventChan p ++ es /\ Forall hasQueryTime es.

(** The invariant of the state machine after at most [n] lines: the count
    of header lines is at most [n]; it is not zero while the parser is in
    a header or a query or holds query lines; and while it is zero the
    event in progress is the new, empty one. *)
Definition Inv (n : N) (p : SlowLogParser) : Prop :=
  headerLines p <= n
  /\ (inHeader p = true \/ inQuery p = true \/ queryLines p <> 0 -> headerLines p <> 0)
  /\ (headerLines p = 0 -> event p = NewEvent).

(** A panic that is not the finalizer's. *)
Definition notFinalizer (k : PanicKind) (_ : SlowLogParser) : Prop :=
  k = IndexOutOfRange.

(** The effect of a method on cancellation: it leaves the stopped flag as
    it was, or it sets it and has delivered nothing. *)
Definition quietStop (p p' : SlowLogParser) : Prop :=
  (stopped p' = stopped p)
  \/ (stopped p' = true /\ eventChan p' = eventChan p).

(** The method neither stops the parser nor delivers an event. *)
Definition sameChan (p p' : SlowLogParser) : Prop :=
  stopped p' = stopped p /\ eventChan p' = eventChan p.




(** What a method leaves of the byte counts, of the events delivered and
    of the offset of the event in progress: the events it delivers have
    the offset of the event in progress, which had a "Query_time"; and
    after it the count of header lines is zero, or the event in progress
    has the offset it had, or, under [S], it has the offset of the line. *)
Definition tracksWith (S : Prop) (p p' : SlowLogParser) : Prop :=
  bytesRead p' = bytesRead p /\ lineOffset p' = lineOffset p
  /\ (exists es, eventChan p' = eventChan p ++ es
        /\ Forall (fun e => hasQueryTime (event p) /\ Offset e = Offset (event p)) es)
  /\ (headerLines p' = 0
      \/ (headerLines p <> 0 /\ Offset (event p') = Offset (event p))
      \/ (S /\ Offset (event p') = lineOffset p)).

(** The line begins an event: it is a header line, recorded when no
    header line was recorded yet for the event in progress, or found in
    the query state, where it ends the event before it. *)
Definition beginsEvent (line : string) (p : SlowLogParser) : Prop :=
  MatchString headerRe line = true
  /\ (headerLines p = 0 \/ (inHeader p = false /\ inQuery p = true)).

(** The bytes of the lines read. *)
Definition bytesOf (ls : list string) : N := foldr (fun l n => len l + n) 0 ls.

(** The off-by-one rule: the offset computed from the count of bytes
    read before a line. *)
Definition adjusted (b : N) : N := if b =? 0 then 0 else b + 1.

(** The order of events by offset. *)
Definition leOffset (a b : Event) : Prop := Offset a <= Offset b.

(** The invariant of the offsets, for a property [P] of offsets: the
    offset of a line is at most the adjusted count of bytes read; while
    header lines are recorded, the offset of the event in progress has
    [P], is at most the offset of the line and at least the offsets of
    the events delivered; and the events delivered have [P] and offsets
    in non-decreasing order, at most the offset of the line. *)
Definition OffInv (P : N -> Prop) (p : SlowLogParser) : Prop :=
  lineOffset p <= adjusted (bytesRead p)
  /\ (headerLines p <> 0 ->
      Offset (event p) <= lineOffset p /\ P (Offset (event p))
      /\ Forall (fun e => Offset e <= Offset (event p)) (eventChan p))
  /\ Forall (fun e => Offset e <= lineOffset p /\ P (Offset e)) (eventChan p)
  /\ StronglySorted leOffset (eventChan p).

(** [o] is the offset computed for a line of the session that begins an
    event. *)
Definition fromHeaderLine (lines : list string) (p0 : SlowLogParser) (o : N) : Prop :=
  exists pre line rest q,
    lines = pre ++ line :: rest
    /\ scannerLoop pre p0 = Ok (q, true)
    /\ isMeta line = false
    /\ beginsEvent (slice line 0 (String.length line - 1)) q
    /\ o = lineOffset (countLine (len line) q).

(** No line of [mid], read after the lines [base], begins an event. *)
Definition noneBegins (p0 : SlowLogParser) (base mid : list string) : Prop :=
  forall mid1 l mid2 q,
    mid = mid1 ++ l :: mid2 ->
    scannerLoop (base ++ mid1) p0 = Ok (q, true) ->
    isMeta l = false ->
    ~ beginsEvent (slice l 0 (String.length l - 1)) q.

(** While header lines are recorded, the event in progress after the
    lines [pre] has the offset computed for the last line that began an
    event. *)
Definition anchored (p0 : SlowLogParser) (pre : list string) (q : SlowLogParser) : Prop :=
  headerLines q <> 0 ->
  exists pre1 line mid q1,
    pre = pre1 ++ line :: mid
    /\ scannerLoop pre1 p0 = Ok (q1, true)
    /\ isMeta line = false
    /\ beginsEvent (slice line 0 (String.length line - 1)) q1
    /\ Offset (event q) = lineOffset (countLine (len line) q1)
    /\ noneBegins p0 (pre1 ++ [line]) mid.

(** A name-value pair of a metrics line, with the white space before it. *)
Record Pair : Type := mkPair {
  before : string;
  name : string;
  value : string
}.

(** The text of the pairs of a metrics line, after its "#". *)
Fixpoint metricsText (ps : list Pair) : string :=
  match ps with
  | [] => EmptyString
  | x :: ps' => before x +:+ name x +:+ ": " +:+ value x +:+ metricsText ps'
  end.

(** White space, a name of word characters, a value without white space. *)
Definition wellFormedPair (x : Pair) : Prop :=
  before x <> EmptyString /\ every space (before x) = true
  /\ name x <> EmptyString /\ every word (name x) = true
  /\ value x <> EmptyString /\ every notspace (value x) = true.

(** The submatches of a pair: the match, the name and the value. *)
Definition submatchesOf (x : Pair) : list string :=
  [name x +:+ ": " +:+ value x; name x; value x].

(** The bytes of a user name between brackets: no newline and no "@". *)
Definition inUser (c : ascii) : bool := dot c && notchar "@" c.

End Slow.

Arguments Ok {FP A} a.
Arguments Panic {FP A} e p.

Notation "x <- m ;; f" := (bind m (fun x => f))
  (at level 100, m at next level, right associativity).

(** ** The vocabulary of the further properties *)

Section Further.
Context `{FP : FloatParser}.

(** The method delivers no event, or one event and then [C] holds. *)
Definition deliversIf (C : Prop) (p p' : SlowLogParser) : Prop :=
  eventChan p' = eventChan p
  \/ (exists e, eventChan p' = eventChan p ++ [e] /\ C).

(** A panic that is not the index panic. *)
Definition notIndex (k : PanicKind) (_ : SlowLogParser) : Prop :=
  k <> IndexOutOfRange.

(** The "# Time", "# User" and "# admin" lines that carry what the
    parser takes from them. *)
Definition wellFormed (line : string) : bool :=
  implb (HasPrefix line "# Time") (MatchString timeRe line)
  && implb (HasPrefix line "# User") (MatchString userRe line)
  && implb (HasPrefix line "# admin") (MatchString adminRe line).

(** What a header line leaves of the event: the query text, the admin
    mark and the names of the metrics recorded so far. *)
Definition headerFrame (e e' : Event) : Prop :=
  Query e' = Query e /\ Admin e' = Admin e
  /\ (forall k, is_Some (TimeMetrics e !! k) -> is_Some (TimeMetrics e' !! k))
  /\ (forall k, is_Some (NumberMetrics e !! k) -> is_Some (NumberMetrics e' !! k))
  /\ (forall k, is_Some (BoolMetrics e !! k) -> is_Some (BoolMetrics e' !! k)).

(** The number a decimal numeral stands for, read after the digits [acc]. *)
Fixpoint decimal (s : string) (acc : N) : N :=
  match s with
  | EmptyString => acc
  | String c s' => decimal s' (acc * 10 + (byte_of c - 48))
  end.

(** The parser without what depends on the position in the file: the
    start offset, the byte counts and the offsets of the events. *)
Definition eraseEvent (e : Event) : Event := set_Offset 0 e.

Definition erase (p : SlowLogParser) : SlowLogParser :=
  mkParser (mkOptions 0 (FilterAdminCommand (opt p))) (stopChan p)
           (map eraseEvent (eventChan p)) (inHeader p) (inQuery p)
           (headerLines p) (queryLines p) 0 0 (stopped p) (eraseEvent (event p)).

Definition eraseKind (k : PanicKind) : PanicKind :=
  match k with
  | IndexOutOfRange => IndexOutOfRange
  | NoQueryTime _ => NoQueryTime 0
  end.

Definition eraseRes {A} (f : A -> A) (r : Res A) : Res A :=
  match r with
  | Ok a => Ok (f a)
  | Panic k p => Panic (eraseKind k) (erase p)
  end.

Definition erase1 {B} (r : SlowLogParser * B) : SlowLogParser * B := (erase r.1, r.2).

End Further.

(** ** Example sessions, with floats stood for by their text *)

Section Examples.
#[local] Existing Instance literal_floats.

Definition file_of (ls : list string) : File :=
  mkFile (fold_right (fun l s => l +:+ newline +:+ s) EmptyString ls) false.

Definition no_filter : Options := mkOptions 0 ∅.
Definition quit_filter : Options := mkOptions 0 {[ "Quit" := true ]}.
Definition resume_at_3 : Options := mkOptions 3 ∅.

Definition select_log : File :=
  file_of ["# Time: 071015 21:43:52";
           "# User@Host: root[root] @ localhost []";
           "# Query_time: 2.000001  Lock_time: 0.000000 Rows_sent: 1  Rows_examined: 1";
           "use test;"; "SET timestamp=1234;"; "SELECT 1;"].

Definition admin_log : File :=
  file_of ["# User@Host: a[a] @ b [c]"; "# administrator command: Quit;"].

Definition overflow_log : File :=
  file_of ["# Query_time: 1  Rows_sent: 18446744073709551616"; "SELECT 1;"].


Definition filtered_log : File :=
  file_of ["# Query_time: 1"; "SELECT 1"; "# administrator command: Quit;"].

Definition resumed_log : File :=
  file_of ["xx"; "# Query_time: 1"; "SELECT 1;"].

Definition parser_of (r : Res SlowLogParser) : SlowLogParser :=
  match r with Ok p => p | Panic _ p => p end.
Definition loop_parser (r : Res (SlowLogParser * bool)) : SlowLogParser :=
  match r with Ok (p, _) => p | Panic _ p => p end.
Definition read_failed (r : Res (SlowLogParser * bool)) : bool :=
  match r with Ok (_, fl) => fl | Panic _ _ => false end.

Definition after_user_line : SlowLogParser :=
  parser_of (scanLine ("# User@Host: a[a] @ b [c]" +:+ newline)
                      (NewSlowLogParser no_filter [])).
Definition after_duration_line (o : Options) (stops : list bool) : SlowLogParser :=
  parser_of (scanLine ("# Query_time: 1" +:+ newline) (NewSlowLogParser o stops)).
Definition after_use_line : SlowLogParser :=
  parser_of (scanLine ("use test;" +:+ newline) (after_duration_line no_filter [])).
Definition after_select_line : SlowLogParser :=
  parser_of (scanLine ("SELECT 1;" +:+ newline) (after_duration_line no_filter [])).
End Examples.

(** * Properties *)

Section Properties.
Context `{FP : FloatParser}.

(** ** Results and invariants *)

Lemma post_bind {A B} (QA' : A -> Prop) (QA : B -> Prop) QP (m : Res A) (f : A -> Res B) :
  post QA' QP m ->
  (forall a, QA' a -> post QA QP (f a)) ->
  post QA QP (bind m f).
Proof. destruct m; simpl; auto. Qed.

Lemma post_mono {A} (QA QA' : A -> Prop) (QP QP' : PanicKind -> SlowLogParser -> Prop) r :
  post QA QP r ->
  (forall a, QA a -> QA' a) ->
  (forall k p, QP k p -> QP' k p) ->
  post QA' QP' r.
Proof. destruct r; simpl; auto. Qed.

Lemma post_index p m i :
  post (fun x => m !! i = Some x) (fun k q => k = IndexOutOfRange /\ q = p) (index p m i).
Proof. unfold index. destruct (m !! i); simpl; auto. Qed.

Lemma after_bind Q' Q (m : Res SlowLogParser) f :
  after Q' m -> (forall a, Q' a -> after Q (f a)) -> (forall a, Q' a -> Q a) ->
  after Q (bind m f).
Proof. destruct m; simpl; auto. Qed.

Lemma after_index (Q : SlowLogParser -> Prop) p m i (f : string -> Res SlowLogParser) :
  Q p -> (forall x, m !! i = Some x -> after Q (f x)) ->
  after Q (bind (index p m i) f).
Proof. unfold index. destruct (m !! i); simpl; auto. Qed.

(** ** Strings *)

Lemma HasPrefix_inv s pre : HasPrefix s pre = true -> exists rest, s = pre +:+ rest.
Proof.
  revert s. induction pre as [|a pre IH]; intros s H; simpl in *.
  - by exists s.
  - destruct s as [|b s]; [done|].
    apply andb_true_iff in H as [H1 H2].
    apply Ascii.eqb_eq in H1 as ->.
    destruct (IH s H2) as [rest ->]. by exists rest.
Qed.

Lemma append_cons c a b : String c a +:+ b = String c (a +:+ b).
Proof. reflexivity. Qed.

Lemma append_nil b : EmptyString +:+ b = b.
Proof. reflexivity. Qed.

Lemma substring_full s : substring 0 (String.length s) s = s.
Proof. induction s as [|c s IH]; simpl; [done|]. by rewrite IH. Qed.

Lemma substring_skip a m b :
  substring (String.length a) m (a +:+ b) = substring 0 m b.
Proof.
  induction a as [|c a IH]; simpl; [done|].
  destruct m; apply IH.
Qed.

Lemma substring_take a b : substring 0 (String.length a) (a +:+ b) = a.
Proof. induction a as [|c a IH]; simpl; [by destruct b|]. by rewrite IH. Qed.

Lemma substring_split n s :
  (n <= String.length s)%nat ->
  s = substring 0 n s +:+ substring n (String.length s - n) s.
Proof.
  revert n. induction s as [|c s IH]; intros [|n] L; simpl in *; try done; try lia.
  - by rewrite substring_full.
  - rewrite append_cons. f_equal. apply IH. lia.
Qed.

Lemma length_app_string a b :
  String.length (a +:+ b) = (String.length a + String.length b)%nat.
Proof. induction a as [|c a IH]; simpl; [done|]. by rewrite IH. Qed.

(** [HasSuffix] tells that the string ends with the suffix. *)
Lemma HasSuffix_spec s suf :
  HasSuffix s suf = true <-> exists pre, s = pre +:+ suf.
Proof.
  unfold HasSuffix, slice. split.
  - intros H. apply andb_true_iff in H as [L E].
    apply Nat.leb_le in L. apply String.eqb_eq in E.
    exists (substring 0 (String.length s - String.length suf) s).
    pose proof (substring_split (String.length s - String.length suf) s) as S.
    rewrite E in S. apply S. lia.
  - intros [pre ->]. rewrite length_app_string.
    apply andb_true_iff. split; [apply Nat.leb_le; lia|].
    apply String.eqb_eq.
    replace (String.length pre + String.length suf - String.length suf)%nat
      with (String.length pre) by lia.
    rewrite substring_skip.
    replace (String.length pre + String.length suf - String.length pre)%nat
      with (String.length suf) by lia.
    apply substring_full.
Qed.



Lemma TrimPrefix_app pre rest : TrimPrefix (pre +:+ rest) pre = rest.
Proof.
  unfold TrimPrefix.
  replace (HasPrefix (pre +:+ rest) pre) with true.
  - unfold slice. rewrite length_app_string, substring_skip.
    replace (String.length pre + String.length rest - String.length pre)%nat
      with (String.length rest) by lia.
    apply substring_full.
  - symmetry. induction pre as [|c pre IH]; simpl; [done|].
    by rewrite Ascii.eqb_refl, IH.
Qed.

(** [TrimRight] removes a run of the byte at the end, and what it leaves
    does not end with the byte. *)
Lemma TrimRight_tail s c :
  exists tail, s = TrimRight s c +:+ tail
               /\ Forall (fun b => b = c) (list_ascii_of_string tail).
Proof.
  induction s as [|a s (tail & E & F)]; simpl.
  - by exists EmptyString.
  - destruct (TrimRight s c) as [|b t] eqn:T.
    + rewrite append_nil in E. subst tail.
      destruct (Ascii.eqb_spec a c) as [->|N].
      * exists (String c s). split; [done|]. simpl. by constructor.
      * by exists s.
    + exists tail. split; [|done]. rewrite append_cons. by rewrite <- E.
Qed.

Lemma TrimRight_trimmed s c pre : TrimRight s c <> pre +:+ String c EmptyString.
Proof.
  revert pre. induction s as [|a s IH]; intros pre; simpl.
  - by destruct pre.
  - destruct (TrimRight s c) as [|b t] eqn:T.
    + destruct (Ascii.eqb_spec a c) as [->|N].
      * by destruct pre.
      * destruct pre as [|x [|y pre]]; rewrite ?append_cons, ?append_nil; congruence.
    + destruct pre as [|x pre]; rewrite ?append_cons, ?append_nil; [congruence|].
      intros [= _ E]. by apply (IH pre).
Qed.

(** ** The header pattern *)

Lemma search_Bol r s pos : pos <> 0%nat -> search (Seq Bol r) s pos = None.
Proof.
  revert pos. induction s as [|c s IH]; intros pos H; simpl;
    unfold matchAt; simpl; destruct (Nat.eqb_spec pos 0); try done.
  by apply IH.
Qed.

(** A header line begins with the number sign. *)
Lemma headerRe_first c s : c <> "#"%char -> MatchString headerRe (String c s) = false.
Proof.
  intros N. unfold MatchString. cbn [search].
  unfold headerRe at 2. rewrite search_Bol; [|done].
  unfold matchAt, headerRe. cbn [matchK lit Nat.eqb].
  by destruct (Ascii.eqb_spec "#" c) as [<-|].
Qed.

Lemma MatchString_Find r s :
  MatchString r s = false -> FindStringSubmatch r s = [].
Proof. unfold MatchString, FindStringSubmatch. by destruct (search r s 0). Qed.

Lemma parseHeader_on_header line p :
  MatchString headerRe line = true -> parseHeader line p = parseHeaderLine line p.
Proof. intros H. unfold parseHeader. by rewrite H. Qed.

(** ** The matcher *)

Lemma submatches_length r text caps : length (submatches r text caps) = S (ngroups r).
Proof. unfold submatches. by rewrite length_map, length_seq. Qed.

Lemma findAll_length fuel r text pos prev :
  Forall (fun smv => length smv = S (ngroups r)) (findAll fuel r text pos prev).
Proof.
  revert pos prev. induction fuel as [|fuel IH]; intros pos prev; simpl; [done|].
  destruct (_ <? pos)%nat; [done|].
  destruct (search r _ pos) as [caps|]; [|done].
  destruct (capture caps 0) as [[b e]|]; [|done].
  destruct (e =? pos)%nat.
  - destruct (decide _); [apply IH|].
    constructor; [apply submatches_length|apply IH].
  - constructor; [apply submatches_length|apply IH].
Qed.

Lemma rep_inv {A} p g s :
  forall lo hi pos (k : string -> nat -> option A) x,
    rep p g lo hi s pos k = Some x ->
    exists a b, s = a +:+ b /\ every p a = true /\ (lo <= String.length a)%nat
                /\ k b (pos + String.length a)%nat = Some x.
Proof.
  induction s as [|c s IH]; intros lo hi pos k x H.
  - simpl in H. destruct lo; [|discriminate].
    exists EmptyString, EmptyString. rewrite Nat.add_0_r. repeat split; auto.
  - assert (Stop : (match lo with O => k (String c s) pos | S _ => None end) = Some x ->
                   exists a b, String c s = a +:+ b /\ every p a = true
                               /\ (lo <= String.length a)%nat
                               /\ k b (pos + String.length a)%nat = Some x).
    { intros E. destruct lo; [|discriminate].
      exists EmptyString, (String c s). rewrite Nat.add_0_r. repeat split; auto. }
    assert (Go : rep p g (pred lo) (option_map pred hi) s (S pos) k = Some x ->
                 p c = true ->
                 exists a b, String c s = a +:+ b /\ every p a = true
                             /\ (lo <= String.length a)%nat
                             /\ k b (pos + String.length a)%nat = Some x).
    { intros E Pc. apply IH in E as (a & b & -> & Ea & La & Ka).
      exists (String c a), b. rewrite append_cons. simpl every. rewrite Pc, Ea.
      simpl String.length. rewrite Nat.add_succ_r. repeat split; auto. lia. }
    simpl in H. destruct (p c && negb (exhausted hi)) eqn:E.
    + apply andb_true_iff in E as [Pc _].
      destruct g.
      * destruct (rep p true (pred lo) (option_map pred hi) s (S pos) k) eqn:R.
        -- injection H as ->. auto.
        -- auto.
      * destruct (match lo with O => k (String c s) pos | S _ => None end) eqn:R.
        -- injection H as ->. auto.
        -- auto.
    + auto.
Qed.

Lemma rep_greedy_max {A} p a :
  forall lo hi b pos (k : string -> nat -> option A) x,
    every p a = true -> (lo <= String.length a)%nat ->
    (forall h, hi = Some h -> (String.length a <= h)%nat) ->
    (b = EmptyString \/ (exists c b', b = String c b' /\ p c = false)
     \/ hi = Some (String.length a)) ->
    k b (pos + String.length a)%nat = Some x ->
    rep p true lo hi (a +:+ b) pos k = Some x.
Proof.
  induction a as [|c a IH]; intros lo hi b pos k x Ea La Ha Hb Hk.
  - rewrite append_nil. simpl in *. rewrite Nat.add_0_r in Hk.
    assert (lo = 0%nat) as -> by lia.
    destruct b as [|c b]; simpl; [assumption|].
    destruct Hb as [Hb|[(c' & b' & Hb & Pc)|Hb]].
    + discriminate.
    + injection Hb as <- <-. rewrite Pc. assumption.
    + subst hi. simpl. rewrite andb_false_r. assumption.
  - rewrite append_cons. simpl in Ea. apply andb_true_iff in Ea as [Pc Ea].
    simpl String.length in *. simpl rep. rewrite Pc.
    assert (exhausted hi = false) as ->.
    { destruct hi as [[|h]|]; auto. specialize (Ha 0%nat eq_refl). lia. }
    simpl.
    rewrite (IH (pred lo) (option_map pred hi) b (S pos) k x); auto.
    + lia.
    + intros h Eh. destruct hi as [h'|]; [|discriminate]. injection Eh as <-.
      specialize (Ha h' eq_refl). lia.
    + destruct Hb as [Hb|[Hb|Hb]]; auto. subst hi. auto.
    + rewrite <- Hk. f_equal. lia.
Qed.

Lemma rep_lazy_first {A} p a :
  forall b pos (k : string -> nat -> option A) x,
    every p a = true ->
    (forall a1 a2, a = a1 +:+ a2 -> a2 <> EmptyString ->
                   k (a2 +:+ b) (pos + String.length a1)%nat = None) ->
    k b (pos + String.length a)%nat = Some x ->
    rep p false 0 None (a +:+ b) pos k = Some x.
Proof.
  induction a as [|c a IH]; intros b pos k x Ea Hn Hk.
  - rewrite append_nil. simpl in Hk. rewrite Nat.add_0_r in Hk.
    destruct b as [|c b]; simpl; [assumption|].
    destruct (p c && true); rewrite Hk; reflexivity.
  - rewrite append_cons. simpl in Ea. apply andb_true_iff in Ea as [Pc Ea].
    simpl rep. rewrite Pc. simpl.
    pose proof (Hn EmptyString (String c a) eq_refl) as H0.
    rewrite append_cons, Nat.add_0_r in H0. simpl in H0. rewrite H0 by discriminate.
    apply IH; auto.
    + intros a1 a2 -> Ha2. specialize (Hn (String c a1) a2 eq_refl Ha2).
      simpl in Hn. rewrite Nat.add_succ_r in Hn. assumption.
    + simpl in Hk. rewrite Nat.add_succ_r in Hk. assumption.
Qed.

Lemma rep_greedy_complete {A} p a :
  forall lo b pos (k : string -> nat -> option A) x,
    every p a = true -> (lo <= String.length a)%nat ->
    k b (pos + String.length a)%nat = Some x ->
    exists y, rep p true lo None (a +:+ b) pos k = Some y.
Proof.
  induction a as [|c a IH]; intros lo b pos k x Ea La Hk.
  - rewrite append_nil. simpl in *. rewrite Nat.add_0_r in Hk.
    assert (lo = 0%nat) as -> by lia.
    destruct b as [|c b]; simpl; [eauto|].
    destruct (p c && true); [|eauto].
    destruct (rep p true 0 None b (S pos) k); eauto.
  - rewrite append_cons. simpl in Ea. apply andb_true_iff in Ea as [Pc Ea].
    simpl String.length in *. simpl rep. rewrite Pc. simpl.
    destruct (IH (pred lo) b (S pos) k x) as [y Hy]; auto; [lia| |].
    + rewrite <- Hk. f_equal. lia.
    + rewrite Hy. eauto.
Qed.

Lemma search_found r s pos caps : matchAt r s pos = Some caps -> search r s pos = Some caps.
Proof. intros H. destruct s; simpl; rewrite H; reflexivity. Qed.

Lemma search_skip r c s pos :
  matchAt r (String c s) pos = None -> search r (String c s) pos = search r s (S pos).
Proof. intros H. simpl. rewrite H. reflexivity. Qed.

Lemma search_app r a :
  forall b pos caps,
    matchAt r b (pos + String.length a)%nat = Some caps ->
    exists caps', search r (a +:+ b) pos = Some caps'.
Proof.
  induction a as [|c a IH]; intros b pos caps H.
  - rewrite append_nil. simpl in H. rewrite Nat.add_0_r in H.
    exists caps. apply search_found, H.
  - rewrite append_cons. simpl search.
    destruct (matchAt r (String c (a +:+ b)) pos); [eauto|].
    apply (IH b (S pos) caps). rewrite <- H. f_equal. simpl. lia.
Qed.

Lemma upper_not_space c : upper c = true -> space c = false.
Proof.
  destruct c as [[] [] [] [] [] [] [] []]; vm_compute; congruence.
Qed.

Lemma headerRe_inv line :
  MatchString headerRe line = true ->
  exists ws c rest,
    line = "#" +:+ ws +:+ String c rest
    /\ ws <> EmptyString /\ every space ws = true /\ upper c = true.
Proof.
  unfold MatchString. destruct line as [|c0 s].
  { vm_compute. discriminate. }
  destruct (matchAt headerRe (String c0 s) 0) as [caps|] eqn:M.
  2: { rewrite (search_skip _ _ _ _ M). unfold headerRe.
       rewrite search_Bol by discriminate. discriminate. }
  intros _.
  unfold matchAt, headerRe in M. cbn [matchK lit Nat.eqb] in M.
  destruct (Ascii.eqb "#" c0) eqn:E0; [|discriminate].
  apply Ascii.eqb_eq in E0. subst c0.
  apply rep_inv in M as (a & b & -> & Ea & La & Kb).
  destruct b as [|c1 rest]; [discriminate|].
  destruct (upper c1) eqn:U; [|discriminate].
  exists a, c1, rest. repeat split; auto.
  destruct a; [simpl in La; lia|discriminate].
Qed.

Lemma headerRe_intro ws c rest :
  ws <> EmptyString -> every space ws = true -> upper c = true ->
  MatchString headerRe ("#" +:+ ws +:+ String c rest) = true.
Proof.
  intros Hws Ews U.
  unfold MatchString.
  erewrite search_found; [reflexivity|].
  unfold matchAt, headerRe. rewrite append_cons, append_nil. simpl.
  apply rep_greedy_max with (x := [(0%nat, (0%nat, S (1 + String.length ws)))]); auto.
  + destruct ws; [congruence|simpl; lia].
  + discriminate.
  + right. left. exists c, rest. split; auto. apply upper_not_space, U.
  + rewrite U. reflexivity.
Qed.

Lemma append_assoc_s a b c : (a +:+ b) +:+ c = a +:+ (b +:+ c).
Proof.
  induction a as [|x a IH]; [rewrite !append_nil; reflexivity|].
  rewrite !append_cons, IH. reflexivity.
Qed.

Lemma HasPrefix_app s pre rest : HasPrefix s pre = true -> HasPrefix (s +:+ rest) pre = true.
Proof.
  revert s. induction pre as [|a pre IH]; intros s H; [reflexivity|].
  destruct s as [|b s]; [discriminate|]. rewrite append_cons. simpl in *.
  apply andb_true_iff in H as [-> H]. simpl. auto.
Qed.

Lemma rep_greedy_longest {A} p a :
  forall lo b pos (k : string -> nat -> option A) x,
    every p a = true -> (lo <= String.length a)%nat ->
    k b (pos + String.length a)%nat = Some x ->
    (forall a1 b1, b = a1 +:+ b1 -> a1 <> EmptyString -> every p a1 = true ->
                   k b1 (pos + String.length a + String.length a1)%nat = None) ->
    rep p true lo None (a +:+ b) pos k = Some x.
Proof.
  induction a as [|c a IH]; intros lo b pos k x Ea La Hk Hn.
  - rewrite append_nil. simpl in *. rewrite Nat.add_0_r in *.
    assert (lo = 0%nat) as -> by lia.
    destruct b as [|c b]; simpl; [assumption|].
    destruct (p c) eqn:Pc; simpl; [|assumption].
    destruct (rep p true 0 None b (S pos) k) as [y|] eqn:R; [|assumption].
    apply rep_inv in R as (a1 & b1 & -> & E1 & _ & K1).
    assert (N1 : k b1 (pos + String.length (String c a1))%nat = None).
    { apply Hn.
      - rewrite append_cons. reflexivity.
      - discriminate.
      - simpl. rewrite Pc, E1. reflexivity. }
    simpl in N1. rewrite Nat.add_succ_r in N1. simpl in K1. congruence.
  - rewrite append_cons. simpl in Ea. apply andb_true_iff in Ea as [Pc Ea].
    simpl String.length in *. simpl rep. rewrite Pc. simpl.
    rewrite (IH (pred lo) b (S pos) k x); auto.
    + lia.
    + rewrite <- Hk. f_equal. lia.
    + intros a1 b1 E Ha1 Ea1. rewrite <- (Hn a1 b1 E Ha1 Ea1). f_equal. lia.
Qed.

Lemma every_app p a b : every p (a +:+ b) = every p a && every p b.
Proof.
  induction a as [|c a IH]; [rewrite append_nil; reflexivity|].
  rewrite append_cons. simpl. rewrite IH, andb_assoc. reflexivity.
Qed.

Lemma every_head p a : a <> EmptyString -> every p a = true ->
  exists c a', a = String c a' /\ p c = true.
Proof.
  destruct a as [|c a']; [congruence|]. simpl. intros _ H.
  apply andb_true_iff in H as [H _]. eauto.
Qed.

(** The submatches of a match have one entry per group and one for the match. *)
Lemma FindStringSubmatch_length r s :
  MatchString r s = true -> length (FindStringSubmatch r s) = S (ngroups r).
Proof.
  unfold MatchString, FindStringSubmatch. destruct (search r s 0); [|discriminate].
  intros _. apply submatches_length.
Qed.

Lemma FindStringSubmatch_lookup r s i :
  MatchString r s = true -> (i <= ngroups r)%nat ->
  is_Some (FindStringSubmatch r s !! i).
Proof.
  intros M Hi. apply lookup_lt_is_Some. rewrite FindStringSubmatch_length by assumption. lia.
Qed.

Lemma timeRe_submatch d sp t rest :
  d <> EmptyString -> every notspace d = true ->
  sp <> EmptyString -> every space sp = true -> (String.length sp <= 2)%nat ->
  t <> EmptyString -> every notspace t = true ->
  (rest = EmptyString \/ exists c r, rest = String c r /\ space c = true) ->
  FindStringSubmatch timeRe ("# Time: " +:+ d +:+ sp +:+ t +:+ rest) !! 1%nat
  = Some (d +:+ sp +:+ t).
Proof.
  intros Hd Ed Hsp Esp Lsp Ht Et Hrest.
  set (e := (8 + String.length d + String.length sp + String.length t)%nat).
  assert (S : search timeRe ("# Time: " +:+ d +:+ sp +:+ t +:+ rest) 0
              = Some [(0%nat, (2%nat, e)); (1%nat, (8%nat, e))]).
  { rewrite !append_cons, append_nil.
    rewrite search_skip by reflexivity.
    rewrite search_skip by reflexivity.
    apply search_found.
    unfold matchAt, timeRe. cbn [matchK lit]. simpl Ascii.eqb. cbv iota.
    destruct (every_head _ _ Hsp Esp) as (cs & sp' & Esp' & Pcs).
    destruct (every_head _ _ Ht Et) as (ct & t' & Et' & Pct).
    apply rep_greedy_max; auto.
    - destruct d; [congruence|simpl; lia].
    - discriminate.
    - right. left. exists cs, (sp' +:+ t +:+ rest). split.
      + rewrite Esp', append_cons. reflexivity.
      + unfold notspace. rewrite Pcs. reflexivity.
    - apply rep_greedy_max; auto.
      + destruct sp; [congruence|simpl; lia].
      + intros h [= <-]. assumption.
      + right. left. exists ct, (t' +:+ rest). split.
        * rewrite Et', append_cons. reflexivity.
        * unfold notspace in Pct. apply negb_true_iff in Pct. assumption.
      + apply rep_greedy_max; auto.
        * destruct t; [congruence|simpl; lia].
        * discriminate.
        * destruct Hrest as [->|(c & r & -> & Pc)]; [left; reflexivity|].
          right. left. exists c, r. split; auto. unfold notspace. rewrite Pc. reflexivity. }
  unfold FindStringSubmatch. rewrite S.
  unfold submatches. simpl ngroups. simpl seq. simpl map. simpl lookup.
  f_equal. unfold slice, e.
  replace (8 + String.length d + String.length sp + String.length t - 8)%nat
    with (String.length (d +:+ sp +:+ t)) by (rewrite !length_app_string; lia).
  change 8%nat with (String.length "# Time: ").
  rewrite substring_skip.
  replace (d +:+ sp +:+ t +:+ rest) with ((d +:+ sp +:+ t) +:+ rest)
    by (rewrite !append_assoc_s; reflexivity).
  apply substring_take.
Qed.

Lemma every_impl (p q : ascii -> bool) s :
  (forall c, p c = true -> q c = true) -> every p s = true -> every q s = true.
Proof.
  intros H. induction s as [|c s IH]; simpl; [auto|].
  intros E. apply andb_true_iff in E as [Pc E]. rewrite (H c Pc), IH; auto.
Qed.

Lemma slice_middle a b c :
  slice (a +:+ b +:+ c) (String.length a) (String.length a + String.length b) = b.
Proof.
  unfold slice.
  replace (String.length a + String.length b - String.length a)%nat
    with (String.length b) by lia.
  rewrite substring_skip. apply substring_take.
Qed.

Lemma lit_app l s pos : lit l (l +:+ s) pos = Some (s, (pos + String.length l)%nat).
Proof.
  revert pos. induction l as [|a l IH]; intros pos.
  - rewrite append_nil. simpl. rewrite Nat.add_0_r. reflexivity.
  - rewrite append_cons. simpl. rewrite Ascii.eqb_refl, IH. do 2 f_equal. lia.
Qed.

Lemma matchK_Lit_app l s pos caps k :
  matchK (Lit l) (l +:+ s) pos caps k = k s (pos + String.length l)%nat caps.
Proof. simpl. rewrite lit_app. reflexivity. Qed.

Lemma matchK_Lit_head a l c s pos caps k :
  Ascii.eqb a c = false -> matchK (Lit (String a l)) (String c s) pos caps k = None.
Proof. intros H. simpl. rewrite H. reflexivity. Qed.

Lemma matchK_Lit_end a l pos caps k : matchK (Lit (String a l)) EmptyString pos caps k = None.
Proof. reflexivity. Qed.

Lemma matchK_Seq r1 r2 s pos caps k :
  matchK (Seq r1 r2) s pos caps k
  = matchK r1 s pos caps (fun s' pos' caps' => matchK r2 s' pos' caps' k).
Proof. reflexivity. Qed.

Lemma matchK_Group i r s pos caps k :
  matchK (Group i r) s pos caps k
  = matchK r s pos caps (fun s' pos' caps' => k s' pos' ((i, (pos, pos')) :: caps')).
Proof. reflexivity. Qed.

Lemma matchK_Rep g lo hi p s pos caps k :
  matchK (Rep g lo hi p) s pos caps k = rep p g lo hi s pos (fun s' pos' => k s' pos' caps).
Proof. reflexivity. Qed.

Lemma matchK_Alt_first r1 r2 s pos caps k x :
  matchK r1 s pos caps k = Some x -> matchK (Alt r1 r2) s pos caps k = Some x.
Proof. intros H. simpl. rewrite H. reflexivity. Qed.

Lemma submatches_lookup r text caps i b e :
  (i <= ngroups r)%nat -> capture caps i = Some (b, e) ->
  submatches r text caps !! i = Some (slice text b e).
Proof.
  intros Hi Hc. unfold submatches.
  rewrite list_lookup_fmap, lookup_seq_lt by lia. simpl. rewrite Hc. reflexivity.
Qed.

Lemma userRe_submatch u u2 h ip :
  u <> EmptyString -> every (notchar "[") u = true ->
  every inUser u2 = true ->
  every notspace h = true -> every dot ip = true ->
  let line := "# User@Host: " +:+ u +:+ "[" +:+ u2 +:+ "] @ " +:+ h +:+ " [" +:+ ip +:+ "]" in
  FindStringSubmatch userRe line !! 1%nat = Some u
  /\ FindStringSubmatch userRe line !! 2%nat = Some h.
Proof.
  intros Hu Eu Eu2 Eh Eip line.
  set (p1 := (13 + String.length u)%nat).
  set (p2 := (p1 + String.length ("[" +:+ u2 +:+ "] ") + 2)%nat).
  set (p3 := (p2 + String.length h + 2)%nat).
  assert (S : search userRe line 0
              = Some [(0%nat, (2%nat, S (p3 + String.length ip)));
                      (3%nat, (p3, (p3 + String.length ip)%nat));
                      (2%nat, (p2, (p2 + String.length h)%nat));
                      (1%nat, (13%nat, p1))]).
  { unfold line.
    set (tl := u +:+ "[" +:+ u2 +:+ "] @ " +:+ h +:+ " [" +:+ ip +:+ "]").
    change ("# User@Host: " +:+ tl) with (String "#" (String " " ("User@Host: " +:+ tl))).
    rewrite search_skip by reflexivity.
    rewrite search_skip by reflexivity.
    apply search_found. unfold tl. clear tl.
    unfold matchAt, userRe.
    rewrite matchK_Seq, matchK_Lit_app. change (2 + String.length "User@Host: ")%nat with 13%nat.
    rewrite matchK_Seq, matchK_Group.
    apply matchK_Alt_first. rewrite matchK_Rep.
    apply (rep_greedy_max (notchar "[") u).
    - assumption.
    - destruct u; [congruence|simpl; lia].
    - discriminate.
    - right. left. exists "["%char, (u2 +:+ "] @ " +:+ h +:+ " [" +:+ ip +:+ "]"). split; reflexivity.
    - fold p1. rewrite matchK_Seq, matchK_Rep.
      replace ("[" +:+ u2 +:+ "] @ " +:+ h +:+ " [" +:+ ip +:+ "]")
        with (("[" +:+ u2 +:+ "] ") +:+ ("@ " +:+ h +:+ " [" +:+ ip +:+ "]"))
        by (rewrite !append_assoc_s; reflexivity).
      apply (rep_lazy_first dot ("[" +:+ u2 +:+ "] ") ("@ " +:+ h +:+ " [" +:+ ip +:+ "]")).
      + rewrite !every_app, (every_impl inUser dot u2); auto.
        intros c Hc. apply andb_true_iff in Hc as [Hc _]. exact Hc.
      + intros a1 a2 E Ha2.
        assert (Ea2 : every (notchar "@") a2 = true).
        { assert (Ea : every (notchar "@") ("[" +:+ u2 +:+ "] ") = true).
          { rewrite !every_app, (every_impl inUser (notchar "@") u2); auto.
            intros c Hc. apply andb_true_iff in Hc as [_ Hc]. exact Hc. }
          rewrite E, every_app in Ea. apply andb_true_iff in Ea as [_ Ea]. exact Ea. }
        destruct (every_head _ _ Ha2 Ea2) as (c & a2' & -> & Pc).
        rewrite append_cons, matchK_Seq. apply matchK_Lit_head.
        unfold notchar in Pc. apply negb_true_iff in Pc.
        rewrite Ascii.eqb_sym. exact Pc.
      + rewrite matchK_Seq, matchK_Lit_app.
        replace (p1 + String.length ("[" +:+ u2 +:+ "] ") + String.length "@ ")%nat with p2
          by reflexivity.
        rewrite matchK_Seq, matchK_Group, matchK_Rep.
        apply (rep_greedy_max notspace h).
        * assumption.
        * lia.
        * discriminate.
        * right. left. exists " "%char, ("[" +:+ ip +:+ "]"). split; reflexivity.
        * rewrite matchK_Seq, matchK_Lit_app.
          replace (p2 + String.length h + String.length " [")%nat with p3 by reflexivity.
          rewrite matchK_Seq, matchK_Group, matchK_Rep.
          apply (rep_greedy_longest dot ip).
          -- assumption.
          -- lia.
          -- reflexivity.
          -- intros a1 b1 E Ha1 _.
             destruct a1 as [|c1 a1]; [congruence|].
             rewrite append_cons in E. injection E as _ E.
             destruct a1; [|discriminate]. rewrite append_nil in E. subst b1.
             reflexivity. }
  unfold FindStringSubmatch. rewrite S.
  split.
  - erewrite submatches_lookup; [|simpl; lia|reflexivity]. f_equal.
    unfold p1, line. change 13%nat with (String.length "# User@Host: ").
    apply slice_middle.
  - erewrite submatches_lookup; [|simpl; lia|reflexivity]. f_equal.
    unfold line.
    replace ("# User@Host: " +:+ u +:+ "[" +:+ u2 +:+ "] @ " +:+ h +:+ " [" +:+ ip +:+ "]")
      with (("# User@Host: " +:+ u +:+ "[" +:+ u2 +:+ "] @ ") +:+ h +:+ " [" +:+ ip +:+ "]")
      by (rewrite !append_assoc_s; reflexivity).
    replace p2 with (String.length ("# User@Host: " +:+ u +:+ "[" +:+ u2 +:+ "] @ ")).
    + apply slice_middle.
    + unfold p2, p1. rewrite !length_app_string. simpl. lia.
Qed.

Lemma matchK_Alt_second r1 r2 s pos caps k :
  matchK r1 s pos caps k = None -> matchK (Alt r1 r2) s pos caps k = matchK r2 s pos caps k.
Proof. intros H. simpl. rewrite H. reflexivity. Qed.

Lemma setRe_anywhere a v b :
  v = "last_insert_id" \/ v = "insert_id" \/ v = "timestamp" ->
  MatchString setRe (a +:+ "SET " +:+ v +:+ b) = true.
Proof.
  intros Hv. unfold MatchString.
  edestruct (search_app setRe a ("SET " +:+ v +:+ b) 0) as [caps Hc]; [|rewrite Hc; reflexivity].
  unfold matchAt, setRe. rewrite matchK_Seq, matchK_Lit_app.
  destruct Hv as [ -> | [ -> | -> ] ].
  - apply matchK_Alt_first. rewrite matchK_Lit_app. reflexivity.
  - rewrite matchK_Alt_second.
    2: { change ("insert_id" +:+ b) with (String "i" ("nsert_id" +:+ b)).
         apply matchK_Lit_head. reflexivity. }
    apply matchK_Alt_first. rewrite matchK_Lit_app. reflexivity.
  - rewrite matchK_Alt_second.
    2: { change ("timestamp" +:+ b) with (String "t" ("imestamp" +:+ b)).
         apply matchK_Lit_head. reflexivity. }
    rewrite matchK_Alt_second.
    2: { change ("timestamp" +:+ b) with (String "t" ("imestamp" +:+ b)).
         apply matchK_Lit_head. reflexivity. }
    rewrite matchK_Lit_app. reflexivity.
Qed.

(** *** The last line of a file *)
Lemma slice_tail_cons c s n :
  slice (String c s) (S n) (String.length (String c s)) = slice s n (String.length s).
Proof. reflexivity. Qed.

Lemma slice_tail_app s t : forall n,
  (n <= String.length s)%nat ->
  slice (s +:+ t) n (String.length (s +:+ t)) = slice s n (String.length s) +:+ t.
Proof.
  induction s as [|c s IH]; intros n Hn.
  - simpl in Hn. assert (n = 0%nat) as -> by lia. rewrite append_nil.
    unfold slice. rewrite Nat.sub_0_r, substring_full. reflexivity.
  - destruct n as [|n].
    + unfold slice. rewrite !Nat.sub_0_r, !substring_full. reflexivity.
    + rewrite append_cons, !slice_tail_cons. apply IH. simpl in Hn. lia.
Qed.

Lemma substring_zero s : forall n, substring n 0 s = EmptyString.
Proof. induction s as [|c s IH]; intros [|n]; simpl; auto. Qed.

Lemma matchAt_metricsRe_notword c s pos :
  word c = false -> matchAt metricsRe (String c s) pos = None.
Proof.
  intros W. unfold matchAt, metricsRe. rewrite matchK_Seq, matchK_Group, matchK_Rep.
  simpl. rewrite W. reflexivity.
Qed.

Lemma search_metricsRe_skip j : forall s pos,
  every (fun c => negb (word c)) j = true ->
  search metricsRe (j +:+ s) pos = search metricsRe s (pos + String.length j)%nat.
Proof.
  induction j as [|c j IH]; intros s pos E.
  - rewrite append_nil. simpl. rewrite Nat.add_0_r. reflexivity.
  - simpl in E. apply andb_true_iff in E as [Wc E]. apply negb_true_iff in Wc.
    rewrite append_cons, search_skip by (apply matchAt_metricsRe_notword, Wc).
    rewrite IH by assumption. f_equal. simpl. lia.
Qed.

Lemma search_metricsRe_none : search metricsRe EmptyString = fun _ => None.
Proof. reflexivity. Qed.

Lemma space_not_word c : space c = true -> word c = false.
Proof. destruct c as [[] [] [] [] [] [] [] []]; vm_compute; congruence. Qed.

Lemma word_not_space c : word c = true -> notspace c = true.
Proof. destruct c as [[] [] [] [] [] [] [] []]; vm_compute; congruence. Qed.

Lemma metricsText_head ps :
  Forall wellFormedPair ps ->
  metricsText ps = EmptyString
  \/ exists c r, metricsText ps = String c r /\ space c = true.
Proof.
  intros F. destruct ps as [|x ps]; [by left|]. right.
  inversion F as [|? ? (B1 & B2 & _) _]; subst.
  destruct (every_head _ _ B1 B2) as (c & b' & Eb & Pc).
  exists c, (b' +:+ name x +:+ ": " +:+ value x +:+ metricsText ps).
  split; [|exact Pc]. simpl. rewrite Eb, append_cons. reflexivity.
Qed.

Lemma search_pair pos x rest :
  wellFormedPair x ->
  (rest = EmptyString \/ exists c r, rest = String c r /\ space c = true) ->
  let b := (pos + String.length (before x))%nat in
  let e := (b + String.length (name x) + 2 + String.length (value x))%nat in
  search metricsRe (before x +:+ name x +:+ ": " +:+ value x +:+ rest) pos
  = Some [(0%nat, (b, e));
          (2%nat, ((b + String.length (name x) + 2)%nat, e));
          (1%nat, (b, (b + String.length (name x))%nat))].
Proof.
  intros (B1 & B2 & N1 & N2 & V1 & V2) R b e.
  rewrite search_metricsRe_skip.
  2: { eapply every_impl; [|exact B2]. intros c Hc. by rewrite (space_not_word c Hc). }
  fold b. apply search_found.
  unfold matchAt, metricsRe. rewrite matchK_Seq, matchK_Group, matchK_Rep.
  apply (rep_greedy_max word (name x)).
  - assumption.
  - destruct (name x); [congruence|simpl; lia].
  - discriminate.
  - right. left. exists ":"%char, (" " +:+ value x +:+ rest). split; reflexivity.
  - rewrite matchK_Seq, matchK_Lit_app, matchK_Group.
    apply matchK_Alt_first. rewrite matchK_Rep.
    apply (rep_greedy_max notspace (value x)).
    + assumption.
    + destruct (value x); [congruence|simpl; lia].
    + discriminate.
    + destruct R as [->|(c & r & -> & Pc)]; [by left|].
      right. left. exists c, r. split; [reflexivity|]. unfold notspace. by rewrite Pc.
    + unfold e. simpl String.length. reflexivity.
Qed.

Lemma slice_all s : slice s 0 (String.length s) = s.
Proof. unfold slice. rewrite Nat.sub_0_r. apply substring_full. Qed.

Lemma slice_none s : slice s (String.length s) (String.length s) = EmptyString.
Proof. unfold slice. rewrite Nat.sub_diag. apply substring_zero. Qed.

Lemma slice_drop pre s :
  slice (pre +:+ s) (String.length pre) (String.length (pre +:+ s)) = s.
Proof.
  rewrite slice_tail_app by lia. rewrite slice_none, append_nil. reflexivity.
Qed.

Lemma slice_middle4 a b c d :
  slice (a +:+ b +:+ c +:+ d) (String.length a + String.length b)
        (String.length a + String.length b + String.length c) = c.
Proof.
  replace (a +:+ b +:+ c +:+ d) with ((a +:+ b) +:+ c +:+ d)
    by (rewrite !append_assoc_s; reflexivity).
  rewrite <- length_app_string. apply slice_middle.
Qed.

Lemma findAll_pairs ps : forall pre j fuel prev,
  every (fun c => negb (word c)) j = true ->
  Forall wellFormedPair ps ->
  (length ps < fuel)%nat ->
  findAll fuel metricsRe (pre +:+ j +:+ metricsText ps) (String.length pre) prev
  = map submatchesOf ps.
Proof.
  induction ps as [|x ps IH]; intros pre j fuel prev J F Lf.
  - destruct fuel as [|fuel]; [simpl in Lf; lia|].
    simpl metricsText. cbn [findAll].
    destruct (_ <? _)%nat; [reflexivity|].
    rewrite slice_drop, search_metricsRe_skip by assumption. reflexivity.
  - destruct fuel as [|fuel]; [simpl in Lf; lia|].
    inversion F as [|? ? Wx F']; subst.
    cbn [findAll].
    assert ((String.length (pre +:+ j +:+ metricsText (x :: ps)) <? String.length pre)%nat
            = false) as ->.
    { apply Nat.ltb_ge. rewrite length_app_string. lia. }
    rewrite slice_drop. simpl metricsText.
    rewrite search_metricsRe_skip by assumption.
    rewrite (search_pair _ x (metricsText ps) Wx (metricsText_head ps F')).
    cbv zeta. cbn [capture Nat.eqb].
    set (t := metricsText ps).
    set (text := pre +:+ j +:+ before x +:+ name x +:+ ": " +:+ value x +:+ t).
    assert (T : text = (pre +:+ j) +:+ before x +:+ name x +:+ ": " +:+ value x +:+ t)
      by (unfold text; rewrite !append_assoc_s; reflexivity).
    assert (L : (String.length pre + String.length j)%nat = String.length (pre +:+ j))
      by (rewrite length_app_string; reflexivity).
    rewrite L. clearbody text. subst text.
    set (q := pre +:+ j) in *.
    set (b := (String.length q + String.length (before x))%nat).
    set (e := (b + String.length (name x) + 2 + String.length (value x))%nat).
    destruct Wx as (B1 & B2 & N1 & N2 & V1 & V2).
    assert ((e =? String.length pre)%nat = false) as ->.
    { apply Nat.eqb_neq. unfold e, b. rewrite <- L. lia. }
    cbn [map]. f_equal.
    + unfold submatches, submatchesOf. simpl ngroups. cbn [seq map capture Nat.eqb].
      f_equal; [|f_equal; [|f_equal]].
      * replace (q +:+ before x +:+ name x +:+ ": " +:+ value x +:+ t)
          with (q +:+ before x +:+ (name x +:+ ": " +:+ value x) +:+ t)
          by (rewrite !append_assoc_s; reflexivity).
        replace e with (String.length q + String.length (before x)
                        + String.length (name x +:+ ": " +:+ value x))%nat
          by (unfold e, b; rewrite !length_app_string; simpl; lia).
        apply slice_middle4.
      * unfold b. apply slice_middle4.
      * replace (q +:+ before x +:+ name x +:+ ": " +:+ value x +:+ t)
          with (q +:+ (before x +:+ name x +:+ ": ") +:+ value x +:+ t)
          by (rewrite !append_assoc_s; reflexivity).
        replace (b + String.length (name x) + 2)%nat
          with (String.length q + String.length (before x +:+ name x +:+ ": "))%nat
          by (unfold b; rewrite !length_app_string; simpl; lia).
        replace e with (String.length q + String.length (before x +:+ name x +:+ ": ")
                        + String.length (value x))%nat
          by (unfold e, b; rewrite !length_app_string; simpl; lia).
        apply slice_middle4.
    + replace (q +:+ before x +:+ name x +:+ ": " +:+ value x +:+ t)
        with ((q +:+ before x +:+ name x +:+ ": " +:+ value x) +:+ EmptyString +:+ t)
        by (rewrite !append_assoc_s, append_nil; reflexivity).
      replace e with (String.length (q +:+ before x +:+ name x +:+ ": " +:+ value x))
        by (unfold e, b; rewrite !length_app_string; simpl; lia).
      apply IH; [reflexivity|assumption|simpl in Lf; lia].
Qed.

Lemma metricsText_length ps : (length ps <= String.length (metricsText ps))%nat.
Proof.
  induction ps as [|x ps IH]; simpl; [lia|]. rewrite !length_app_string. simpl. lia.
Qed.

Lemma FindAllStringSubmatch_pairs ps :
  Forall wellFormedPair ps ->
  FindAllStringSubmatch metricsRe ("#" +:+ metricsText ps) = map submatchesOf ps.
Proof.
  intros F. unfold FindAllStringSubmatch.
  apply (findAll_pairs ps EmptyString "#"); [reflexivity|assumption|].
  pose proof (metricsText_length ps). rewrite length_app_string. simpl. lia.
Qed.

(** ** The invariant of the state machine *)

Lemma post_index_bind {B} (QA : B -> Prop) QP p m i (f : string -> Res B) :
  QP IndexOutOfRange p ->
  (forall x, m !! i = Some x -> post QA QP (f x)) ->
  post QA QP (bind (index p m i) f).
Proof. unfold index. destruct (m !! i); simpl; auto. Qed.

Lemma Inv_mono n m p : Inv n p -> n <= m -> Inv m p.
Proof. intros (H1 & H2 & H3) L. repeat split; auto. lia. Qed.

Lemma sendEvent_Ok inH inQ p :
  headerLines p <> 0 ->
  exists p', sendEvent inH inQ p = Ok p'
    /\ headerLines p' = 0 /\ queryLines p' = 0 /\ event p' = NewEvent
    /\ inHeader p' = inH /\ inQuery p' = inQ.
Proof.
  intros H. unfold sendEvent.
  destruct (TimeMetrics (event p) !! "Query_time").
  - destruct (stopSignal _); eexists; (split; [reflexivity|]); by repeat split.
  - destruct (N.eqb_spec (headerLines p) 0); [done|].
    eexists; (split; [reflexivity|]); by repeat split.
Qed.

Lemma parseAdmin_Inv line n p :
  headerLines p <= n -> headerLines p <> 0 ->
  post (Inv n) notFinalizer (parseAdmin line p).
Proof.
  intros L H. unfold parseAdmin. apply post_index_bind; [done|]. intros q _.
  match goal with |- context [negb ?b] => destruct b end; simpl.
  - repeat split; simpl; [done| |done]. by intros [?|[?|?]].
  - match goal with |- context [sendEvent _ _ ?q] =>
      destruct (sendEvent_Ok false false q H) as (p' & -> & H1 & H2 & H3 & H4 & H5) end.
    simpl. unfold Inv. rewrite H1, H2, H4, H5.
    repeat split; [lia| |done]. by intros [?|[?|?]].
Qed.

Lemma parseHeaderLine_Inv line n p :
  headerLines p <= n -> n + 1 < two64 ->
  post (Inv (n + 1)) notFinalizer (parseHeaderLine line p).
Proof.
  intros L B. unfold parseHeaderLine.
  set (p1 := set_headerLines _ _).
  assert (H1 : headerLines p1 = headerLines p + 1).
  { unfold p1, add64, wrap64. destruct (headerLines p =? 0); simpl;
      apply N.mod_small; lia. }
  assert (I : forall q, headerLines q = headerLines p1 -> Inv (n + 1) q).
  { intros q Hq. unfold Inv. rewrite Hq, H1. repeat split; lia. }
  clearbody p1.
  destruct (HasPrefix line "# Time").
  { apply post_index_bind; [done|]. intros ts _.
    destruct (MatchString userRe line); [|by apply I].
    apply post_index_bind; [done|]. intros u _.
    apply post_index_bind; [done|]. intros h _. by apply I. }
  destruct (HasPrefix line "# User").
  { apply post_index_bind; [done|]. intros u _.
    apply post_index_bind; [done|]. intros h _. by apply I. }
  destruct (HasPrefix line "# admin").
  { apply parseAdmin_Inv; lia. }
  destruct (parseMetrics _ _); simpl; [by apply I|done].
Qed.

Lemma parseQuery_Inv line n p :
  Inv n p -> headerLines p <> 0 -> n + 1 < two64 ->
  post (Inv (n + 1)) notFinalizer (parseQuery line p).
Proof.
  intros (L & A & E) H B. unfold parseQuery.
  destruct (HasPrefix line "# admin").
  { eapply post_mono; [apply (parseAdmin_Inv line n); auto| |done].
    intros a Ha. eapply Inv_mono; [done|lia]. }
  destruct (MatchString headerRe line).
  { match goal with |- context [sendEvent _ _ ?q] =>
      destruct (sendEvent_Ok true false q H) as (p' & -> & H1 & H2 & H3 & H4 & H5) end.
    simpl. apply parseHeaderLine_Inv; lia. }
  assert (I : forall q, headerLines q = headerLines p -> Inv (n + 1) q).
  { intros q Hq. unfold Inv. rewrite Hq. repeat split; [lia|done|done]. }
  destruct (_ && _); [by apply I|].
  destruct (MatchString setRe line); [by apply I|].
  simpl. apply I. by destruct (0 <? queryLines p).
Qed.

Lemma parseHeader_Inv line n p :
  Inv n p -> headerLines p <> 0 -> n + 1 < two64 ->
  post (Inv (n + 1)) notFinalizer (parseHeader line p).
Proof.
  intros I H B. unfold parseHeader.
  destruct (negb _).
  - apply parseQuery_Inv; [|done|done].
    destruct I as (L & A & E). by repeat split.
  - apply parseHeaderLine_Inv; [apply I|done].
Qed.

Lemma dispatch_Inv line n p :
  Inv n p -> n + 1 < two64 ->
  post (Inv (n + 1)) notFinalizer (dispatch line p).
Proof.
  intros I B. pose proof I as (L & A & E). unfold dispatch.
  destruct (inHeader p) eqn:EH; [apply parseHeader_Inv; auto|].
  destruct (inQuery p) eqn:EQ; [apply parseQuery_Inv; auto|].
  destruct (MatchString headerRe line) eqn:EM; simpl.
  - unfold parseHeader. rewrite EM. simpl. by apply parseHeaderLine_Inv.
  - eapply Inv_mono; [done|lia].
Qed.

Lemma countLine_Inv n k p : Inv n p -> Inv n (countLine k p).
Proof. unfold countLine. by destruct (negb _). Qed.

Lemma scanLine_Inv line n p :
  Inv n p -> n + 1 < two64 ->
  post (Inv (n + 1)) notFinalizer (scanLine line p).
Proof.
  intros I B. unfold scanLine. destruct (isMeta line); simpl.
  - eapply Inv_mono; [by apply countLine_Inv|lia].
  - by apply dispatch_Inv, B; apply countLine_Inv.
Qed.

Lemma scannerLoop_Inv lines n p :
  Inv n p -> n + N.of_nat (length lines) < two64 ->
  post (fun r => Inv (n + N.of_nat (length lines)) r.1) notFinalizer
       (scannerLoop lines p).
Proof.
  revert n p. induction lines as [|line rest IH]; intros n p I B; simpl;
    (destruct (stopped p); [simpl; eapply Inv_mono; [done|lia]|]);
    (destruct (stopSignal p); [simpl; eapply Inv_mono; [by apply I|lia]|]).
  - simpl. eapply Inv_mono; [by apply I|lia].
  - simpl length in B.
    eapply post_bind.
    + apply (scanLine_Inv line n); [by apply I|lia].
    + intros a Ha. simpl.
      replace (n + N.of_nat (S (length rest))) with (n + 1 + N.of_nat (length rest)) by lia.
      apply IH; [done|lia].
Qed.

Lemma flush_Inv n p : Inv n p -> post (fun _ => True) notFinalizer (flush p).
Proof.
  intros (L & A & E). unfold flush.
  destruct (negb (stopped p)); simpl; [|done].
  destruct (N.ltb_spec 0 (queryLines p)); [|done].
  destruct (sendEvent_Ok false false p) as (p' & -> & _); [|done].
  apply A. right. right. lia.
Qed.

Lemma substring_length_le n m s : (String.length (substring n m s) <= String.length s)%nat.
Proof.
  revert n m. induction s as [|c s IH]; intros [|n] [|m]; simpl; try lia.
  - specialize (IH 0%nat m). lia.
  - specialize (IH n 0%nat). lia.
  - specialize (IH n (S m)). lia.
Qed.

Lemma readLines_length s : (length (readLines s).1 <= String.length s)%nat.
Proof.
  induction s as [|c s IH]; simpl; [lia|].
  destruct (readLines s) as [ls t]. simpl in *.
  destruct (Ascii.eqb c LF); simpl; [lia|].
  destruct ls; simpl in *; lia.
Qed.

Lemma input_length file p :
  N.of_nat (length (input file p)) <= len (contents file).
Proof.
  unfold input, len, slice.
  pose proof (readLines_length
    (substring (N.to_nat (StartOffset (opt p)))
       (String.length (contents file) - N.to_nat (StartOffset (opt p))) (contents file))).
  pose proof (substring_length_le (N.to_nat (StartOffset (opt p)))
       (String.length (contents file) - N.to_nat (StartOffset (opt p))) (contents file)).
  lia.
Qed.

(** ** C1: emitted events carry the query duration *)

Lemma grows_refl p p' : eventChan p' = eventChan p -> grows p p'.
Proof. intros H. exists []. rewrite app_nil_r. auto. Qed.

Lemma grows_trans p q r : grows p q -> grows q r -> grows p r.
Proof.
  intros [es [H1 F1]] [es' [H2 F2]]. exists (es ++ es').
  rewrite H2, H1, app_assoc. split; [done|]. apply Forall_app; auto.
Qed.

Lemma sendEvent_grows inH inQ p : after (grows p) (sendEvent inH inQ p).
Proof.
  unfold sendEvent.
  destruct (TimeMetrics (event p) !! "Query_time") as [v|] eqn:E.
  - destruct (stopSignal _); simpl.
    + by apply grows_refl.
    + eexists. split; [reflexivity|]. constructor; [|constructor].
      unfold hasQueryTime. simpl. rewrite E. eauto.
  - destruct (headerLines p =? 0); simpl; by apply grows_refl.
Qed.

Lemma parseAdmin_grows line p : after (grows p) (parseAdmin line p).
Proof.
  unfold parseAdmin. apply after_index; [by apply grows_refl|]. intros q _.
  match goal with |- context [negb ?b] => destruct b end; simpl.
  - by apply grows_refl.
  - eapply post_mono; [apply sendEvent_grows| |]; simpl; intros;
      (eapply grows_trans; [|eassumption]); by apply grows_refl.
Qed.

Lemma parseHeaderLine_grows line p : after (grows p) (parseHeaderLine line p).
Proof.
  unfold parseHeaderLine.
  set (p1 := set_headerLines _ _).
  assert (G : grows p p1).
  { apply grows_refl. unfold p1. by destruct (headerLines p =? 0). }
  clearbody p1.
  destruct (HasPrefix line "# Time").
  { apply after_index; [done|]. intros ts _.
    destruct (MatchString userRe line); [|by apply (grows_trans _ p1); [|apply grows_refl]].
    apply after_index; [by apply (grows_trans _ p1); [|apply grows_refl]|]. intros u _.
    apply after_index; [by apply (grows_trans _ p1); [|apply grows_refl]|]. intros h _.
    by apply (grows_trans _ p1); [|apply grows_refl]. }
  destruct (HasPrefix line "# User").
  { apply after_index; [done|]. intros u _.
    apply after_index; [by apply (grows_trans _ p1); [|apply grows_refl]|]. intros h _.
    by apply (grows_trans _ p1); [|apply grows_refl]. }
  destruct (HasPrefix line "# admin").
  { eapply post_mono; [apply parseAdmin_grows| |]; simpl; intros;
      by eapply grows_trans. }
  destruct (parseMetrics _ _); simpl; [|done].
  by apply (grows_trans _ p1); [|apply grows_refl].
Qed.

Lemma parseQuery_grows line p : after (grows p) (parseQuery line p).
Proof.
  unfold parseQuery.
  destruct (HasPrefix line "# admin"); [apply parseAdmin_grows|].
  destruct (MatchString headerRe line).
  { eapply after_bind.
    - apply sendEvent_grows.
    - intros a Ha. eapply post_mono; [apply parseHeaderLine_grows| |];
        simpl; intros; (eapply grows_trans; [|eassumption]);
        (eapply grows_trans; [|eassumption]); by apply grows_refl.
    - intros a Ha. eapply grows_trans; [|eassumption]. by apply grows_refl. }
  destruct (_ && _); [by apply grows_refl|].
  destruct (MatchString setRe line); [by apply grows_refl|].
  simpl. apply grows_refl. by destruct (0 <? queryLines p).
Qed.

Lemma parseHeader_grows line p : after (grows p) (parseHeader line p).
Proof.
  unfold parseHeader. destruct (negb _); [|apply parseHeaderLine_grows].
  eapply post_mono; [apply parseQuery_grows| |]; simpl; intros;
    (eapply grows_trans; [|eassumption]); by apply grows_refl.
Qed.

Lemma dispatch_grows line p : after (grows p) (dispatch line p).
Proof.
  unfold dispatch.
  destruct (inHeader p); [apply parseHeader_grows|].
  destruct (inQuery p); [apply parseQuery_grows|].
  destruct (MatchString headerRe line); [|by apply grows_refl].
  eapply post_mono; [apply parseHeader_grows| |]; simpl; intros;
    (eapply grows_trans; [|eassumption]); by apply grows_refl.
Qed.

Lemma countLine_eventChan n p : eventChan (countLine n p) = eventChan p.
Proof. unfold countLine. by destruct (negb _). Qed.

Lemma scanLine_grows line p : after (grows p) (scanLine line p).
Proof.
  unfold scanLine. destruct (isMeta line); simpl.
  - apply grows_refl, countLine_eventChan.
  - eapply post_mono; [apply dispatch_grows| |]; simpl; intros;
      (eapply grows_trans; [|eassumption]); apply grows_refl, countLine_eventChan.
Qed.

Lemma scannerLoop_grows lines p :
  post (fun r => grows p r.1) (fun _ => grows p) (scannerLoop lines p).
Proof.
  revert p. induction lines as [|line rest IH]; intros p; simpl;
    (destruct (stopped p); [by apply grows_refl|]);
    (destruct (stopSignal p); [by apply grows_refl|]).
  - by apply grows_refl.
  - eapply post_bind.
    + eapply post_mono; [apply scanLine_grows| |]; simpl; intros.
      * instantiate (1 := grows p). eapply grows_trans; [|eassumption]. by apply grows_refl.
      * eapply grows_trans; [|eassumption]. by apply grows_refl.
    + intros a Ha. eapply post_mono; [apply IH| |]; simpl; intros; by eapply grows_trans.
Qed.

Lemma flush_grows p : after (grows p) (flush p).
Proof.
  unfold flush. destruct (_ && _); [apply sendEvent_grows|by apply grows_refl].
Qed.

Lemma Start_grows file p :
  post (fun r => grows p r.1) (fun _ => grows p) (Start file p).
Proof.
  unfold Start. destruct (_ && _); [by apply grows_refl|].
  eapply post_bind; [apply scannerLoop_grows|]. intros [q fl] G. simpl in *.
  destruct (fl && faulty file); simpl; [done|].
  eapply post_bind.
  - eapply post_mono; [apply flush_grows| |]; simpl; intros.
    + instantiate (1 := grows p). by eapply grows_trans.
    + by eapply grows_trans.
  - by intros a Ha.
Qed.

(** C1.  Every event a parsing session delivers, also one that ends in a
    panic, has an entry for "Query_time" in its time metrics; and the
    finalizer, on an event in progress without that entry for which at
    least one header line was recorded, returns without a panic, delivers
    nothing and replaces the event by a new one. *)
Theorem emitted_events_have_Query_time :
  (forall file o stops e,
      e ∈ events (Start file (NewSlowLogParser o stops)) ->
      is_Some (TimeMetrics e !! "Query_time"))
  /\ (forall inH inQ p,
      TimeMetrics (event p) !! "Query_time" = None ->
      headerLines p <> 0 ->
      exists p', sendEvent inH inQ p = Ok p'
                 /\ eventChan p' = eventChan p
                 /\ event p' = NewEvent).
Proof.
  split.
  - intros file o stops e He.
    pose proof (Start_grows file (NewSlowLogParser o stops)) as G.
    unfold events in He.
    destruct (Start _ _) as [[q err]|k q]; simpl in G;
      destruct G as [es [Hq F]]; rewrite Hq in He; simpl in He;
      rewrite Forall_forall in F; apply F, He.
  - intros inH inQ p HQ Hh. unfold sendEvent. rewrite HQ.
    destruct (N.eqb_spec (headerLines p) 0) as [E|E]; [done|].
    eexists. split; [reflexivity|]. by split.
Qed.

(** ** C2: offsets *)

Lemma header_not_admin line :
  MatchString headerRe line = true -> HasPrefix line "# admin" = false.
Proof.
  intros M. destruct (HasPrefix line "# admin") eqn:A; [|done].
  apply HasPrefix_inv in A as [rest ->].
  change ("# admin" +:+ rest) with (String "#" (" admin" +:+ rest)) in M.
  unfold MatchString in M. cbn [search] in M.
  unfold headerRe in M at 2. rewrite search_Bol in M by done.
  replace (matchAt headerRe (String "#" (" admin" +:+ rest)) 0) with (@None Caps) in M
    by reflexivity.
  done.
Qed.

Lemma parseMetric_Offset smv e e' : parseMetric smv e = Some e' -> Offset e' = Offset e.
Proof.
  unfold parseMetric.
  destruct (smv !! 1%nat) as [name|]; [|done].
  destruct (smv !! 2%nat) as [value|]; [|done]. simpl.
  repeat match goal with |- context [if ?b then _ else _] => destruct b end;
    by intros [= <-].
Qed.

Lemma parseMetrics_Offset m e e' : parseMetrics m e = Some e' -> Offset e' = Offset e.
Proof.
  revert e. induction m as [|smv m IH]; intros e; simpl; [by intros [= <-]|].
  destruct (parseMetric smv e) as [e1|] eqn:E; [|done]. simpl.
  intros H. rewrite (IH _ H). by apply parseMetric_Offset in E.
Qed.

Lemma tracksWith_same S p p' :
  bytesRead p' = bytesRead p -> lineOffset p' = lineOffset p ->
  eventChan p' = eventChan p -> headerLines p' = headerLines p ->
  Offset (event p') = Offset (event p) ->
  tracksWith S p p'.
Proof.
  intros H1 H2 H3 H4 H5. repeat split; auto.
  - exists []. by rewrite app_nil_r.
  - destruct (N.eq_dec (headerLines p) 0); [left; congruence|right; left; done].
Qed.

Lemma sendEvent_tracks inH inQ p :
  after (fun p' => tracksWith False p p' /\ headerLines p' = 0
                   /\ inHeader p' = inH /\ inQuery p' = inQ)
        (sendEvent inH inQ p).
Proof.
  unfold sendEvent.
  destruct (TimeMetrics (event p) !! "Query_time") as [v|] eqn:E.
  - destruct (stopSignal _); simpl.
    + repeat split; auto. exists []. by rewrite app_nil_r.
    + repeat split; auto. eexists. split; [reflexivity|].
      constructor; [|done]. split; [|done]. unfold hasQueryTime. rewrite E. eauto.
  - destruct (headerLines p =? 0); simpl;
      (repeat split; auto; exists []; by rewrite app_nil_r).
Qed.

Lemma parseAdmin_tracks line p : after (tracksWith False p) (parseAdmin line p).
Proof.
  unfold parseAdmin. apply after_index; [by apply tracksWith_same|]. intros q _.
  match goal with |- context [negb ?b] => destruct b end; simpl.
  - by apply tracksWith_same.
  - eapply post_mono; [apply sendEvent_tracks| |]; simpl; intros; tauto.
Qed.

(** The header parser, on a line that is not an admin line, delivers
    nothing, and the offset of the event is that of the line if no header
    line was recorded before, and is as it was otherwise. *)
Lemma parseHeaderLine_offset line p :
  HasPrefix line "# admin" = false ->
  after (fun p' => bytesRead p' = bytesRead p /\ lineOffset p' = lineOffset p
                   /\ eventChan p' = eventChan p
                   /\ headerLines p' = add64 (headerLines p) 1
                   /\ Offset (event p')
                      = if headerLines p =? 0 then lineOffset p else Offset (event p))
        (parseHeaderLine line p).
Proof.
  intros NA. unfold parseHeaderLine.
  set (p1 := set_headerLines _ _).
  assert (G : bytesRead p1 = bytesRead p /\ lineOffset p1 = lineOffset p
              /\ eventChan p1 = eventChan p
              /\ headerLines p1 = add64 (headerLines p) 1
              /\ Offset (event p1)
                 = if headerLines p =? 0 then lineOffset p else Offset (event p)).
  { unfold p1. by destruct (headerLines p =? 0). }
  clearbody p1.
  destruct (HasPrefix line "# Time").
  { apply after_index; [done|]. intros ts _.
    destruct (MatchString userRe line); [|done].
    apply after_index; [done|]. intros u _.
    apply after_index; [done|]. intros h _. done. }
  destruct (HasPrefix line "# User").
  { apply after_index; [done|]. intros u _.
    apply after_index; [done|]. intros h _. done. }
  rewrite NA.
  destruct (parseMetrics _ _) as [e|] eqn:E; simpl; [|done].
  apply parseMetrics_Offset in E. by rewrite E.
Qed.

Lemma parseQuery_tracks line p :
  after (tracksWith (MatchString headerRe line = true) p) (parseQuery line p).
Proof.
  unfold parseQuery.
  destruct (HasPrefix line "# admin") eqn:NA.
  { eapply post_mono; [apply parseAdmin_tracks| |]; simpl; unfold tracksWith;
      intros; tauto. }
  destruct (MatchString headerRe line) eqn:M.
  { eapply after_bind.
    - apply sendEvent_tracks.
    - intros a ((B & L & ES & _) & H0 & _). simpl in B, L, ES.
      eapply post_mono; [by apply parseHeaderLine_offset| |]; simpl;
        intros; (match goal with H : _ /\ _ |- _ =>
                   destruct H as (B' & L' & C' & _ & O') end);
        rewrite H0 in O'; simpl in O';
        repeat split; try congruence;
        [rewrite C'; exact ES|right; right; split; [done|congruence]
        |rewrite C'; exact ES|right; right; split; [done|congruence]].
    - intros a ((B & L & ES & _) & H0 & _). simpl in B, L, ES.
      repeat split; auto. }
  destruct (_ && _); [by apply tracksWith_same|].
  destruct (MatchString setRe line); [by apply tracksWith_same|].
  simpl. apply tracksWith_same; try done; by destruct (0 <? queryLines p).
Qed.

Lemma parseHeaderLine_tracks line p :
  MatchString headerRe line = true ->
  after (tracksWith (headerLines p = 0) p) (parseHeaderLine line p).
Proof.
  intros M. eapply post_mono;
    [apply parseHeaderLine_offset; by apply header_not_admin| |]; simpl;
    intros; (match goal with H : _ /\ _ |- _ =>
               destruct H as (B' & L' & C' & _ & O') end);
    (repeat split; auto; [exists []; by rewrite app_nil_r|]);
    (destruct (N.eqb_spec (headerLines p) 0);
      [right; right; done|right; left; done]).
Qed.

Lemma dispatch_tracks line p : after (tracksWith (beginsEvent line p) p) (dispatch line p).
Proof.
  unfold dispatch, parseHeader.
  destruct (inHeader p) eqn:IH.
  { destruct (MatchString headerRe line) eqn:M; simpl.
    - eapply post_mono; [by apply parseHeaderLine_tracks| |]; simpl;
        unfold tracksWith, beginsEvent; intros; intuition.
    - eapply post_mono; [apply parseQuery_tracks| |]; simpl;
        unfold tracksWith; simpl; intros; intuition congruence. }
  destruct (inQuery p) eqn:IQ.
  { eapply post_mono; [apply parseQuery_tracks| |]; simpl;
      unfold tracksWith, beginsEvent; intros; intuition. }
  destruct (MatchString headerRe line) eqn:M; simpl.
  - eapply post_mono; [by apply parseHeaderLine_tracks| |]; simpl;
      unfold tracksWith, beginsEvent; simpl; intros; intuition.
  - by apply tracksWith_same.
Qed.

Lemma countLine_spec n p :
  bytesRead p + n + 1 < two64 ->
  bytesRead (countLine n p) = bytesRead p + n
  /\ lineOffset (countLine n p) = adjusted (bytesRead p).
Proof.
  intros B. unfold countLine, adjusted. simpl.
  assert (E1 : add64 (bytesRead p) n = bytesRead p + n).
  { unfold add64, wrap64. apply N.mod_small. lia. }
  assert (E2 : sub64 (add64 (bytesRead p) n) n = bytesRead p).
  { rewrite E1. unfold sub64, wrap64.
    rewrite (N.mod_small n) by lia.
    replace (bytesRead p + n + two64 - n) with (bytesRead p + 1 * two64) by lia.
    rewrite N.Div0.mod_add. apply N.mod_small. lia. }
  rewrite E2. destruct (N.eqb_spec (bytesRead p) 0) as [Z|Z]; simpl.
  - by rewrite E1.
  - split; [done|]. unfold add64, wrap64. apply N.mod_small. lia.
Qed.

Lemma countLine_fields n p :
  opt (countLine n p) = opt p /\ stopChan (countLine n p) = stopChan p
  /\ eventChan (countLine n p) = eventChan p
  /\ inHeader (countLine n p) = inHeader p /\ inQuery (countLine n p) = inQuery p
  /\ headerLines (countLine n p) = headerLines p
  /\ queryLines (countLine n p) = queryLines p
  /\ stopped (countLine n p) = stopped p /\ event (countLine n p) = event p.
Proof. unfold countLine. by destruct (negb _). Qed.

Lemma adjusted_mono a b : a <= b -> adjusted a <= adjusted b.
Proof.
  unfold adjusted. intros L.
  destruct (N.eqb_spec a 0), (N.eqb_spec b 0); lia.
Qed.

Lemma NewEvent_no_Query_time : ~ hasQueryTime NewEvent.
Proof. unfold hasQueryTime. simpl. rewrite lookup_empty. by intros [? ?]. Qed.

Lemma same_offset_sorted o es :
  Forall (fun e => Offset e = o) es -> StronglySorted leOffset es.
Proof.
  induction 1 as [|e es E F IH]; constructor; [done|].
  eapply Forall_impl; [exact F|]. intros x Hx. unfold leOffset. simpl in *. lia.
Qed.

Lemma OffInv_countLine P n p :
  bytesRead p + n + 1 < two64 -> OffInv P p -> OffInv P (countLine n p).
Proof.
  intros B (L & H & F & S).
  destruct (countLine_spec n p B) as [E1 E2].
  destruct (countLine_fields n p) as (_ & _ & C & _ & _ & HL & _ & _ & EV).
  assert (M : lineOffset p <= lineOffset (countLine n p)) by (rewrite E2; done).
  unfold OffInv. rewrite E1, C, HL, EV. repeat split.
  - rewrite E2. apply adjusted_mono. lia.
  - destruct (H H0) as (H1 & _). lia.
  - by destruct (H H0) as (_ & H1 & _).
  - by destruct (H H0) as (_ & _ & H1).
  - eapply Forall_impl; [exact F|]. simpl. intros x [? ?]. split; [lia|done].
  - done.
Qed.

Lemma OffInv_tracks (P : N -> Prop) S n p p' :
  Inv n p -> OffInv P p -> tracksWith S p p' ->
  (S -> P (lineOffset p)) ->
  OffInv P p'.
Proof.
  intros (_ & _ & NE) (L & H & F & SS) (B & LO & (es & C & FE) & D) SP.
  assert (K : es = [] \/ headerLines p <> 0).
  { destruct es as [|e es]; [by left|]. right. intros Z.
    inversion_clear FE as [|? ? [Q _] _]. rewrite (NE Z) in Q.
    by apply NewEvent_no_Query_time. }
  assert (F' : Forall (fun e => Offset e <= lineOffset p /\ P (Offset e)) (eventChan p ++ es)).
  { apply Forall_app. split; [done|].
    destruct K as [->|K]; [done|]. destruct (H K) as (H1 & H2 & _).
    eapply Forall_impl; [exact FE|]. simpl. intros x [_ ->]. done. }
  unfold OffInv. rewrite B, LO, C. repeat split; try done.
  - destruct D as [D|[[D1 D2]|[D1 D2]]]; [done| |lia].
    rewrite D2. by destruct (H D1).
  - destruct D as [D|[[D1 D2]|[D1 D2]]]; [done| |].
    + rewrite D2. by destruct (H D1) as (_ & ? & _).
    + rewrite D2. by apply SP.
  - destruct D as [D|[[D1 D2]|[D1 D2]]]; [done| |].
    + rewrite D2. destruct (H D1) as (_ & _ & H3). apply Forall_app. split; [done|].
      eapply Forall_impl; [exact FE|]. simpl. intros x [_ ->]. lia.
    + rewrite D2. eapply Forall_impl; [exact F'|]. simpl. by intros x [? _].
  - apply StronglySorted_app_2; [|done|].
    + intros x1 x2 H1 H2. destruct K as [->|K]; [by apply elem_of_nil in H2|].
      destruct (H K) as (_ & _ & H3).
      rewrite Forall_forall in H3, FE.
      specialize (H3 _ H1). destruct (FE _ H2) as [_ E]. unfold leOffset. lia.
    + apply (same_offset_sorted (Offset (event p))).
      eapply Forall_impl; [exact FE|]. by intros x [_ ?].
Qed.

Lemma post_conj {A} (QA1 QA2 : A -> Prop) QP1 QP2 (r : Res A) :
  post QA1 QP1 r -> post QA2 QP2 r ->
  post (fun a => QA1 a /\ QA2 a) (fun k p => QP1 k p /\ QP2 k p) r.
Proof. destruct r; simpl; auto. Qed.

Lemma scanLine_OffInv P n line q :
  bytesRead q + len line + 1 < two64 -> n + 1 < two64 ->
  Inv n q -> OffInv P q ->
  (isMeta line = false ->
   beginsEvent (slice line 0 (String.length line - 1)) q ->
   P (lineOffset (countLine (len line) q))) ->
  post (fun p' => Inv (n + 1) p' /\ OffInv P p'
                  /\ bytesRead p' = bytesRead q + len line)
       (fun _ p' => OffInv P p')
       (scanLine line q).
Proof.
  intros B1 B2 I O HP.
  pose proof (scanLine_Inv line n q I B2) as PI.
  unfold scanLine in *.
  destruct (countLine_spec (len line) q B1) as [E1 E2].
  destruct (countLine_fields (len line) q) as (_ & _ & _ & F1 & F2 & F3 & _).
  pose proof (OffInv_countLine P _ _ B1 O) as OC.
  pose proof (countLine_Inv n (len line) q I) as IC.
  destruct (isMeta line); simpl in *; [done|].
  pose proof (dispatch_tracks (slice line 0 (String.length line - 1))
                (countLine (len line) q)) as T.
  assert (SP : beginsEvent (slice line 0 (String.length line - 1)) (countLine (len line) q)
               -> P (lineOffset (countLine (len line) q))).
  { unfold beginsEvent. rewrite F1, F2, F3. by apply HP. }
  destruct (dispatch _ _) as [p'|k p']; simpl in *.
  - split; [done|]. split; [by eapply OffInv_tracks|].
    destruct T as (T & _). by rewrite T.
  - by eapply OffInv_tracks.
Qed.

Lemma scannerLoop_OffInv lines p0 rest :
  forall pre p n,
    lines = pre ++ rest ->
    (forall rest', scannerLoop (pre ++ rest') p0 = scannerLoop rest' p) ->
    bytesRead p + bytesOf rest + 1 < two64 ->
    n + N.of_nat (length rest) < two64 ->
    Inv n p -> OffInv (fromHeaderLine lines p0) p ->
    post (fun r => (exists m, Inv m r.1) /\ OffInv (fromHeaderLine lines p0) r.1)
         (fun _ q => OffInv (fromHeaderLine lines p0) q)
         (scannerLoop rest p).
Proof.
  induction rest as [|line rest IH]; intros pre p n EL R B1 B2 I O.
  - simpl. destruct (stopped p); [split; eauto|].
    destruct (stopSignal p); simpl; split; eauto.
  - pose proof (R []) as R0. rewrite app_nil_r in R0.
    simpl scannerLoop in *.
    destruct (stopped p) eqn:ST; [split; eauto|].
    destruct (stopSignal p) eqn:SS; [simpl; split; eauto|].
    simpl bytesOf in B1. simpl length in B2.
    assert (PL : post (fun p' => Inv (n + 1) p' /\ OffInv (fromHeaderLine lines p0) p'
                  /\ bytesRead p' = bytesRead (nextSelect p) + len line)
       (fun _ p' => OffInv (fromHeaderLine lines p0) p')
       (scanLine line (nextSelect p))).
    { apply (scanLine_OffInv _ n); [simpl; lia|lia|exact I|exact O|].
      intros M Bg. exists pre, line, rest, (nextSelect p).
      split; [done|]. split; [done|]. split; [done|]. split; [exact Bg|done]. }
    destruct (scanLine line (nextSelect p)) as [p'|k p'] eqn:E; simpl in *; [|done].
    destruct PL as (I' & O' & B').
    apply (IH (pre ++ [line]) p' (n + 1)); try done.
    + by rewrite <- app_assoc.
    + intros rest'. rewrite <- app_assoc. simpl. rewrite R. simpl.
      rewrite ST, SS, E. done.
    + rewrite B'. lia.
    + lia.
Qed.

Lemma scannerLoop_bytesRead pre :
  forall p q,
    scannerLoop pre p = Ok (q, true) ->
    bytesRead p + bytesOf pre + 1 < two64 ->
    bytesRead q = bytesRead p + bytesOf pre.
Proof.
  induction pre as [|line pre IH]; intros p q; simpl.
  - destruct (stopped p); [done|]. destruct (stopSignal p); [done|].
    intros [= <-] _. simpl. lia.
  - destruct (stopped p); [done|]. destruct (stopSignal p); [done|].
    intros H B.
    assert (PL : after (fun p' => bytesRead p' = bytesRead p + len line)
                       (scanLine line (nextSelect p))).
    { unfold scanLine.
      destruct (countLine_spec (len line) (nextSelect p)) as [E1 _]; [simpl; lia|].
      simpl in E1.
      destruct (isMeta line); [done|].
      eapply post_mono; [apply dispatch_tracks| |]; simpl; unfold tracksWith;
        intros; (match goal with H : _ /\ _ |- _ => destruct H as (T & _) end);
        by rewrite T. }
    destruct (scanLine line (nextSelect p)) as [p'|] eqn:E; [|done]. simpl in *.
    rewrite (IH _ _ H); lia.
Qed.

(** The lines of [readLines] are those the successive reads return. *)
Lemma readLines_ReadString s :
  match ReadString s with
  | Some (l, r) => readLines s = (l :: (readLines r).1, (readLines r).2)
  | None => (readLines s).1 = []
  end.
Proof.
  induction s as [|c s IH]; simpl; [done|].
  destruct (Ascii.eqb c LF).
  - by destruct (readLines s).
  - destruct (ReadString s) as [[l r]|].
    + rewrite IH. done.
    + destruct (readLines s) as [ls t]. simpl in IH. by subst ls.
Qed.

Lemma len_cons c s : len (String c s) = len s + 1.
Proof. unfold len. simpl String.length. lia. Qed.

Lemma readLines_bytes s : bytesOf (readLines s).1 <= len s.
Proof.
  assert (H : bytesOf (readLines s).1 + len (readLines s).2 = len s).
  { induction s as [|c s IH]; [done|]. simpl readLines.
    destruct (readLines s) as [ls t]. simpl in IH.
    rewrite len_cons, <- IH.
    destruct (Ascii.eqb c LF); simpl.
    - unfold len at 1. simpl. lia.
    - destruct ls as [|l ls]; simpl; rewrite len_cons; lia. }
  lia.
Qed.

Lemma readLines_nonempty s : Forall (fun l => 0 < len l) (readLines s).1.
Proof.
  induction s as [|c s IH]; simpl; [done|].
  destruct (readLines s) as [ls t]. simpl in IH.
  destruct (Ascii.eqb c LF); simpl.
  - constructor; [done|done].
  - destruct ls as [|l ls]; simpl; [done|].
    inversion_clear IH. constructor; [|done]. rewrite len_cons. lia.
Qed.

Lemma bytesOf_app a b : bytesOf (a ++ b) = bytesOf a + bytesOf b.
Proof. induction a as [|l a IH]; simpl; [done|]. rewrite IH. lia. Qed.

Lemma input_bytes file p : bytesOf (input file p) <= len (contents file).
Proof.
  unfold input, slice.
  etransitivity; [apply readLines_bytes|].
  unfold len. pose proof (substring_length_le (N.to_nat (StartOffset (opt p)))
       (String.length (contents file) - N.to_nat (StartOffset (opt p))) (contents file)).
  lia.
Qed.

Lemma beginsEvent_dec line p : beginsEvent line p \/ ~ beginsEvent line p.
Proof.
  unfold beginsEvent.
  destruct (MatchString headerRe line); [|right; by intros [? _]].
  destruct (N.eq_dec (headerLines p) 0) as [Z|Z]; [left; auto|].
  destruct (inHeader p); [right; intros [_ [?|[? _]]]; done|].
  destruct (inQuery p); [left; auto|right; intros [_ [?|[_ ?]]]; done].
Qed.

(** The dispatch of a line that begins an event leaves the event with
    the offset of the line. *)
Lemma dispatch_begins line p :
  beginsEvent line p ->
  post (fun p' => headerLines p' = 0 \/ Offset (event p') = lineOffset p)
       (fun _ _ => True)
       (dispatch line p).
Proof.
  intros [M B]. pose proof (header_not_admin line M) as NA.
  unfold dispatch, parseHeader. rewrite M. simpl negb. cbv iota.
  assert (HL : forall q, lineOffset q = lineOffset p -> headerLines q = 0 ->
               post (fun p' => headerLines p' = 0 \/ Offset (event p') = lineOffset p)
                    (fun _ _ => True) (parseHeaderLine line q)).
  { intros q L Z.
    eapply post_mono; [by apply parseHeaderLine_offset| |done].
    simpl. intros a (_ & L' & _ & _ & O). right. rewrite O, Z. simpl. done. }
  destruct (inHeader p) eqn:IH.
  { destruct B as [Z|[? _]]; [|done]. by apply HL. }
  destruct (inQuery p) eqn:IQ.
  - unfold parseQuery. rewrite NA, M.
    match goal with |- context [sendEvent _ _ ?q] =>
      pose proof (sendEvent_tracks true false q) as T end.
    destruct (sendEvent true false _) as [a|]; simpl in *; [|done].
    destruct T as ((_ & L & _) & Z & _). by apply HL.
  - destruct B as [Z|[_ ?]]; [|done]. by apply HL.
Qed.

Lemma app_snoc_inv {A} (mid mid1 mid2 : list A) l l' :
  mid ++ [l] = mid1 ++ l' :: mid2 ->
  (mid1 = mid /\ l' = l /\ mid2 = [])
  \/ (exists m, mid2 = m ++ [l] /\ mid = mid1 ++ l' :: m).
Proof.
  induction mid2 as [|x m _] using rev_ind; intros E.
  - apply app_inj_tail in E as [-> ->]. by left.
  - right. exists m.
    change (mid1 ++ l' :: m ++ [x]) with (mid1 ++ (l' :: m) ++ [x]) in E.
    rewrite app_assoc in E. apply app_inj_tail in E as [-> ->]. done.
Qed.

Lemma scannerLoop_snoc_inv pre :
  forall p0 l q',
    scannerLoop (pre ++ [l]) p0 = Ok (q', true) ->
    exists q p',
      scannerLoop pre p0 = Ok (q, true)
      /\ scanLine l q = Ok p'
      /\ q' = nextSelect p'.
Proof.
  induction pre as [|a pre IH]; intros p0 l q'; simpl.
  - destruct (stopped p0); [done|]. destruct (stopSignal p0); [done|].
    destruct (scanLine l (nextSelect p0)) as [p'|] eqn:E; [|done]. simpl.
    destruct (stopped p'); [done|]. destruct (stopSignal p'); [done|].
    intros [= <-]. by exists (nextSelect p0), p'.
  - destruct (stopped p0); [done|]. destruct (stopSignal p0); [done|].
    destruct (scanLine a (nextSelect p0)) as [p1|] eqn:E; [|done]. simpl.
    intros H. destruct (IH _ _ _ H) as (q & p' & R & S & ->).
    by exists q, p'.
Qed.

Lemma anchored_step p0 pre q l p' :
  scannerLoop pre p0 = Ok (q, true) ->
  anchored p0 pre q ->
  scanLine l q = Ok p' ->
  anchored p0 (pre ++ [l]) p'.
Proof.
  intros R A S. unfold scanLine in S.
  destruct (countLine_fields (len l) q) as (_ & _ & _ & F1 & F2 & F3 & _ & _ & F4).
  assert (Keep : forall p'', headerLines p'' <> 0 ->
            headerLines q <> 0 -> Offset (event p'') = Offset (event q) ->
            (isMeta l = false -> ~ beginsEvent (slice l 0 (String.length l - 1)) q) ->
            exists pre1 line mid q1,
              pre ++ [l] = pre1 ++ line :: mid
              /\ scannerLoop pre1 p0 = Ok (q1, true)
              /\ isMeta line = false
              /\ beginsEvent (slice line 0 (String.length line - 1)) q1
              /\ Offset (event p'') = lineOffset (countLine (len line) q1)
              /\ noneBegins p0 (pre1 ++ [line]) mid).
  { intros p'' _ H O NB.
    destruct (A H) as (pre1 & line & mid & q1 & E & R1 & M1 & B1 & O1 & N1).
    exists pre1, line, (mid ++ [l]), q1.
    split; [rewrite E, <- app_assoc; done|].
    split; [done|]. split; [done|]. split; [done|]. split; [congruence|].
    intros mid1 l' mid2 q2 E2 R2 M2.
    apply app_snoc_inv in E2 as [(-> & -> & _)|(m & -> & ->)].
    - rewrite <- app_assoc in R2. simpl in R2. rewrite <- E, R in R2.
      injection R2 as <-. by apply NB.
    - by eapply N1. }
  destruct (isMeta l) eqn:M.
  - injection S as <-. intros H. rewrite F3 in H.
    apply Keep; rewrite ?F3, ?F4; done.
  - pose proof (dispatch_tracks (slice l 0 (String.length l - 1)) (countLine (len l) q)) as T.
    destruct (beginsEvent_dec (slice l 0 (String.length l - 1)) q) as [B|NB].
    + assert (B' : beginsEvent (slice l 0 (String.length l - 1)) (countLine (len l) q))
        by (unfold beginsEvent in *; rewrite F1, F2, F3; done).
      pose proof (dispatch_begins _ _ B') as D.
      rewrite S in D. simpl in D. intros H.
      destruct D as [D|D]; [done|].
      exists pre, l, [], q.
      split; [done|]. split; [done|]. split; [done|]. split; [done|]. split; [done|].
      intros mid1 l' mid2 q2 E2. by destruct mid1.
    + rewrite S in T. simpl in T. destruct T as (_ & _ & _ & D). intros H.
      destruct D as [D|[[D1 D2]|[D1 _]]]; [done| |].
      * rewrite F3 in D1. rewrite F4 in D2. by apply Keep.
      * exfalso. apply NB. unfold beginsEvent in *. by rewrite F1, F2, F3 in D1.
Qed.

Lemma scannerLoop_anchored p0 pre :
  headerLines p0 = 0 ->
  forall q, scannerLoop pre p0 = Ok (q, true) -> anchored p0 pre q.
Proof.
  intros Z. induction pre as [|l pre IH] using rev_ind; intros q R.
  - simpl in R. destruct (stopped p0); [done|]. destruct (stopSignal p0); [done|].
    injection R as <-. by intros H.
  - destruct (scannerLoop_snoc_inv _ _ _ _ R) as (q0 & p' & R0 & S & ->).
    exact (anchored_step p0 pre q0 l p' R0 (IH q0 R0) S).
Qed.

Lemma Start_OffInv file o stops :
  let p0 := NewSlowLogParser o stops in
  StartOffset o + len (contents file) + 1 < two64 ->
  post (fun r => OffInv (fromHeaderLine (input file p0) p0) r.1)
       (fun _ q => OffInv (fromHeaderLine (input file p0) p0) q)
       (Start file p0).
Proof.
  intros p0 B.
  assert (O0 : OffInv (fromHeaderLine (input file p0) p0) p0).
  { split; [apply N.le_0_l|]. split; [done|]. split; constructor. }
  unfold Start. destruct (_ && _); [done|].
  pose proof (input_bytes file p0) as IB.
  pose proof (input_length file p0) as IL.
  pose proof (scannerLoop_OffInv (input file p0) p0 (input file p0) [] p0 0) as L.
  destruct (scannerLoop (input file p0) p0) as [[r fl]|k q]; simpl.
  - destruct L as [[m I] O]; try done.
    { simpl. lia. }
    { lia. }
    { split; [simpl; lia|]. split; [|done]. by intros [?|[?|?]]. }
    simpl in I, O.
    destruct (fl && faulty file); simpl; [done|].
    unfold flush. destruct (_ && _); simpl; [|done].
    pose proof (sendEvent_tracks false false r) as T.
    destruct (sendEvent false false r); simpl in *;
      destruct T as (T & _); by eapply (OffInv_tracks _ False).
  - apply L; try done.
    { simpl. lia. }
    { lia. }
    { split; [simpl; lia|]. split; [|done]. by intros [?|[?|?]]. }
Qed.

(** C2.  (1) The offset computed for a line is the count of bytes read
    before it, the start offset included, and one more exactly when that
    count is not zero.  (2) In a session the count before a line is the
    start offset plus the bytes of the lines before it, so the one is
    added for every line after the first, and for the first line too
    unless the start offset is zero.  (3) The header parser, on a header
    line, delivers nothing and sets the offset of the event to the offset
    of the line if no header line was recorded for the event, and leaves
    it otherwise.  (4) The events delivered in the dispatch of a line, or
    by the flush, have the offset of the event in progress before it.
    (5) At every point of a session, while header lines are recorded, the
    offset of the event in progress is the offset computed for the last
    line that began an event.  (6) For a file short of 2^64 bytes with
    the start offset, the offsets of the events a session delivers are in
    non-decreasing order, and each is the offset computed for a line of
    the session that began an event. *)
Theorem line_and_event_offsets :
  (forall n p,
      bytesRead p + n + 1 < two64 ->
      bytesRead (countLine n p) = bytesRead p + n
      /\ lineOffset (countLine n p)
         = if bytesRead p =? 0 then 0 else bytesRead p + 1)
  /\ (forall file o stops pre line rest q,
      StartOffset o + len (contents file) + 1 < two64 ->
      input file (NewSlowLogParser o stops) = pre ++ line :: rest ->
      scannerLoop pre (NewSlowLogParser o stops) = Ok (q, true) ->
      bytesRead q = StartOffset o + bytesOf pre
      /\ lineOffset (countLine (len line) q)
         = (if StartOffset o + bytesOf pre =? 0 then 0
            else StartOffset o + bytesOf pre + 1)
      /\ (pre <> [] -> StartOffset o + bytesOf pre <> 0))
  /\ (forall line p,
      MatchString headerRe line = true ->
      after (fun p' => eventChan p' = eventChan p
                       /\ Offset (event p')
                          = if headerLines p =? 0 then lineOffset p
                            else Offset (event p))
            (parseHeader line p))
  /\ (forall line p,
      after (tracksWith (beginsEvent line p) p) (dispatch line p)
      /\ after (tracksWith False p) (flush p))
  /\ (forall o stops pre q,
      scannerLoop pre (NewSlowLogParser o stops) = Ok (q, true) ->
      headerLines q <> 0 ->
      exists pre1 line mid q1,
        pre = pre1 ++ line :: mid
        /\ scannerLoop pre1 (NewSlowLogParser o stops) = Ok (q1, true)
        /\ isMeta line = false
        /\ beginsEvent (slice line 0 (String.length line - 1)) q1
        /\ Offset (event q) = lineOffset (countLine (len line) q1)
        /\ noneBegins (NewSlowLogParser o stops) (pre1 ++ [line]) mid)
  /\ (forall file o stops,
      StartOffset o + len (contents file) + 1 < two64 ->
      StronglySorted leOffset (events (Start file (NewSlowLogParser o stops)))
      /\ forall e,
          e ∈ events (Start file (NewSlowLogParser o stops)) ->
          exists pre line rest q,
            input file (NewSlowLogParser o stops) = pre ++ line :: rest
            /\ scannerLoop pre (NewSlowLogParser o stops) = Ok (q, true)
            /\ isMeta line = false
            /\ beginsEvent (slice line 0 (String.length line - 1)) q
            /\ Offset e = lineOffset (countLine (len line) q)).
Proof.
  repeat apply conj.
  - intros n p B. apply (countLine_spec n p B).
  - intros file o stops pre line rest q B E L.
    pose proof (input_bytes file (NewSlowLogParser o stops)) as IB.
    rewrite E, bytesOf_app in IB. simpl in IB.
    assert (BR : bytesRead q = StartOffset o + bytesOf pre).
    { rewrite (scannerLoop_bytesRead _ _ _ L); simpl; [done|lia]. }
    split; [done|].
    destruct (countLine_spec (len line) q) as [_ E2]; [lia|].
    rewrite E2. unfold adjusted. rewrite BR. split; [done|].
    intros NE.
    pose proof (readLines_nonempty
      (slice (contents file) (N.to_nat (StartOffset (opt (NewSlowLogParser o stops))))
             (String.length (contents file)))) as F.
    fold (input file (NewSlowLogParser o stops)) in F. rewrite E in F.
    apply Forall_app in F as [F _].
    destruct pre as [|l pre]; [done|]. inversion_clear F. simpl. lia.
  - intros line p M. rewrite parseHeader_on_header by done.
    eapply post_mono;
      [apply parseHeaderLine_offset; by apply header_not_admin| |];
      simpl; intros; tauto.
  - intros line p. split; [apply dispatch_tracks|].
    unfold flush. destruct (_ && _); [|by apply tracksWith_same].
    eapply post_mono; [apply sendEvent_tracks| |]; simpl; intros; tauto.
  - intros o stops pre q R H.
    by apply (scannerLoop_anchored (NewSlowLogParser o stops) pre eq_refl q R).
  - intros file o stops B.
    pose proof (Start_OffInv file o stops B) as O.
    unfold events.
    destruct (Start file (NewSlowLogParser o stops)) as [[r err]|k r];
      simpl in O; destruct O as (_ & _ & F & S); (split; [done|]);
      intros e He; rewrite Forall_forall in F; by destruct (F e He).
Qed.

(** ** C3: admin commands *)

(** C3.  For a line from which the admin pattern extracts [cmd], the
    admin handler sets admin and sets the query to [cmd] without one
    trailing semicolon, [q].  If [q] is in the filter set, it delivers
    nothing and puts the parser in the state that is neither header nor
    query.  If it is not, it runs the finalizer at once, with neither
    state as the next one: when the event has a "Query_time" and the
    consumer takes it, exactly one event is delivered, with admin set and
    with query [q] less one more trailing semicolon; when the event has no
    "Query_time" (and a header line was recorded), nothing is delivered
    and the event is dropped. *)
Theorem admin_command :
  forall line p cmd,
    FindStringSubmatch adminRe line !! 1%nat = Some cmd ->
    let q := TrimSuffix cmd ";" in
    let p1 := set_event (set_Query q (set_Admin true (event p))) p in
    (filtered p q = true ->
     parseAdmin line p = Ok (set_inQuery false (set_inHeader false p1))
     /\ eventChan (set_inQuery false (set_inHeader false p1)) = eventChan p)
    /\ (filtered p q = false -> parseAdmin line p = sendEvent false false p1)
    /\ (filtered p q = false ->
        is_Some (TimeMetrics (event p) !! "Query_time") ->
        stopSignal p = false ->
        exists p' e,
          parseAdmin line p = Ok p'
          /\ eventChan p' = eventChan p ++ [e]
          /\ Admin e = true /\ Query e = TrimSuffix q ";"
          /\ inHeader p' = false /\ inQuery p' = false
          /\ event p' = NewEvent /\ headerLines p' = 0 /\ queryLines p' = 0)
    /\ (filtered p q = false ->
        TimeMetrics (event p) !! "Query_time" = None ->
        headerLines p <> 0 ->
        exists p',
          parseAdmin line p = Ok p'
          /\ eventChan p' = eventChan p
          /\ inHeader p' = false /\ inQuery p' = false
          /\ event p' = NewEvent /\ headerLines p' = 0 /\ queryLines p' = 0).
Proof.
  intros line p cmd M q p1.
  assert (E : forall b, filtered p q = b ->
              parseAdmin line p
              = if negb b then sendEvent false false p1
                else Ok (set_inQuery false (set_inHeader false p1))).
  { intros b F. unfold parseAdmin, index. rewrite M. simpl.
    fold q.
    replace (filtered _ (TrimSuffix cmd ";")) with b by (rewrite <- F; done).
    destruct b; done. }
  repeat apply conj.
  - intros F. by rewrite (E _ F).
  - intros F. by rewrite (E _ F).
  - intros F [v Hv] S. rewrite (E _ F). simpl negb. cbv iota.
    unfold sendEvent. replace (TimeMetrics (event p1)) with (TimeMetrics (event p)) by done.
    rewrite Hv. replace (stopSignal _) with false by (rewrite <- S; done).
    do 2 eexists. split; [reflexivity|]. simpl. by repeat split.
  - intros F N H. rewrite (E _ F). simpl negb. cbv iota.
    unfold sendEvent. replace (TimeMetrics (event p1)) with (TimeMetrics (event p)) by done.
    rewrite N. replace (headerLines p1) with (headerLines p) by done.
    destruct (N.eqb_spec (headerLines p) 0); [done|].
    eexists. split; [reflexivity|]. simpl. by repeat split.
Qed.

(** ** C4: the classification of metrics *)

Lemma parseUintFrom_error s n :
  ((parseUintFrom s n).2 = Some ErrSyntax -> (parseUintFrom s n).1 = 0)
  /\ ((parseUintFrom s n).2 = Some ErrRange -> (parseUintFrom s n).1 = maxUint64).
Proof.
  revert n. induction s as [|c s IH]; intros n; simpl; [done|].
  destruct (in_range "0" "9" c); [|done].
  destruct (_ <=? n); [done|].
  destruct (_ <? _); [done|]. apply IH.
Qed.

Lemma ParseUint_error s :
  ((ParseUint s).2 = Some ErrSyntax -> (ParseUint s).1 = 0)
  /\ ((ParseUint s).2 = Some ErrRange -> (ParseUint s).1 = maxUint64).
Proof. destruct s; [done|]. apply parseUintFrom_error. Qed.

Lemma parseMetric_total smv e : length smv = 3%nat -> is_Some (parseMetric smv e).
Proof.
  destruct smv as [|w [|name [|value [|]]]]; try done. intros _.
  unfold parseMetric. simpl.
  repeat match goal with |- context [if ?b then _ else _] => destruct b end; eauto.
Qed.

Lemma parseMetrics_total m e :
  Forall (fun smv => length smv = 3%nat) m -> is_Some (parseMetrics m e).
Proof.
  intros F. revert e. induction F as [|smv m L F IH]; intros e; simpl; [eauto|].
  destruct (parseMetric_total smv e L) as [e' ->]. simpl. apply IH.
Qed.

Lemma ParseFloat_error s :
  ((ParseFloat s).2 = Some ErrSyntax -> (ParseFloat s).1 = f32zero)
  /\ ((ParseFloat s).2 = Some ErrRange -> exists neg, (ParseFloat s).1 = f32inf neg).
Proof.
  unfold ParseFloat.
  destruct (special s) as [[v n]|].
  - destruct (n =? String.length s)%nat; simpl; split; try done.
  - destruct (readFloat s) as [[neg n]|]; [|simpl; split; done].
    destruct (n =? String.length s)%nat; [|simpl; split; done].
    destruct (round32 s); simpl; split; try done. eauto.
Qed.

Lemma not_digit_zero c : isDigit c = false -> Ascii.eqb c "0" = false.
Proof.
  intros H. destruct (Ascii.eqb_spec c "0") as [->|]; [|done]. discriminate H.
Qed.

Lemma mantissa_no_digit s :
  forall sawdot underscores i,
    every (fun c => negb (isDigit c)) s = true ->
    (mantissa false sawdot false underscores s i).1.2 = false.
Proof.
  induction s as [|c s IH]; intros sawdot underscores i E; [done|].
  simpl in E. apply andb_true_iff in E as [Dc E]. apply negb_true_iff in Dc.
  simpl. rewrite Dc.
  destruct (Ascii.eqb c "_"); [by apply IH|].
  destruct (Ascii.eqb c "."); [|done].
  destruct sawdot; [done|by apply IH].
Qed.

Lemma readNumber_no_digit s neg t i :
  every (fun c => negb (isDigit c)) t = true -> readNumber s neg t i = None.
Proof.
  intros Et. unfold readNumber.
  assert (H : hexPrefix t i = (false, t, i)).
  { unfold hexPrefix. destruct t as [|c0 [|c1 [|c2 t']]]; try done.
    simpl in Et. apply andb_true_iff in Et as [D0 _]. apply negb_true_iff in D0.
    by rewrite (not_digit_zero c0 D0). }
  rewrite H.
  pose proof (mantissa_no_digit t false false i Et) as M.
  destruct (mantissa false false false false t i) as [[[t1 i1] sd] u].
  simpl in M. by rewrite M.
Qed.

Lemma readFloat_no_digit s :
  every (fun c => negb (isDigit c)) s = true -> readFloat s = None.
Proof.
  intros E. unfold readFloat. destruct s as [|c s]; [done|].
  pose proof E as E'. simpl in E'. apply andb_true_iff in E' as [_ E'].
  destruct (Ascii.eqb c "+"); [by apply readNumber_no_digit|].
  destruct (Ascii.eqb c "-"); by apply readNumber_no_digit.
Qed.

Lemma ParseUint_no_digit s :
  every (fun c => negb (isDigit c)) s = true -> ParseUint s = (0, Some ErrSyntax).
Proof.
  destruct s as [|c s]; [done|]. simpl. intros E.
  apply andb_true_iff in E as [Dc _]. apply negb_true_iff in Dc.
  unfold isDigit in Dc. by rewrite Dc.
Qed.

(** C4.  On a header line without the "# Time" and "# User" prefixes the
    header parser runs its loop over the matches of the metrics pattern,
    pair after pair in their order, and returns; where the line is made
    of pairs (white space, a name, ": " and a value), the matches are
    these pairs.  The matches are three-entry lists, so the loop does not
    panic.  A pair is classified by these rules in order: a name that
    ends in "_time" or "_wait" stores the float the parser returns in the
    time metrics; else a value "Yes" or "No" stores true or false in the
    bool metrics; else the name "Schema" sets the db,
    "Log_slow_rate_type" the rate type, "Log_slow_rate_limit" the rate
    limit, to the low byte of the unsigned integer parsed; else the
    unsigned integer parsed is stored in the number metrics.  The error
    of a parse is dropped and the value it returns is kept: zero for a
    token that is not a number (as every token without a decimal digit,
    infinities and NaN apart), and for a number out of range the largest
    64-bit value of the unsigned parse and an infinity of the float
    parse. *)
Theorem metric_classification :
  (forall line p,
      MatchString headerRe line = true ->
      HasPrefix line "# Time" = false -> HasPrefix line "# User" = false ->
      let p0 := if headerLines p =? 0
                then set_event (set_Offset (lineOffset p) (event p)) p else p in
      let p1 := set_headerLines (add64 (headerLines p0) 1) p0 in
      exists e',
        parseMetrics (FindAllStringSubmatch metricsRe line) (event p1) = Some e'
        /\ parseHeader line p = Ok (set_event e' p1))
  /\ (forall ps,
      Forall wellFormedPair ps ->
      FindAllStringSubmatch metricsRe ("#" +:+ metricsText ps) = map submatchesOf ps)
  /\ (forall e, parseMetrics [] e = Some e)
  /\ (forall smv m e, parseMetrics (smv :: m) e = parseMetric smv e ≫= parseMetrics m)
  /\ (forall line e,
      is_Some (parseMetrics (FindAllStringSubmatch metricsRe line) e))
  /\ (forall w name value e,
      let timed := (exists pre, name = pre +:+ "_time") \/ (exists pre, name = pre +:+ "_wait") in
      let yesno := value = "Yes" \/ value = "No" in
      (timed ->
       parseMetric [w; name; value] e
       = Some (set_TimeMetrics (<[name := (ParseFloat value).1]> (TimeMetrics e)) e))
      /\ (~ timed -> value = "Yes" ->
          parseMetric [w; name; value] e
          = Some (set_BoolMetrics (<[name := true]> (BoolMetrics e)) e))
      /\ (~ timed -> value = "No" ->
          parseMetric [w; name; value] e
          = Some (set_BoolMetrics (<[name := false]> (BoolMetrics e)) e))
      /\ (~ timed -> ~ yesno -> name = "Schema" ->
          parseMetric [w; name; value] e = Some (set_Db value e))
      /\ (~ timed -> ~ yesno -> name = "Log_slow_rate_type" ->
          parseMetric [w; name; value] e = Some (set_RateType value e))
      /\ (~ timed -> ~ yesno -> name = "Log_slow_rate_limit" ->
          parseMetric [w; name; value] e
          = Some (set_RateLimit ((ParseUint value).1 mod 256) e))
      /\ (~ timed -> ~ yesno -> name <> "Schema" ->
          name <> "Log_slow_rate_type" -> name <> "Log_slow_rate_limit" ->
          parseMetric [w; name; value] e
          = Some (set_NumberMetrics (<[name := (ParseUint value).1]> (NumberMetrics e)) e)))
  /\ (forall value,
      ((ParseUint value).2 = Some ErrSyntax -> (ParseUint value).1 = 0)
      /\ ((ParseUint value).2 = Some ErrRange -> (ParseUint value).1 = 2 ^ 64 - 1)
      /\ ((ParseFloat value).2 = Some ErrSyntax -> (ParseFloat value).1 = f32zero)
      /\ ((ParseFloat value).2 = Some ErrRange ->
          exists neg, (ParseFloat value).1 = f32inf neg))
  /\ (forall value,
      every (fun c => negb (isDigit c)) value = true ->
      ParseUint value = (0, Some ErrSyntax)
      /\ (special value = None -> ParseFloat value = (f32zero, Some ErrSyntax))).
Proof.
  repeat apply conj.
  - intros line p H T U p0 p1.
    destruct (parseMetrics_total (FindAllStringSubmatch metricsRe line) (event p1))
      as [e' E]; [apply (findAll_length _ metricsRe)|].
    exists e'. split; [exact E|].
    rewrite parseHeader_on_header by done.
    unfold parseHeaderLine. rewrite T, U, (header_not_admin line H).
    fold p0. fold p1. by rewrite E.
  - apply FindAllStringSubmatch_pairs.
  - done.
  - done.
  - intros line e. apply parseMetrics_total.
    apply (findAll_length _ metricsRe).
  - intros w name value e timed yesno.
    assert (T : timed <-> HasSuffix name "_time" || HasSuffix name "_wait" = true).
    { unfold timed. rewrite orb_true_iff, !HasSuffix_spec. done. }
    assert (Y : yesno <-> String.eqb value "Yes" || String.eqb value "No" = true).
    { unfold yesno. rewrite orb_true_iff, !String.eqb_eq. done. }
    unfold parseMetric. simpl.
    destruct (HasSuffix name "_time" || HasSuffix name "_wait") eqn:ET.
    { repeat split; try done; intros NT; exfalso; apply NT, T; done. }
    assert (NT : ~ timed) by (rewrite T; done).
    split; [done|].
    destruct (String.eqb value "Yes" || String.eqb value "No") eqn:EY.
    { assert (HY : yesno) by (by apply Y).
      repeat split; try tauto.
      - intros _ ->. done.
      - intros _ ->. done. }
    assert (NY : ~ yesno) by (rewrite Y; done).
    split; [intros _ ->; exfalso; apply NY; by left|].
    split; [intros _ ->; exfalso; apply NY; by right|].
    destruct (String.eqb_spec name "Schema") as [->|N1].
    { repeat split; try done. }
    destruct (String.eqb_spec name "Log_slow_rate_type") as [->|N2].
    { repeat split; try done. }
    destruct (String.eqb_spec name "Log_slow_rate_limit") as [->|N3].
    { repeat split; try done. }
    repeat split; try done.
  - intros value. repeat split.
    + apply ParseUint_error.
    + apply ParseUint_error.
    + apply ParseFloat_error.
    + apply ParseFloat_error.
  - intros value E. split; [by apply ParseUint_no_digit|].
    intros S. unfold ParseFloat. by rewrite S, readFloat_no_digit.
Qed.

(** ** C5: the finalizer's panic *)

(** C5.  On an event without "Query_time" the finalizer panics exactly
    when no header line was recorded, and with a header line recorded it
    discards the event: it returns normally with nothing delivered.  No
    parsing session from a new parser ends in the finalizer's panic:
    whenever the finalizer runs, a header line has been recorded (the
    file has fewer than 2^64 bytes, so the 64-bit count of header lines
    cannot wrap around to zero). *)
Theorem finalizer_panic :
  (forall inH inQ p,
      TimeMetrics (event p) !! "Query_time" = None ->
      ((exists k q, sendEvent inH inQ p = Panic k q) <-> headerLines p = 0)
      /\ (headerLines p = 0 ->
          sendEvent inH inQ p
          = Panic (NoQueryTime (lineOffset p)) (resetEvent inH inQ p))
      /\ (headerLines p <> 0 ->
          sendEvent inH inQ p = Ok (resetEvent inH inQ p)
          /\ eventChan (resetEvent inH inQ p) = eventChan p))
  /\ (forall file o stops,
      len (contents file) < two64 ->
      forall off q, Start file (NewSlowLogParser o stops) <> Panic (NoQueryTime off) q).
Proof.
  split.
  - intros inH inQ p HQ. unfold sendEvent. rewrite HQ.
    destruct (N.eqb_spec (headerLines p) 0) as [E|E]; repeat split; try done.
    + eauto.
    + by intros (k & q & ?).
  - intros file o stops B off q HP.
    assert (P : post (fun _ => True) notFinalizer (Start file (NewSlowLogParser o stops))).
    { unfold Start. destruct (_ && _); [done|].
      eapply post_bind.
      - apply (scannerLoop_Inv _ 0).
        + split; [simpl; lia|]. split; [|done]. by intros [?|[?|?]].
        + pose proof (input_length file (NewSlowLogParser o stops)). lia.
      - intros [r fl] I. simpl in *. destruct (fl && faulty file); [done|].
        eapply post_bind; [by eapply flush_Inv|]. done. }
    rewrite HP in P. simpl in P. discriminate P.
Qed.

(** ** C6: the schema-switch directive *)

(** C6.  On a body line "use " followed by [rest]: with no query line
    held, the query parser sets the event's db to [rest] without its
    trailing semicolons, all of them, and changes nothing else, so the
    line is not appended to the query; with a query line held, it treats
    the line as it treats every line that is neither an admin line nor a
    header line: it skips it if it matches the pattern of the session
    variables, and otherwise appends it to the query after a newline and
    counts it.  In the header state or the query state the dispatch of
    the line does the same. *)
Theorem use_line_sets_db :
  forall rest p,
    (queryLines p = 0 ->
     parseQuery ("use " +:+ rest) p
     = Ok (set_event (set_Db (TrimRight rest ";") (event p)) p))
    /\ (exists tail, rest = TrimRight rest ";" +:+ tail
                     /\ Forall (fun b => b = ";"%char) (list_ascii_of_string tail))
    /\ (forall pre, TrimRight rest ";" <> pre +:+ ";")
    /\ (forall line,
        queryLines p <> 0 ->
        line = "use " +:+ rest
        \/ (HasPrefix line "# admin" = false /\ MatchString headerRe line = false) ->
        parseQuery line p
        = if MatchString setRe line then Ok p
          else Ok (set_queryLines (add64 (queryLines p) 1)
                     (set_event (set_Query (Query (event p) +:+ newline +:+ line)
                                           (event p)) p)))
    /\ (inHeader p = true \/ inQuery p = true ->
        queryLines p = 0 ->
        exists p',
          dispatch ("use " +:+ rest) p = Ok p'
          /\ event p' = set_Db (TrimRight rest ";") (event p)
          /\ queryLines p' = 0 /\ eventChan p' = eventChan p
          /\ inHeader p' = false /\ inQuery p' = true).
Proof.
  intros rest p.
  assert (NH : MatchString headerRe ("use " +:+ rest) = false)
    by (by apply (headerRe_first "u"%char ("se " +:+ rest))).
  repeat apply conj.
  - intros Q. unfold parseQuery.
    replace (HasPrefix ("use " +:+ rest) "# admin") with false by done.
    rewrite NH, Q. replace (HasPrefix ("use " +:+ rest) "use ") with true by done.
    simpl andb. cbv iota. cbv zeta.
    by rewrite (TrimPrefix_app "use " rest).
  - apply TrimRight_tail.
  - apply TrimRight_trimmed.
  - intros line Q H.
    assert (A : HasPrefix line "# admin" = false /\ MatchString headerRe line = false).
    { by destruct H as [->|H]. }
    destruct A as [A1 A2]. unfold parseQuery. rewrite A1, A2.
    destruct (N.eqb_spec (queryLines p) 0) as [E|_]; [done|]. simpl andb.
    destruct (MatchString setRe line); [done|].
    destruct (N.ltb_spec 0 (queryLines p)); [done|lia].
  - intros S Q.
    assert (U : forall q, queryLines q = 0 ->
                parseQuery ("use " +:+ rest) q
                = Ok (set_event (set_Db (TrimRight rest ";") (event q)) q)).
    { intros q Hq. unfold parseQuery.
      replace (HasPrefix ("use " +:+ rest) "# admin") with false by done.
      rewrite NH, Hq. replace (HasPrefix ("use " +:+ rest) "use ") with true by done.
      simpl andb. cbv iota. cbv zeta.
      by rewrite (TrimPrefix_app "use " rest). }
    unfold dispatch, parseHeader. rewrite NH. simpl negb. cbv iota.
    destruct (inHeader p) eqn:IH.
    + rewrite U by done. eexists. split; [reflexivity|]. by repeat split.
    + destruct S as [S|S]; [done|]. rewrite S, U by done.
      eexists. split; [reflexivity|]. simpl. by repeat split.
Qed.

(** ** C7 and C8: the end of the loop *)

(** How the loop ended: on a failed read the parser is not stopped, and
    otherwise it is. *)
Lemma scannerLoop_exit lines p q fl :
  scannerLoop lines p = Ok (q, fl) -> stopped q = negb fl.
Proof.
  revert p. induction lines as [|line rest IH]; intros p; simpl;
    destruct (stopped p) eqn:ES; try (intros [= <- <-]; by rewrite ES);
    destruct (stopSignal p); try (by intros [= <- <-]).
  destruct (scanLine line _) as [p'|]; simpl; [apply IH|done].
Qed.

(** A loop that ended by cancellation never looked at the lines after
    the one it was at. *)
Lemma scannerLoop_cancelled l1 l2 p q :
  scannerLoop l1 p = Ok (q, false) -> scannerLoop (l1 ++ l2) p = Ok (q, false).
Proof.
  revert p. induction l1 as [|line rest IH]; intros p; simpl.
  - destruct l2; simpl; destruct (stopped p); try done;
      destruct (stopSignal p); done.
  - destruct (stopped p); [done|]. destruct (stopSignal p); [done|].
    destruct (scanLine line _) as [p'|]; simpl; [apply IH|done].
Qed.

Lemma sendEvent_result inH inQ p p' :
  sendEvent inH inQ p = Ok p' ->
  headerLines p' = 0 /\ queryLines p' = 0 /\ event p' = NewEvent
  /\ inHeader p' = inH /\ inQuery p' = inQ
  /\ (eventChan p' = eventChan p
      \/ eventChan p' =
         eventChan p ++ [set_Query (TrimSuffix (Query (event p)) ";")
                           (set_Db (TrimSuffix (Db (event p)) (";" +:+ newline))
                                   (event p))]).
Proof.
  unfold sendEvent.
  destruct (TimeMetrics (event p) !! "Query_time").
  - destruct (stopSignal _); intros [= <-]; simpl; repeat split; auto.
  - destruct (headerLines p =? 0); [done|]. intros [= <-]; simpl; repeat split; auto.
Qed.

(** C7.  When the loop has ended on the end of the input (the read
    failed, the file is not faulty, and the parser was then not stopped)
    with at least one query line held, [Start] runs the finalizer once on
    the event in progress, which leaves a new event and no lines held and
    has delivered at most that one event; with no query line held [Start]
    returns the parser as the loop left it. *)
Theorem end_of_input_flush :
  forall file p q,
    StartOffset (opt p) < 2 ^ 63 ->
    faulty file = false ->
    scannerLoop (input file p) p = Ok (q, true) ->
    stopped q = false
    /\ (queryLines q <> 0 ->
        Start file p = (p' <- sendEvent false false q ;; Ok (p', None))
        /\ forall p', sendEvent false false q = Ok p' ->
             headerLines p' = 0 /\ queryLines p' = 0 /\ event p' = NewEvent
             /\ inHeader p' = false /\ inQuery p' = false
             /\ (eventChan p' = eventChan q
                 \/ eventChan p' =
                    eventChan q ++ [set_Query (TrimSuffix (Query (event q)) ";")
                                      (set_Db (TrimSuffix (Db (event q)) (";" +:+ newline))
                                              (event q))]))
    /\ (queryLines q = 0 -> Start file p = Ok (q, None)).
Proof.
  intros file p q B F L.
  pose proof (scannerLoop_exit _ _ _ _ L) as ES. simpl in ES.
  split; [done|].
  assert (S0 : (0 <? StartOffset (opt p)) && (2 ^ 63 <=? StartOffset (opt p)) = false).
  { apply andb_false_iff. right. apply N.leb_gt. exact B. }
  unfold Start. rewrite S0, L. simpl. rewrite F. simpl.
  unfold flush. rewrite ES. simpl.
  split.
  - intros Q. destruct (N.ltb_spec 0 (queryLines q)); [|lia].
    split; [done|]. apply sendEvent_result.
  - intros ->. done.
Qed.

Lemma sendEvent_quietStop inH inQ p : after (quietStop p) (sendEvent inH inQ p).
Proof.
  unfold sendEvent.
  destruct (TimeMetrics (event p) !! "Query_time").
  - destruct (stopSignal _); simpl; [by right|by left].
  - destruct (headerLines p =? 0); simpl; by left.
Qed.

Lemma parseAdmin_quietStop line p : after (quietStop p) (parseAdmin line p).
Proof.
  unfold parseAdmin. apply after_index; [by left|]. intros q _.
  match goal with |- context [negb ?b] => destruct b end; simpl; [by left|].
  eapply post_mono; [apply sendEvent_quietStop| |]; simpl; intros; assumption.
Qed.

(** The header parser on a line that is not an admin line delivers
    nothing and does not stop. *)
Lemma parseHeaderLine_sameChan line p :
  HasPrefix line "# admin" = false ->
  after (sameChan p) (parseHeaderLine line p).
Proof.
  intros NA. unfold parseHeaderLine.
  set (p1 := set_headerLines _ _).
  assert (G : sameChan p p1) by (unfold p1; by destruct (headerLines p =? 0)).
  clearbody p1. destruct G as [G1 G2].
  destruct (HasPrefix line "# Time").
  { apply after_index; [done|]. intros ts _.
    destruct (MatchString userRe line); [|done].
    apply after_index; [done|]. intros u _.
    apply after_index; [done|]. intros h _. done. }
  destruct (HasPrefix line "# User").
  { apply after_index; [done|]. intros u _.
    apply after_index; [done|]. intros h _. done. }
  rewrite NA.
  destruct (parseMetrics _ _); simpl; done.
Qed.

Lemma parseHeaderLine_quietStop line p : after (quietStop p) (parseHeaderLine line p).
Proof.
  destruct (HasPrefix line "# admin") eqn:NA.
  - unfold parseHeaderLine.
    set (p1 := set_headerLines _ _).
    assert (G : sameChan p p1) by (unfold p1; by destruct (headerLines p =? 0)).
    clearbody p1. destruct G as [G1 G2].
    destruct (HasPrefix line "# Time").
    { apply after_index; [by left|]. intros ts _.
      destruct (MatchString userRe line); [|by left].
      apply after_index; [by left|]. intros u _.
      apply after_index; [by left|]. intros h _. by left. }
    destruct (HasPrefix line "# User").
    { apply after_index; [by left|]. intros u _.
      apply after_index; [by left|]. intros h _. by left. }
    rewrite NA.
    eapply post_mono; [apply parseAdmin_quietStop| |]; simpl;
      intros; unfold quietStop in *; rewrite <- ?G1, <- ?G2; assumption.
  - eapply post_mono; [by apply parseHeaderLine_sameChan| |]; simpl;
      intros; unfold sameChan in *; left; tauto.
Qed.

Lemma parseQuery_quietStop line p : after (quietStop p) (parseQuery line p).
Proof.
  unfold parseQuery.
  destruct (HasPrefix line "# admin") eqn:NA; [apply parseAdmin_quietStop|].
  destruct (MatchString headerRe line).
  { eapply after_bind.
    - apply sendEvent_quietStop.
    - intros a Ha. simpl in Ha.
      eapply post_mono; [by apply parseHeaderLine_sameChan| |]; simpl;
        intros; unfold quietStop, sameChan in *;
        match goal with H : _ /\ _ |- _ => destruct H as [H1 H2] end;
        rewrite H1, H2; exact Ha.
    - intros a Ha. exact Ha. }
  destruct (_ && _); [by left|].
  destruct (MatchString setRe line); [by left|].
  simpl. left. by destruct (0 <? queryLines p).
Qed.

Lemma dispatch_quietStop line p : after (quietStop p) (dispatch line p).
Proof.
  unfold dispatch, parseHeader.
  destruct (inHeader p).
  { destruct (negb _); [|apply parseHeaderLine_quietStop].
    eapply post_mono; [apply parseQuery_quietStop| |]; simpl; intros; assumption. }
  destruct (inQuery p); [apply parseQuery_quietStop|].
  destruct (MatchString headerRe line); simpl; [|by left].
  eapply post_mono; [apply parseHeaderLine_quietStop| |]; simpl; intros; assumption.
Qed.

Lemma scanLine_quietStop line p : after (quietStop p) (scanLine line p).
Proof.
  unfold scanLine.
  assert (C : sameChan p (countLine (len line) p))
    by (unfold countLine; by destruct (negb _)).
  destruct C as [C1 C2].
  destruct (isMeta line); simpl; [by left|].
  eapply post_mono; [apply dispatch_quietStop| |]; simpl;
    unfold quietStop; rewrite C1, C2; auto.
Qed.

(** C8.  Cancellation, in the model where each [select] takes its answer
    from [stopChan]: (1) the check before a read, on a stop signal, ends
    the loop with no line read and nothing delivered; (2) the finalizer,
    on a stop signal at the hand-off, stops the parser and does not
    deliver the event; (3) the iteration in which the parser becomes
    stopped delivers nothing; (4) a stopped parser reads no line, and the
    flush after the loop does nothing for it, whatever query lines it
    holds; (5) a loop that ended by cancellation is stopped, and its
    result does not depend on the lines after; (6) [Start] then returns
    the parser as the loop left it. *)
Theorem cancellation_stops_the_parser :
  (forall lines p,
      stopped p = false -> stopSignal p = true ->
      scannerLoop lines p = Ok (set_stopped true (nextSelect p), false))
  /\ (forall inH inQ p,
      is_Some (TimeMetrics (event p) !! "Query_time") ->
      stopSignal p = true ->
      exists p', sendEvent inH inQ p = Ok p'
                 /\ stopped p' = true /\ eventChan p' = eventChan p)
  /\ (forall line p,
      stopped p = false ->
      after (fun p' => stopped p' = true -> eventChan p' = eventChan p)
            (scanLine line p))
  /\ (forall lines p,
      stopped p = true ->
      scannerLoop lines p = Ok (p, false) /\ flush p = Ok p)
  /\ (forall l1 l2 p q,
      scannerLoop l1 p = Ok (q, false) ->
      stopped q = true /\ scannerLoop (l1 ++ l2) p = Ok (q, false))
  /\ (forall file p q,
      StartOffset (opt p) < 2 ^ 63 ->
      scannerLoop (input file p) p = Ok (q, false) ->
      Start file p = Ok (q, None)).
Proof.
  repeat apply conj.
  - intros lines p S1 S2. destruct lines; simpl; by rewrite S1, S2.
  - intros inH inQ p [v Hv] S. unfold sendEvent. rewrite Hv.
    replace (stopSignal _) with true.
    eexists. split; [reflexivity|]. by split.
  - intros line p S.
    eapply post_mono; [apply scanLine_quietStop| |]; simpl;
      intros; unfold quietStop in *;
      match goal with H : _ \/ _ |- _ => destruct H as [H|[_ H]] end;
      [congruence|done|congruence|done].
  - intros lines p S. unfold flush. rewrite S.
    destruct lines; simpl; by rewrite S.
  - intros l1 l2 p q L. split.
    + apply (scannerLoop_exit _ _ _ _ L).
    + by apply scannerLoop_cancelled.
  - intros file p q B L.
    pose proof (scannerLoop_exit _ _ _ _ L) as ES. simpl in ES.
    unfold Start. rewrite L.
    replace ((0 <? StartOffset (opt p)) && (2 ^ 63 <=? StartOffset (opt p))) with false.
    + simpl. unfold flush. by rewrite ES.
    + symmetry. apply andb_false_iff. right. by apply N.leb_gt.
Qed.

(** ** C9: the cleaning of the event and the query text *)








(** ** C10: malformed time and user lines *)

(** C10.  A line that begins "# Time" and has no match of the time
    pattern, such as the bare "# Time:", or that begins "# User" and has
    no match of the user pattern, is a header line, and the header parser
    panics on it with an index out of range, also when the loop
    dispatches it in the header state. *)
Theorem malformed_header_line_panics :
  forall line p,
    (HasPrefix line "# Time" = true /\ MatchString timeRe line = false)
    \/ (HasPrefix line "# User" = true /\ MatchString userRe line = false) ->
    MatchString headerRe line = true
    /\ (exists q, parseHeader line p = Panic IndexOutOfRange q)
    /\ (inHeader p = true -> exists q, dispatch line p = Panic IndexOutOfRange q).
Proof.
  intros line p H.
  assert (M : MatchString headerRe line = true).
  { destruct H as [[H _]|[H _]]; apply HasPrefix_inv in H as [rest ->]; reflexivity. }
  assert (P : exists q, parseHeader line p = Panic IndexOutOfRange q).
  { rewrite parseHeader_on_header by done. unfold parseHeaderLine.
    destruct H as [[H T]|[H U]].
    - rewrite H, (MatchString_Find _ _ T). simpl. eauto.
    - replace (HasPrefix line "# Time") with false.
      + rewrite H, (MatchString_Find _ _ U). simpl. eauto.
      + apply HasPrefix_inv in H as [rest ->]. reflexivity. }
  split; [done|]. split; [done|].
  intros I. unfold dispatch. by rewrite I.
Qed.

(** ** Further properties of the parser *)

(** *** The lines of an event *)

(** X1.  A line matches the header pattern exactly when it is "#", then one
    or more white-space bytes, then an upper-case letter, then anything. *)
Theorem header_line_shape line :
  MatchString headerRe line = true <->
  exists ws c rest,
    line = "#" +:+ ws +:+ String c rest
    /\ ws <> EmptyString /\ every space ws = true /\ upper c = true.
Proof.
  split; [apply headerRe_inv|].
  intros (ws & c & rest & -> & Hws & Ews & U). apply headerRe_intro; assumption.
Qed.

(** X2.  On the header line "# Time: " [d] [sp] [t] [rest], with [d] and [t]
    non-empty and without white space, [sp] one or two white-space bytes
    and [rest] empty or begun by white space, [parseHeader] returns: the
    time stamp of the event is [d] [sp] [t], one header line is counted,
    no event is delivered, the query text and the time metrics are kept. *)
Theorem time_line_sets_Ts d sp t rest p :
  d <> EmptyString -> every notspace d = true ->
  sp <> EmptyString -> every space sp = true -> (String.length sp <= 2)%nat ->
  t <> EmptyString -> every notspace t = true ->
  (rest = EmptyString \/ exists c r, rest = String c r /\ space c = true) ->
  exists p',
    parseHeader ("# Time: " +:+ d +:+ sp +:+ t +:+ rest) p = Ok p'
    /\ Ts (event p') = d +:+ sp +:+ t
    /\ eventChan p' = eventChan p
    /\ headerLines p' = add64 (headerLines p) 1
    /\ Query (event p') = Query (event p)
    /\ TimeMetrics (event p') = TimeMetrics (event p).
Proof.
  intros Hd Ed Hsp Esp Lsp Ht Et Hrest.
  pose proof (timeRe_submatch d sp t rest Hd Ed Hsp Esp Lsp Ht Et Hrest) as M.
  set (line := "# Time: " +:+ d +:+ sp +:+ t +:+ rest) in *.
  assert (H : MatchString headerRe line = true).
  { apply (headerRe_intro " " "T" ("ime: " +:+ d +:+ sp +:+ t +:+ rest));
      [discriminate|reflexivity|reflexivity]. }
  rewrite parseHeader_on_header by assumption.
  unfold parseHeaderLine.
  assert (HasPrefix line "# Time" = true) as -> by (apply (HasPrefix_app "# Time: "); reflexivity).
  unfold index at 1. rewrite M. cbn [bind].
  destruct (MatchString userRe line) eqn:U.
  - destruct (FindStringSubmatch_lookup userRe line 1 U) as [u Hu]; [simpl; lia|].
    destruct (FindStringSubmatch_lookup userRe line 2 U) as [h Hh]; [simpl; lia|].
    unfold index. rewrite Hu. cbn [bind]. rewrite Hh. cbn [bind].
    eexists. split; [reflexivity|].
    destruct (headerLines p =? 0); repeat split; reflexivity.
  - eexists. split; [reflexivity|].
    destruct (headerLines p =? 0); repeat split; reflexivity.
Qed.

(** X3.  On the header line "# User@Host: " [u] "[" [u2] "] @ " [h] " [" [ip] "]",
    with [u] non-empty and without "[", [u2] without "@" and newline, [h]
    without white space and [ip] without newline, [parseHeader] returns:
    the user is [u] and the host is [h], one header line is counted, no
    event is delivered, the query text and the time metrics are kept. *)
Theorem user_line_sets_User_and_Host u u2 h ip p :
  u <> EmptyString -> every (notchar "[") u = true ->
  every inUser u2 = true ->
  every notspace h = true -> every dot ip = true ->
  exists p',
    parseHeader ("# User@Host: " +:+ u +:+ "[" +:+ u2 +:+ "] @ " +:+ h +:+ " [" +:+ ip +:+ "]") p
    = Ok p'
    /\ User (event p') = u /\ Host (event p') = h
    /\ eventChan p' = eventChan p
    /\ headerLines p' = add64 (headerLines p) 1
    /\ Query (event p') = Query (event p)
    /\ TimeMetrics (event p') = TimeMetrics (event p).
Proof.
  intros Hu Eu Eu2 Eh Eip.
  destruct (userRe_submatch u u2 h ip Hu Eu Eu2 Eh Eip) as [M1 M2].
  set (line := "# User@Host: " +:+ u +:+ "[" +:+ u2 +:+ "] @ " +:+ h +:+ " [" +:+ ip +:+ "]") in *.
  assert (H : MatchString headerRe line = true).
  { apply (headerRe_intro " " "U"
             ("ser@Host: " +:+ u +:+ "[" +:+ u2 +:+ "] @ " +:+ h +:+ " [" +:+ ip +:+ "]"));
      [discriminate|reflexivity|reflexivity]. }
  rewrite parseHeader_on_header by assumption.
  unfold parseHeaderLine.
  assert (HasPrefix line "# Time" = false) as ->.
  { unfold line. reflexivity. }
  assert (HasPrefix line "# User" = true) as -> by (apply (HasPrefix_app "# User@Host: "); reflexivity).
  unfold index. rewrite M1. cbn [bind]. rewrite M2. cbn [bind].
  eexists. split; [reflexivity|].
  destruct (headerLines p =? 0); repeat split; reflexivity.
Qed.

(** X4.  A line that holds "SET last_insert_id", "SET insert_id" or
    "SET timestamp" anywhere, and that is not an admin line, a header line
    or a "use " line before any query text, is dropped: [parseQuery]
    returns the parser as it was, [parseHeader] only enters the query
    state, and in the query state the dispatch changes nothing. *)
Theorem set_line_is_dropped a v b p :
  let line := a +:+ "SET " +:+ v +:+ b in
  v = "last_insert_id" \/ v = "insert_id" \/ v = "timestamp" ->
  HasPrefix line "# admin" = false ->
  MatchString headerRe line = false ->
  queryLines p <> 0 \/ HasPrefix line "use " = false ->
  parseQuery line p = Ok p
  /\ parseHeader line p = Ok (set_inQuery true (set_inHeader false p))
  /\ (inHeader p = false -> inQuery p = true -> dispatch line p = Ok p).
Proof.
  intros line Hv Ha Hh Hu.
  pose proof (setRe_anywhere a v b Hv) as Hs. fold line in Hs.
  assert (Q : forall q, queryLines q = queryLines p -> parseQuery line q = Ok q).
  { intros q Eq. unfold parseQuery. rewrite Ha, Hh, Hs, Eq.
    destruct Hu as [Hu | Hu]; [|rewrite Hu].
    - apply N.eqb_neq in Hu. rewrite Hu. reflexivity.
    - rewrite andb_false_r. reflexivity. }
  split; [apply Q; reflexivity|]. split.
  - unfold parseHeader. rewrite Hh. simpl negb. cbv iota. apply Q. reflexivity.
  - intros H1 H2. unfold dispatch. rewrite H1, H2. apply Q. reflexivity.
Qed.

(** *** The filter of the banner lines *)
Lemma slice_prefix_eqb pre : forall s,
  String.eqb (slice s 0 (String.length pre)) pre = HasPrefix s pre.
Proof.
  unfold slice. induction pre as [|a pre IH]; intros s.
  - simpl. destruct s; reflexivity.
  - destruct s as [|b s]; [reflexivity|].
    simpl. rewrite Nat.sub_0_r in IH. rewrite IH, Ascii.eqb_sym. 
    destruct (Ascii.eqb a b); reflexivity.
Qed.

Lemma isMeta_spec line :
  isMeta line = true <->
  (20 <= String.length line)%nat
  /\ ((HasPrefix line "/" = true /\ HasSuffix line ("with:" +:+ newline) = true)
      \/ HasPrefix line "Time " = true
      \/ HasPrefix line "Tcp " = true
      \/ HasPrefix line "TCP " = true).
Proof.
  unfold isMeta. cbv zeta.
  pose proof (slice_prefix_eqb "/" line) as E1.
  pose proof (slice_prefix_eqb "Time " line) as E2.
  pose proof (slice_prefix_eqb "Tcp " line) as E3.
  pose proof (slice_prefix_eqb "TCP " line) as E4.
  simpl String.length in E1, E2, E3, E4. rewrite E1, E2, E3, E4.
  rewrite andb_true_iff, !orb_true_iff, andb_true_iff, Nat.leb_le.
  unfold HasSuffix.
  change (String.length ("with:" +:+ newline)) with 6%nat.
  split.
  - intros (L & [[[[A B]|A]|A]|A]); split; auto.
    left. split; auto. rewrite B, andb_true_r. apply Nat.leb_le. lia.
  - intros (L & [[A B]|[A|[A|A]]]); split; auto.
    left. left. left. split; auto. apply andb_true_iff in B as [_ B]. exact B.
Qed.

Lemma slice_head c s n :
  (1 <= n)%nat -> exists t, slice (String c s) 0 n = String c t.
Proof.
  intros Hn. unfold slice. rewrite Nat.sub_0_r. destruct n; [lia|]. simpl. eauto.
Qed.

Lemma isMeta_not_header line :
  isMeta line = true -> MatchString headerRe (slice line 0 (String.length line - 1)) = false.
Proof.
  intros H. apply isMeta_spec in H as (L & H).
  assert (exists c s, line = String c s /\ c <> "#"%char) as (c & s & -> & Hc).
  { destruct H as [[A _]|[A|[A|A]]]; apply HasPrefix_inv in A as (rest & ->);
      rewrite append_cons; eexists _, _; (split; [reflexivity|discriminate]). }
  destruct (slice_head c s (String.length (String c s) - 1)) as [t ->]; [lia|].
  apply headerRe_first, Hc.
Qed.

(** X5.  The filter of the banner lines takes a line, with its newline,
    exactly when it has at least 20 bytes and begins with "/" and ends
    with "with:" and the newline, or begins with "Time ", "Tcp " or
    "TCP ".  Such a line is counted and nothing else: the event, the
    delivered events, the states and the counts of lines are kept.  No
    such line is a header line. *)
Theorem banner_lines_are_skipped :
  (forall line,
      isMeta line = true <->
      (20 <= String.length line)%nat
      /\ ((HasPrefix line "/" = true /\ HasSuffix line ("with:" +:+ newline) = true)
          \/ HasPrefix line "Time " = true
          \/ HasPrefix line "Tcp " = true
          \/ HasPrefix line "TCP " = true))
  /\ (forall line p,
      isMeta line = true ->
      exists p',
        scanLine line p = Ok p'
        /\ bytesRead p' = add64 (bytesRead p) (len line)
        /\ event p' = event p /\ eventChan p' = eventChan p
        /\ inHeader p' = inHeader p /\ inQuery p' = inQuery p
        /\ headerLines p' = headerLines p /\ queryLines p' = queryLines p
        /\ stopped p' = stopped p)
  /\ (forall line,
      isMeta line = true ->
      MatchString headerRe (slice line 0 (String.length line - 1)) = false).
Proof.
  split; [apply isMeta_spec|]. split; [|apply isMeta_not_header].
  intros line p H. exists (countLine (len line) p).
  unfold scanLine. rewrite H. split; [reflexivity|].
  destruct (countLine_fields (len line) p) as (_ & _ & A & B & C & D & E & F & G).
  repeat split; auto.
  unfold countLine. cbv zeta. 
  destruct (negb _); reflexivity.
Qed.

Lemma slice_tail_past s t : forall n,
  (String.length s <= n)%nat ->
  slice (s +:+ t) n (String.length (s +:+ t)) = slice t (n - String.length s) (String.length t).
Proof.
  induction s as [|c s IH]; intros n Hn.
  - rewrite append_nil, Nat.sub_0_r. reflexivity.
  - destruct n as [|n]; [simpl in Hn; lia|].
    rewrite append_cons, slice_tail_cons. simpl in Hn. rewrite IH by lia. reflexivity.
Qed.

Lemma every_slice_tail p t : forall n,
  every p t = true -> every p (slice t n (String.length t)) = true.
Proof.
  induction t as [|c t IH]; intros n H.
  - destruct n; reflexivity.
  - destruct n as [|n].
    + unfold slice. rewrite Nat.sub_0_r, substring_full. exact H.
    + rewrite slice_tail_cons. apply IH. simpl in H. apply andb_true_iff in H as [_ H]. exact H.
Qed.

Lemma readLines_cons c s :
  (readLines (String c s)).1
  = if Ascii.eqb c LF then newline :: (readLines s).1
    else match (readLines s).1 with
         | l :: ls => String c l :: ls
         | [] => []
         end.
Proof.
  simpl. destruct (readLines s) as [ls t]. simpl.
  destruct (Ascii.eqb c LF); [reflexivity|]. destruct ls; reflexivity.
Qed.

Lemma readLines_no_newline t : every dot t = true -> (readLines t).1 = [].
Proof.
  induction t as [|c t IH]; [reflexivity|].
  simpl every. intros H. apply andb_true_iff in H as [Hc H].
  rewrite readLines_cons, (IH H). unfold dot in Hc. apply negb_true_iff in Hc.
  rewrite Hc. reflexivity.
Qed.

Lemma readLines_app_no_newline s t :
  every dot t = true -> (readLines (s +:+ t)).1 = (readLines s).1.
Proof.
  intros H. induction s as [|c s IH].
  - rewrite append_nil. apply readLines_no_newline, H.
  - rewrite append_cons, !readLines_cons, IH. reflexivity.
Qed.

Lemma input_app_no_newline s t flt flt' p :
  every dot t = true ->
  input (mkFile (s +:+ t) flt) p = input (mkFile s flt') p.
Proof.
  intros H. unfold input. simpl contents.
  destruct (le_lt_dec (N.to_nat (StartOffset (opt p))) (String.length s)) as [L|L].
  - rewrite slice_tail_app by assumption. apply readLines_app_no_newline, H.
  - rewrite slice_tail_past by lia.
    rewrite readLines_no_newline by (apply every_slice_tail, H).
    unfold slice. 
    replace (String.length s - N.to_nat (StartOffset (opt p)))%nat with 0%nat by lia.
    rewrite substring_zero. reflexivity.
Qed.

(** X6.  Bytes after the last newline are not parsed: a file followed by text
    without a newline gives the lines and the result of the file alone. *)
Theorem unterminated_last_line_is_dropped s t flt p :
  every dot t = true ->
  input (mkFile (s +:+ t) flt) p = input (mkFile s flt) p
  /\ Start (mkFile (s +:+ t) flt) p = Start (mkFile s flt) p.
Proof.
  intros H. split; [apply input_app_no_newline, H|].
  unfold Start. rewrite (input_app_no_newline s t flt flt p H). reflexivity.
Qed.

(** *** The start offset *)
Lemma input_past_end file p :
  len (contents file) <= StartOffset (opt p) -> input file p = [].
Proof.
  intros H. unfold input, slice, len in *.
  replace (String.length (contents file) - N.to_nat (StartOffset (opt p)))%nat with 0%nat by lia.
  rewrite substring_zero. reflexivity.
Qed.

(** X7.  A start offset of 2^63 or more is a negative [int64]: [Start]
    returns the seek error and leaves the parser as it was.  A smaller
    start offset at or past the end of the file gives no line: no event is
    delivered, the byte count stays the start offset, the event stays new,
    and the error is the read error of a faulty file or none. *)
Theorem start_offset_edge_cases file o stops :
  let p0 := NewSlowLogParser o stops in
  (2 ^ 63 <= StartOffset o -> Start file p0 = Ok (p0, Some SeekError))
  /\ (StartOffset o < 2 ^ 63 -> len (contents file) <= StartOffset o ->
      exists p e,
        Start file p0 = Ok (p, e)
        /\ eventChan p = [] /\ bytesRead p = StartOffset o /\ event p = NewEvent
        /\ (e = None \/ (e = Some ReadError /\ faulty file = true /\ stopSignal p0 = false))).
Proof.
  intros p0. split.
  - intros H. unfold Start. simpl opt.
    assert ((0 <? StartOffset o) = true) as -> by (apply N.ltb_lt; lia).
    assert ((2 ^ 63 <=? StartOffset o) = true) as -> by (apply N.leb_le; assumption).
    reflexivity.
  - intros H L. unfold Start. simpl opt.
    assert ((2 ^ 63 <=? StartOffset o) = false) as -> by (apply N.leb_gt; assumption).
    rewrite andb_false_r, input_past_end by assumption.
    unfold scannerLoop, p0. simpl stopped. cbv iota.
    destruct (stopSignal (NewSlowLogParser o stops)) eqn:St.
    + cbn [bind snd fst]. simpl. eexists _, _. split; [reflexivity|]. repeat split; auto.
    + cbn [bind snd fst]. destruct (faulty file) eqn:Ff.
      * simpl. eexists _, _. split; [reflexivity|]. repeat split; auto.
      * simpl. eexists _, _. split; [reflexivity|]. repeat split; auto.
Qed.

(** *** A log without header lines *)
Lemma scannerLoop_idle lines : forall p,
  inHeader p = false -> inQuery p = false ->
  Forall (fun l => MatchString headerRe (slice l 0 (String.length l - 1)) = false) lines ->
  exists q fl,
    scannerLoop lines p = Ok (q, fl)
    /\ eventChan q = eventChan p /\ event q = event p
    /\ inHeader q = false /\ inQuery q = false
    /\ headerLines q = headerLines p /\ queryLines q = queryLines p.
Proof.
  induction lines as [|l lines IH]; intros p H1 H2 F.
  - simpl. destruct (stopped p); [eexists _, _; split; [reflexivity|]; auto 10|].
    destruct (stopSignal p); eexists _, _; (split; [reflexivity|]); auto 10.
  - simpl. destruct (stopped p); [eexists _, _; split; [reflexivity|]; auto 10|].
    destruct (stopSignal p); [eexists _, _; split; [reflexivity|]; auto 10|].
    inversion F as [|? ? Hl F']; subst.
    assert (S : scanLine l (nextSelect p) = Ok (countLine (len l) (nextSelect p))).
    { unfold scanLine. destruct (isMeta l); [reflexivity|].
      unfold dispatch.
      destruct (countLine_fields (len l) (nextSelect p)) as (_ & _ & _ & A & B & _).
      rewrite A, B. simpl. rewrite H1, H2, Hl. reflexivity. }
    rewrite S. cbn [bind].
    destruct (countLine_fields (len l) (nextSelect p)) as (_ & _ & A & B & C & D & E & _ & G).
    destruct (IH (countLine (len l) (nextSelect p))) as (q & fl & R & R1 & R2 & R3 & R4 & R5 & R6);
      [rewrite B; exact H1|rewrite C; exact H2|exact F'|].
    exists q, fl. split; [exact R|].
    rewrite R1, R2, R5, R6, A, G, D, E. auto 10.
Qed.

(** X8.  When no line read is a header line, [Start] of a new parser returns,
    delivers no event and leaves the parser in neither state with a new
    event: lines before the first header line are ignored. *)
Theorem log_without_header_lines file o stops :
  let p0 := NewSlowLogParser o stops in
  Forall (fun l => MatchString headerRe (slice l 0 (String.length l - 1)) = false)
         (input file p0) ->
  exists p e,
    Start file p0 = Ok (p, e)
    /\ eventChan p = [] /\ event p = NewEvent
    /\ inHeader p = false /\ inQuery p = false.
Proof.
  intros p0 F. unfold Start.
  destruct ((0 <? StartOffset (opt p0)) && (2 ^ 63 <=? StartOffset (opt p0))).
  { eexists _, _. split; [reflexivity|]. auto. }
  destruct (scannerLoop_idle (input file p0) p0 eq_refl eq_refl F)
    as (q & fl & R & R1 & R2 & R3 & R4 & R5 & R6).
  rewrite R. cbn [bind fst snd].
  destruct (fl && faulty file).
  { eexists _, _. split; [reflexivity|]. auto. }
  unfold flush. rewrite R6. simpl queryLines. rewrite andb_false_r. cbn [bind].
  eexists _, _. split; [reflexivity|]. auto.
Qed.

Lemma after_mono (Q Q' : SlowLogParser -> Prop) r :
  after Q r -> (forall a, Q a -> Q' a) -> after Q' r.
Proof. intros H M. destruct r; simpl in *; auto. Qed.

Lemma deliversIf_mono (C C' : Prop) p p' q :
  eventChan q = eventChan p -> (C -> C') -> deliversIf C q p' -> deliversIf C' p p'.
Proof.
  intros E M [H|(e & H & HC)]; [left|right; exists e]; rewrite H, E; auto.
Qed.

Lemma deliversIf_same (C : Prop) p p' q :
  eventChan p' = eventChan q -> deliversIf C p q -> deliversIf C p p'.
Proof.
  intros E [H|(e & H & HC)]; [left|right; exists e]; rewrite E, H; auto.
Qed.

Lemma sendEvent_delivers inH inQ p :
  after (deliversIf (hasQueryTime (event p)) p) (sendEvent inH inQ p).
Proof.
  unfold sendEvent, deliversIf, hasQueryTime.
  destruct (TimeMetrics (event p) !! "Query_time") eqn:E.
  - destruct (stopSignal _); simpl; [by left|]. right. eexists. split; [reflexivity|eauto].
  - destruct (headerLines p =? 0); simpl; by left.
Qed.

Lemma parseAdmin_delivers line p :
  after (deliversIf (hasQueryTime (event p)) p) (parseAdmin line p).
Proof.
  unfold parseAdmin. apply after_index; [by left|]. intros q _.
  match goal with |- context [negb ?b] => destruct b end; simpl; [by left|].
  eapply after_mono; [apply sendEvent_delivers|].
  intros a. apply deliversIf_mono; [reflexivity|auto].
Qed.

Lemma parseQuery_delivers line p :
  after (deliversIf (hasQueryTime (event p)
                     /\ (MatchString headerRe line = true
                         \/ HasPrefix line "# admin" = true)) p)
        (parseQuery line p).
Proof.
  unfold parseQuery.
  destruct (HasPrefix line "# admin") eqn:A.
  { eapply after_mono; [apply parseAdmin_delivers|].
    intros a. apply deliversIf_mono; [reflexivity|auto]. }
  destruct (MatchString headerRe line) eqn:H.
  { assert (D : forall a, deliversIf (hasQueryTime (event p)) (set_inQuery false (set_inHeader true p)) a ->
                deliversIf (hasQueryTime (event p) /\ (true = true \/ false = true)) p a).
    { intros a. apply deliversIf_mono; [reflexivity|auto]. }
    eapply after_bind; [apply sendEvent_delivers| |exact D].
    intros a Ha.
    eapply after_mono; [apply (parseHeaderLine_sameChan line a A)|].
    intros a' [_ E]. eapply deliversIf_same; [exact E|]. apply D, Ha. }
  destruct (_ && _); [by left|].
  destruct (MatchString setRe line); [by left|].
  simpl. left. by destruct (0 <? queryLines p).
Qed.

(** X9.  The dispatch of one line, whether it returns or panics, delivers no
    event or one; when it delivers one, the event in progress had a
    "Query_time" and the line is a header line met in the query state or
    an admin line met in the header or the query state. *)
Theorem events_are_delivered_at_event_ends line p :
  after (deliversIf
           (hasQueryTime (event p)
            /\ ((MatchString headerRe line = true /\ inHeader p = false /\ inQuery p = true)
                \/ (HasPrefix line "# admin" = true
                    /\ (inHeader p = true \/ inQuery p = true)))) p)
        (dispatch line p).
Proof.
  unfold dispatch.
  destruct (inHeader p) eqn:EH.
  { unfold parseHeader. destruct (MatchString headerRe line) eqn:H; simpl.
    - pose proof (header_not_admin line H) as A.
      eapply after_mono; [apply (parseHeaderLine_sameChan line p A)|].
      intros a [_ E]. by left.
    - eapply after_mono; [apply parseQuery_delivers|].
      intros a. apply deliversIf_mono; [reflexivity|].
      rewrite H. intros [Q [?|?]]; [discriminate|auto]. }
  destruct (inQuery p) eqn:EQ.
  { eapply after_mono; [apply parseQuery_delivers|].
    intros a. apply deliversIf_mono; [reflexivity|]. intros [Q [?|?]]; auto. }
  destruct (MatchString headerRe line) eqn:H; [|by left].
  rewrite parseHeader_on_header by assumption.
  pose proof (header_not_admin line H) as A.
  eapply after_mono; [apply (parseHeaderLine_sameChan line _ A)|].
  intros a [_ E]. by left.
Qed.

(** *** The frame of a header line *)
Lemma parseMetric_frame smv e e' : parseMetric smv e = Some e' -> headerFrame e e'.
Proof.
  unfold parseMetric, headerFrame.
  destruct (smv !! 1%nat) as [name|]; [|discriminate].
  destruct (smv !! 2%nat) as [value|]; [|discriminate]. simpl.
  repeat match goal with
         | |- context [if ?b then _ else _] => destruct b
         end;
    intros [= <-]; simpl; repeat split; auto;
    intros k [v Hk]; (destruct (decide (k = name)) as [->|N];
      [rewrite lookup_insert_eq; eauto|rewrite lookup_insert_ne by congruence; eauto]).
Qed.

Lemma headerFrame_refl e : headerFrame e e.
Proof. repeat split; auto. Qed.

Lemma headerFrame_trans e1 e2 e3 : headerFrame e1 e2 -> headerFrame e2 e3 -> headerFrame e1 e3.
Proof.
  intros (A1 & B1 & C1 & D1 & E1) (A2 & B2 & C2 & D2 & E2).
  repeat split; [congruence|congruence|auto..].
Qed.

Lemma parseMetrics_frame m : forall e e', parseMetrics m e = Some e' -> headerFrame e e'.
Proof.
  induction m as [|smv m IH]; intros e e' H; simpl in H.
  - injection H as <-. apply headerFrame_refl.
  - destruct (parseMetric smv e) as [e1|] eqn:E1; [|discriminate]. simpl in H.
    eapply headerFrame_trans; [eapply parseMetric_frame, E1|eapply IH, H].
Qed.

Lemma parseHeaderLine_frame line p :
  HasPrefix line "# admin" = false ->
  after (fun p' => headerFrame (event p) (event p')
                   /\ inHeader p' = inHeader p /\ inQuery p' = inQuery p
                   /\ queryLines p' = queryLines p
                   /\ stopChan p' = stopChan p /\ stopped p' = stopped p
                   /\ opt p' = opt p)
        (parseHeaderLine line p).
Proof.
  intros A. unfold parseHeaderLine. rewrite A.
  set (p1 := set_headerLines _ _).
  assert (F1 : headerFrame (event p) (event p1)
               /\ inHeader p1 = inHeader p /\ inQuery p1 = inQuery p
               /\ queryLines p1 = queryLines p
               /\ stopChan p1 = stopChan p /\ stopped p1 = stopped p
               /\ opt p1 = opt p).
  { unfold p1. destruct (headerLines p =? 0); simpl; repeat split; auto. }
  clearbody p1.
  assert (K : forall q, headerFrame (event p1) (event q)
               /\ inHeader q = inHeader p1 /\ inQuery q = inQuery p1
               /\ queryLines q = queryLines p1
               /\ stopChan q = stopChan p1 /\ stopped q = stopped p1
               /\ opt q = opt p1 ->
               headerFrame (event p) (event q)
               /\ inHeader q = inHeader p /\ inQuery q = inQuery p
               /\ queryLines q = queryLines p
               /\ stopChan q = stopChan p /\ stopped q = stopped p
               /\ opt q = opt p).
  { intros q (X1 & X2 & X3 & X4 & X5 & X6 & X7).
    destruct F1 as (Y1 & Y2 & Y3 & Y4 & Y5 & Y6 & Y7).
    split; [eapply headerFrame_trans; eauto|]. repeat split; congruence. }
  destruct (HasPrefix line "# Time").
  { apply after_index; [exact F1|]. intros ts _.
    destruct (MatchString userRe line).
    - apply after_index; [apply K; simpl; repeat split; auto|]. intros u _.
      apply after_index; [apply K; simpl; repeat split; auto|]. intros h _.
      apply K; simpl; repeat split; auto.
    - apply K; simpl; repeat split; auto. }
  destruct (HasPrefix line "# User").
  { apply after_index; [exact F1|]. intros u _.
    apply after_index; [apply K; simpl; repeat split; auto|]. intros h _.
    apply K; simpl; repeat split; auto. }
  destruct (parseMetrics _ _) as [e|] eqn:E; simpl; [|exact F1].
  apply (K (set_event e p1)). simpl. split; [eapply parseMetrics_frame, E|]. repeat split; auto.
Qed.

(** *** The transitions of the state machine *)
Lemma parseAdmin_state line p p' :
  parseAdmin line p = Ok p' -> inHeader p' = false /\ inQuery p' = false.
Proof.
  unfold parseAdmin. unfold index.
  destruct (FindStringSubmatch adminRe line !! 1%nat); [|discriminate]. cbn [bind].
  match goal with |- context [negb ?b] => destruct b end; simpl.
  - intros [= <-]. auto.
  - intros H. apply sendEvent_result in H as (_ & _ & _ & A & B & _). auto.
Qed.

Lemma parseQuery_state line p p' :
  parseQuery line p = Ok p' ->
  (inHeader p', inQuery p')
  = if HasPrefix line "# admin" then (false, false)
    else if MatchString headerRe line then (true, false)
    else (inHeader p, inQuery p).
Proof.
  unfold parseQuery.
  destruct (HasPrefix line "# admin") eqn:A.
  { intros H. apply parseAdmin_state in H as [-> ->]. reflexivity. }
  destruct (MatchString headerRe line) eqn:H.
  { destruct (sendEvent true false _) as [q|] eqn:S; [|discriminate]. cbn [bind].
    apply sendEvent_result in S as (_ & _ & _ & S1 & S2 & _).
    intros P. pose proof (parseHeaderLine_frame line q A) as F. rewrite P in F.
    simpl in F. destruct F as (_ & -> & -> & _). rewrite S1, S2. reflexivity. }
  destruct (_ && _); [intros [= <-]; reflexivity|].
  destruct (MatchString setRe line); [intros [= <-]; reflexivity|].
  intros [= <-]. simpl. by destruct (0 <? queryLines p).
Qed.

(** X10.  The states after a dispatched line, for a parser not in both states:
    neither after an admin line; the header state after a header line;
    after another line the query state when the parser was in the header
    or the query state, and neither state when it was in neither. *)
Theorem dispatch_state_transition line p p' :
  dispatch line p = Ok p' ->
  inHeader p && inQuery p = false ->
  (inHeader p', inQuery p')
  = if HasPrefix line "# admin" then (false, false)
    else if MatchString headerRe line then (true, false)
    else (false, inHeader p || inQuery p).
Proof.
  unfold dispatch. intros D NB.
  destruct (inHeader p) eqn:EH.
  { simpl in NB. unfold parseHeader in D.
    destruct (MatchString headerRe line) eqn:H; simpl in D.
    - pose proof (header_not_admin line H) as A. rewrite A.
      pose proof (parseHeaderLine_frame line p A) as F. rewrite D in F.
      simpl in F. destruct F as (_ & -> & -> & _). rewrite EH, NB. reflexivity.
    - apply parseQuery_state in D. rewrite H in D. simpl in D. exact D. }
  destruct (inQuery p) eqn:EQ.
  { apply parseQuery_state in D. rewrite EH, EQ in D. exact D. }
  destruct (MatchString headerRe line) eqn:H.
  - pose proof (header_not_admin line H) as A. rewrite A.
    rewrite parseHeader_on_header in D by assumption.
    pose proof (parseHeaderLine_frame line (set_inQuery false (set_inHeader true p)) A) as F.
    rewrite D in F. simpl in F. destruct F as (_ & -> & -> & _). reflexivity.
  - injection D as <-. rewrite EH, EQ. by destruct (HasPrefix line "# admin").
Qed.

(** *** Admin lines *)
Lemma admin_not_header line :
  HasPrefix line "# admin" = true -> MatchString headerRe line = false.
Proof.
  intros A. destruct (MatchString headerRe line) eqn:H; [|reflexivity].
  apply header_not_admin in H. congruence.
Qed.

(** X11.  A line that begins with "# admin" is not a header line.  In the
    header state [parseHeader] enters the query state and the admin
    handler takes the line; in the query state the admin handler takes it;
    in neither state it is ignored. *)
Theorem admin_line_routing line p :
  HasPrefix line "# admin" = true ->
  MatchString headerRe line = false
  /\ parseQuery line p = parseAdmin line p
  /\ parseHeader line p = parseAdmin line (set_inQuery true (set_inHeader false p))
  /\ (inHeader p = true ->
      dispatch line p = parseAdmin line (set_inQuery true (set_inHeader false p)))
  /\ (inHeader p = false -> inQuery p = true -> dispatch line p = parseAdmin line p)
  /\ (inHeader p = false -> inQuery p = false -> dispatch line p = Ok p).
Proof.
  intros A. pose proof (admin_not_header line A) as H.
  assert (Q : forall q, parseQuery line q = parseAdmin line q).
  { intros q. unfold parseQuery. rewrite A. reflexivity. }
  assert (P : parseHeader line p = parseAdmin line (set_inQuery true (set_inHeader false p))).
  { unfold parseHeader. rewrite H. simpl. apply Q. }
  split; [exact H|]. split; [apply Q|]. split; [exact P|].
  unfold dispatch. split; [|split].
  - intros ->. exact P.
  - intros -> ->. apply Q.
  - intros -> ->. rewrite H. reflexivity.
Qed.

(** X12.  An admin line on which the admin pattern does not match, met in the
    header or the query state, panics on [m[1]]: no event is delivered,
    and the event in progress is marked admin. *)
Theorem malformed_admin_line_panics line p :
  HasPrefix line "# admin" = true ->
  MatchString adminRe line = false ->
  inHeader p = true \/ inQuery p = true ->
  exists q, dispatch line p = Panic IndexOutOfRange q
            /\ eventChan q = eventChan p /\ Admin (event q) = true.
Proof.
  intros A M S. pose proof (admin_not_header line A) as H.
  assert (P : forall q, exists q', parseAdmin line q = Panic IndexOutOfRange q'
                                   /\ eventChan q' = eventChan q /\ Admin (event q') = true).
  { intros q. unfold parseAdmin, index. rewrite (MatchString_Find _ _ M). simpl.
    eexists. split; [reflexivity|]. auto. }
  unfold dispatch, parseHeader, parseQuery. rewrite H, A. simpl.
  destruct (inHeader p); [apply (P (set_inQuery true (set_inHeader false p)))|].
  destruct (inQuery p); [apply P|]. destruct S; discriminate.
Qed.

(** *** The end of an event at the next header line *)
(** X13.  A header line met in the query state, when the event in progress
    has a "Query_time" and the consumer takes it, delivers that event,
    cleaned, whether the line then parses or panics.  When it parses, a new
    event has begun: one header line and no query line are counted, the
    offset is the offset of the line, the query text is empty, the event
    is not an admin command, and the parser is in the header state. *)
Theorem header_line_ends_the_event line p :
  inHeader p = false -> inQuery p = true ->
  MatchString headerRe line = true ->
  is_Some (TimeMetrics (event p) !! "Query_time") ->
  stopSignal p = false ->
  let e := set_Query (TrimSuffix (Query (event p)) ";")
             (set_Db (TrimSuffix (Db (event p)) (";" +:+ newline)) (event p)) in
  after (fun p' => eventChan p' = eventChan p ++ [e]) (dispatch line p)
  /\ (forall p', dispatch line p = Ok p' ->
        headerLines p' = 1 /\ queryLines p' = 0
        /\ Offset (event p') = lineOffset p
        /\ Query (event p') = EmptyString /\ Admin (event p') = false
        /\ inHeader p' = true /\ inQuery p' = false).
Proof.
  intros EH EQ H [t HQ] St e.
  pose proof (header_not_admin line H) as A.
  set (q := resetEvent true false
              (set_eventChan (eventChan p ++ [e])
                 (nextSelect (set_event e (set_inQuery false (set_inHeader true p)))))).
  assert (D : dispatch line p = parseHeaderLine line q).
  { unfold dispatch. rewrite EH, EQ. unfold parseQuery. rewrite A, H.
    unfold sendEvent. simpl event. rewrite HQ.
    cbv zeta. simpl event.
    assert (St' : forall x, stopChan x = stopChan p -> stopSignal x = false).
    { intros x Hx. unfold stopSignal in *. rewrite Hx. exact St. }
    rewrite St' by reflexivity. reflexivity. }
  rewrite D.
  pose proof (parseHeaderLine_offset line q A) as O.
  pose proof (parseHeaderLine_frame line q A) as F.
  split.
  - eapply after_mono; [exact O|]. intros a (_ & _ & -> & _). reflexivity.
  - intros p' P. rewrite P in O, F. simpl in O, F.
    destruct O as (_ & _ & _ & O1 & O2).
    destruct F as ((F1 & F2 & _) & F3 & F4 & F5 & _).
    repeat split; auto.
Qed.

(** *** Well-formed logs *)
Lemma wellFormed_inv line :
  wellFormed line = true ->
  (HasPrefix line "# Time" = true -> MatchString timeRe line = true)
  /\ (HasPrefix line "# User" = true -> MatchString userRe line = true)
  /\ (HasPrefix line "# admin" = true -> MatchString adminRe line = true).
Proof.
  unfold wellFormed. intros H.
  apply andb_true_iff in H as [H H3]. apply andb_true_iff in H as [H1 H2].
  repeat split; intros E; rewrite E in *; simpl in *; assumption.
Qed.

Lemma index_Ok p m i x : m !! i = Some x -> index p m i = Ok x.
Proof. intros H. unfold index. rewrite H. reflexivity. Qed.

Lemma sendEvent_notIndex inH inQ p :
  post (fun _ => True) notIndex (sendEvent inH inQ p).
Proof.
  unfold sendEvent.
  destruct (TimeMetrics (event p) !! "Query_time").
  - by destruct (stopSignal _).
  - destruct (headerLines p =? 0); simpl; [|done]. discriminate.
Qed.

Lemma parseAdmin_notIndex line p :
  MatchString adminRe line = true ->
  post (fun _ => True) notIndex (parseAdmin line p).
Proof.
  intros M. unfold parseAdmin.
  destruct (FindStringSubmatch_lookup adminRe line 1 M) as [c Hc]; [simpl; lia|].
  rewrite (index_Ok _ _ _ _ Hc). cbn [bind].
  match goal with |- context [negb ?b] => destruct b end; simpl; [done|].
  apply sendEvent_notIndex.
Qed.

Lemma parseHeaderLine_notIndex line p :
  wellFormed line = true ->
  post (fun _ => True) notIndex (parseHeaderLine line p).
Proof.
  intros W. apply wellFormed_inv in W as (W1 & W2 & W3).
  unfold parseHeaderLine. set (p1 := set_headerLines _ _). clearbody p1.
  destruct (HasPrefix line "# Time").
  { destruct (FindStringSubmatch_lookup timeRe line 1 (W1 eq_refl)) as [c Hc]; [simpl; lia|].
    rewrite (index_Ok _ _ _ _ Hc). cbn [bind].
    destruct (MatchString userRe line) eqn:U; [|done].
    destruct (FindStringSubmatch_lookup userRe line 1 U) as [u Hu]; [simpl; lia|].
    destruct (FindStringSubmatch_lookup userRe line 2 U) as [h Hh]; [simpl; lia|].
    rewrite (index_Ok _ _ _ _ Hu). cbn [bind]. rewrite (index_Ok _ _ _ _ Hh). done. }
  destruct (HasPrefix line "# User").
  { pose proof (W2 eq_refl) as U.
    destruct (FindStringSubmatch_lookup userRe line 1 U) as [u Hu]; [simpl; lia|].
    destruct (FindStringSubmatch_lookup userRe line 2 U) as [h Hh]; [simpl; lia|].
    rewrite (index_Ok _ _ _ _ Hu). cbn [bind]. rewrite (index_Ok _ _ _ _ Hh). done. }
  destruct (HasPrefix line "# admin").
  { apply parseAdmin_notIndex. auto. }
  destruct (parseMetrics_total (FindAllStringSubmatch metricsRe line) (event p1)) as [e ->];
    [|done].
  apply (findAll_length _ metricsRe).
Qed.

Lemma parseQuery_notIndex line p :
  wellFormed line = true ->
  post (fun _ => True) notIndex (parseQuery line p).
Proof.
  intros W. unfold parseQuery.
  destruct (HasPrefix line "# admin") eqn:A.
  { apply parseAdmin_notIndex. by apply wellFormed_inv in W as (_ & _ & W3); auto. }
  destruct (MatchString headerRe line).
  { eapply post_bind; [apply sendEvent_notIndex|]. intros a _.
    by apply parseHeaderLine_notIndex. }
  destruct (_ && _); [done|]. by destruct (MatchString setRe line).
Qed.

Lemma dispatch_notIndex line p :
  wellFormed line = true ->
  post (fun _ => True) notIndex (dispatch line p).
Proof.
  intros W. unfold dispatch, parseHeader.
  destruct (inHeader p).
  { destruct (negb _); [by apply parseQuery_notIndex|by apply parseHeaderLine_notIndex]. }
  destruct (inQuery p); [by apply parseQuery_notIndex|].
  destruct (MatchString headerRe line); simpl; [|done].
  by apply parseHeaderLine_notIndex.
Qed.

Lemma scannerLoop_notIndex lines : forall p,
  Forall (fun l => isMeta l = false ->
                   wellFormed (slice l 0 (String.length l - 1)) = true) lines ->
  post (fun _ => True) notIndex (scannerLoop lines p).
Proof.
  induction lines as [|l lines IH]; intros p F; simpl;
    (destruct (stopped p); [done|]); (destruct (stopSignal p); [done|]); [done|].
  inversion F as [|? ? Hl F']; subst.
  apply (post_bind (fun _ => True)).
  - unfold scanLine. destruct (isMeta l) eqn:M; [done|].
    apply dispatch_notIndex. auto.
  - intros a _. simpl. by apply IH.
Qed.

(** X14.  [Start] of a new parser returns on every file of less than 2^64
    bytes in which, banner lines apart, the lines that begin with
    "# Time", "# User" and "# admin" match the time, the user and the
    admin pattern; the finalizer's panic for a missing "Query_time" does
    not happen on such a file. *)
Theorem well_formed_log_never_panics file o stops :
  let p0 := NewSlowLogParser o stops in
  len (contents file) < two64 ->
  Forall (fun l => isMeta l = false ->
                   wellFormed (slice l 0 (String.length l - 1)) = true)
         (input file p0) ->
  exists p e, Start file p0 = Ok (p, e).
Proof.
  intros p0 B F.
  assert (P : post (fun _ => True) (fun k q => notFinalizer k q /\ notIndex k q)
                   (Start file p0)).
  { unfold Start. destruct (_ && _); [done|].
    eapply post_bind.
    - apply post_conj.
      + apply (scannerLoop_Inv _ 0).
        * split; [simpl; lia|]. split; [|done]. by intros [?|[?|?]].
        * pose proof (input_length file p0). lia.
      + by apply scannerLoop_notIndex.
    - intros [r fl] [I _]. simpl in *. destruct (fl && faulty file); [done|].
      eapply post_bind.
      + apply post_conj; [by eapply flush_Inv|].
        unfold flush. destruct (_ && _); [apply sendEvent_notIndex|done].
      + done. }
  destruct (Start file p0) as [[p e]|k q]; [eauto|].
  simpl in P. destruct P as [P1 P2]. unfold notFinalizer in P1. unfold notIndex in P2.
  congruence.
Qed.

(** *** The metrics of a header line *)
Lemma parseMetrics_app m1 : forall m2 e,
  parseMetrics (m1 ++ m2) e = parseMetrics m1 e ≫= parseMetrics m2.
Proof.
  induction m1 as [|smv m1 IH]; intros m2 e; simpl; [reflexivity|].
  destruct (parseMetric smv e); simpl; [apply IH|reflexivity].
Qed.

Lemma parseMetric_other smv e e' name :
  parseMetric smv e = Some e' -> smv !! 1%nat <> Some name ->
  TimeMetrics e' !! name = TimeMetrics e !! name
  /\ NumberMetrics e' !! name = NumberMetrics e !! name
  /\ BoolMetrics e' !! name = BoolMetrics e !! name.
Proof.
  unfold parseMetric.
  destruct (smv !! 1%nat) as [n|]; [|discriminate].
  destruct (smv !! 2%nat) as [value|]; [|discriminate]. simpl.
  intros H N. assert (n <> name) by congruence.
  repeat match type of H with
         | context [if ?b then _ else _] => destruct b
         end;
    injection H as <-; simpl; repeat split; auto; apply lookup_insert_ne; assumption.
Qed.

Lemma parseMetrics_other m name : forall e e',
  parseMetrics m e = Some e' ->
  Forall (fun smv => smv !! 1%nat <> Some name) m ->
  TimeMetrics e' !! name = TimeMetrics e !! name
  /\ NumberMetrics e' !! name = NumberMetrics e !! name
  /\ BoolMetrics e' !! name = BoolMetrics e !! name.
Proof.
  induction m as [|smv m IH]; intros e e' H F; simpl in H.
  - injection H as <-. auto.
  - inversion F as [|? ? N F']; subst.
    destruct (parseMetric smv e) as [e1|] eqn:E1; [|discriminate]. simpl in H.
    destruct (parseMetric_other _ _ _ _ E1 N) as (A1 & B1 & C1).
    destruct (IH _ _ H F') as (A2 & B2 & C2).
    repeat split; congruence.
Qed.

(** X15.  After the loop over the pairs of a line, the entry of a name is the
    one written by the last pair with that name: its parsed fractional
    value for a time name, its truth value for "Yes" or "No", its parsed
    integer for a number name. *)
Theorem last_pair_of_a_name_wins m1 w name value m2 e e' :
  parseMetrics (m1 ++ [w; name; value] :: m2) e = Some e' ->
  Forall (fun smv => smv !! 1%nat <> Some name) m2 ->
  let timed := HasSuffix name "_time" || HasSuffix name "_wait" in
  (timed = true -> TimeMetrics e' !! name = Some (ParseFloat value).1)
  /\ (timed = false -> value = "Yes" -> BoolMetrics e' !! name = Some true)
  /\ (timed = false -> value = "No" -> BoolMetrics e' !! name = Some false)
  /\ (timed = false -> value <> "Yes" -> value <> "No" ->
      name <> "Schema" -> name <> "Log_slow_rate_type" -> name <> "Log_slow_rate_limit" ->
      NumberMetrics e' !! name = Some (ParseUint value).1).
Proof.
  intros H F timed.
  rewrite parseMetrics_app in H.
  destruct (parseMetrics m1 e) as [e1|]; [|discriminate]. simpl in H.
  destruct (parseMetric [w; name; value] e1) as [e2|] eqn:E2; [|discriminate]. simpl in H.
  destruct (parseMetrics_other _ _ _ _ H F) as (A & B & C).
  rewrite A, B, C. clear A B C H F.
  unfold parseMetric in E2. simpl in E2. fold timed in E2.
  repeat split.
  - intros T. rewrite T in E2. injection E2 as <-. simpl. apply lookup_insert_eq.
  - intros T ->. rewrite T in E2. simpl in E2. injection E2 as <-. simpl.
    apply lookup_insert_eq.
  - intros T ->. rewrite T in E2. simpl in E2. injection E2 as <-. simpl.
    apply lookup_insert_eq.
  - intros T Y N S1 S2 S3. rewrite T in E2.
    apply String.eqb_neq in Y, N, S1, S2, S3. rewrite Y, N, S1, S2, S3 in E2. simpl in E2.
    injection E2 as <-. simpl. apply lookup_insert_eq.
Qed.

(** X16.  The loop over the pairs of a line keeps, in the three maps, the
    entry of every name that no pair of the line carries. *)
Theorem names_not_on_the_line_are_kept m name e e' :
  parseMetrics m e = Some e' ->
  Forall (fun smv => smv !! 1%nat <> Some name) m ->
  TimeMetrics e' !! name = TimeMetrics e !! name
  /\ NumberMetrics e' !! name = NumberMetrics e !! name
  /\ BoolMetrics e' !! name = BoolMetrics e !! name.
Proof. apply parseMetrics_other. Qed.

(** X17.  A header line, whether [parseHeader] returns or panics, delivers
    nothing, keeps the query text, the admin mark, the states and the
    count of query lines, and removes no name from the three maps. *)
Theorem header_lines_keep_the_event line p :
  MatchString headerRe line = true ->
  after (fun p' => headerFrame (event p) (event p')
                   /\ inHeader p' = inHeader p /\ inQuery p' = inQuery p
                   /\ queryLines p' = queryLines p /\ eventChan p' = eventChan p)
        (parseHeader line p).
Proof.
  intros H. rewrite parseHeader_on_header by assumption.
  pose proof (header_not_admin line H) as A.
  pose proof (post_conj _ _ _ _ _ (parseHeaderLine_frame line p A)
                        (parseHeaderLine_sameChan line p A)) as P.
  destruct (parseHeaderLine line p); simpl in *;
    destruct P as ((F & F1 & F2 & F3 & _) & (_ & C)); auto.
Qed.

(** *** Numerals *)
Lemma decimal_ge s : forall acc, acc <= decimal s acc.
Proof.
  induction s as [|c s IH]; intros acc; simpl; [lia|].
  etransitivity; [|apply IH]. lia.
Qed.

Lemma parseUintFrom_numeral s : forall n,
  every (in_range "0" "9") s = true -> decimal s n < two64 ->
  parseUintFrom s n = (decimal s n, None).
Proof.
  induction s as [|c s IH]; intros n E B; simpl; [reflexivity|].
  simpl in E. apply andb_true_iff in E as [Dc E]. rewrite Dc.
  simpl in B. pose proof (decimal_ge s (n * 10 + (byte_of c - 48))) as G.
  assert (C : maxUint64 / 10 + 1 = 1844674407370955162) by reflexivity.
  assert (M : maxUint64 = 18446744073709551615) by reflexivity.
  assert (T : two64 = 18446744073709551616) by reflexivity.
  rewrite C.
  destruct (N.leb_spec 1844674407370955162 n) as [L|L]; [lia|].
  destruct (N.ltb_spec maxUint64 (n * 10 + (byte_of c - 48))) as [L'|L']; [lia|].
  apply IH; assumption.
Qed.

(** X18.  A non-empty numeral of decimal digits below 2^64 parses to its
    value without error; for a name that is not a time name, a pair with
    this value stores the value under the name in the number map, and for
    "Log_slow_rate_limit" its low byte as the rate limit. *)
Theorem numeral_is_stored_as_its_value w name value e :
  value <> EmptyString -> every (in_range "0" "9") value = true ->
  decimal value 0 < two64 ->
  ParseUint value = (decimal value 0, None)
  /\ (HasSuffix name "_time" || HasSuffix name "_wait" = false ->
      (name = "Log_slow_rate_limit" ->
       parseMetric [w; name; value] e = Some (set_RateLimit (decimal value 0 mod 256) e))
      /\ (name <> "Schema" -> name <> "Log_slow_rate_type" -> name <> "Log_slow_rate_limit" ->
          parseMetric [w; name; value] e
          = Some (set_NumberMetrics (<[name := decimal value 0]> (NumberMetrics e)) e))).
Proof.
  intros Hv E B.
  assert (P : ParseUint value = (decimal value 0, None)).
  { unfold ParseUint. destruct value; [congruence|]. by apply parseUintFrom_numeral. }
  split; [exact P|]. intros T.
  assert (Y : String.eqb value "Yes" = false /\ String.eqb value "No" = false).
  { destruct value as [|c v]; [congruence|]. simpl in E.
    apply andb_true_iff in E as [Dc _].
    split; apply String.eqb_neq; intros [= -> _]; discriminate. }
  destruct Y as [Y N].
  unfold parseMetric. simpl. rewrite T, Y, N, P. simpl. split.
  - intros ->. reflexivity.
  - intros S1 S2 S3. apply String.eqb_neq in S1, S2, S3. rewrite S1, S2, S3. reflexivity.
Qed.

Ltac projs :=
  cbn [opt stopChan eventChan inHeader inQuery headerLines queryLines bytesRead
       lineOffset stopped event StartOffset FilterAdminCommand
       Offset Ts Admin Query User Host Db TimeMetrics NumberMetrics BoolMetrics
       RateType RateLimit bind fst snd].

Ltac projs_in H :=
  cbn [opt stopChan eventChan inHeader inQuery headerLines queryLines bytesRead
       lineOffset stopped event StartOffset FilterAdminCommand
       Offset Ts Admin Query User Host Db TimeMetrics NumberMetrics BoolMetrics
       RateType RateLimit bind fst snd] in H.

Ltac fields E :=
  match type of E with
  | erase ?p = erase ?q =>
      let o := fresh "o" in let o' := fresh "o'" in
      let ev := fresh "ev" in let ev' := fresh "ev'" in
      destruct p as [o ? ? ? ? ? ? ? ? ? ev], q as [o' ? ? ? ? ? ? ? ? ? ev'];
      destruct o, o', ev, ev';
      unfold erase in E; projs_in E; injection E; clear E; intros;
      try match goal with
      | H : eraseEvent _ = eraseEvent _ |- _ =>
          unfold eraseEvent, set_Offset in H; projs_in H; injection H; clear H; intros
      end;
      subst
  end.

Ltac norm :=
  cbv beta iota zeta delta
    [resetEvent nextSelect stopSignal filtered
     set_stopChan set_eventChan set_inHeader set_inQuery set_headerLines
     set_queryLines set_bytesRead set_lineOffset set_stopped set_event
     set_Offset set_Ts set_Admin set_Query set_User set_Host set_Db set_TimeMetrics
     set_NumberMetrics set_BoolMetrics set_RateType set_RateLimit
     opt stopChan eventChan inHeader inQuery headerLines queryLines bytesRead
     lineOffset stopped event StartOffset FilterAdminCommand
     Offset Ts Admin Query User Host Db TimeMetrics NumberMetrics BoolMetrics
     RateType RateLimit bind fst snd tail
     erase eraseRes eraseKind].

Lemma eraseEvent_mk o ts ad q u h d tm nm bm rt rl :
  eraseEvent (mkEvent o ts ad q u h d tm nm bm rt rl)
  = mkEvent 0 ts ad q u h d tm nm bm rt rl.
Proof. reflexivity. Qed.

Ltac done_erase :=
  norm; rewrite ?map_app; cbn [map]; rewrite ?eraseEvent_mk; congruence.

Lemma sendEvent_erase inH inQ p q :
  erase p = erase q ->
  eraseRes erase (sendEvent inH inQ p) = eraseRes erase (sendEvent inH inQ q).
Proof.
  intros E. fields E. unfold sendEvent. norm.
  destruct (_ !! "Query_time").
  - match goal with
    | |- context [match ?l with [] => _ | _ :: _ => _ end] => destruct l as [|[] ?]
    end; norm; done_erase.
  - destruct (_ =? 0); done_erase.
Qed.

Lemma parseAdmin_erase line p q :
  erase p = erase q ->
  eraseRes erase (parseAdmin line p) = eraseRes erase (parseAdmin line q).
Proof.
  intros E. unfold parseAdmin, index.
  destruct (FindStringSubmatch adminRe line !! 1%nat) as [c|].
  - projs. 
    match goal with |- context [negb (filtered ?a ?b)] =>
      replace (filtered a b) with (filtered q b) end.
    2: { fields E. norm. reflexivity. }
    assert (Query (event (set_event (set_Query c (event (set_event (set_Admin true (event p)) p)))
              (set_event (set_Admin true (event p)) p))) = c) as -> by reflexivity.
    assert (Query (event (set_event (set_Query c (event (set_event (set_Admin true (event q)) q)))
              (set_event (set_Admin true (event q)) q))) = c) as -> by reflexivity.
    destruct (negb _).
    + apply sendEvent_erase. fields E. norm. done_erase.
    + fields E. norm. done_erase.
  - fields E. norm. done_erase.
Qed.

Lemma parseMetric_erase smv e e' :
  eraseEvent e = eraseEvent e' ->
  eraseEvent <$> parseMetric smv e = eraseEvent <$> parseMetric smv e'.
Proof.
  intros E. destruct e, e'. unfold eraseEvent, set_Offset in E. projs_in E.
  injection E; clear E; intros; subst.
  unfold parseMetric.
  destruct (smv !! 1%nat) as [name|]; [|reflexivity].
  destruct (smv !! 2%nat) as [value|]; [|reflexivity]. cbn [mbind option_bind].
  repeat match goal with
         | |- context [if ?b then _ else _] => destruct b
         end; reflexivity.
Qed.

Lemma parseMetrics_erase m : forall e e',
  eraseEvent e = eraseEvent e' ->
  eraseEvent <$> parseMetrics m e = eraseEvent <$> parseMetrics m e'.
Proof.
  induction m as [|smv m IH]; intros e e' E; simpl.
  - rewrite E. reflexivity.
  - pose proof (parseMetric_erase smv e e' E) as P.
    destruct (parseMetric smv e) as [e1|], (parseMetric smv e') as [e1'|];
      simpl in *; try discriminate; [|reflexivity].
    apply IH. congruence.
Qed.

Lemma bind_erase {A} (fA : A -> A) (m m' : Res SlowLogParser) (f f' : SlowLogParser -> Res A) :
  eraseRes erase m = eraseRes erase m' ->
  (forall a a', erase a = erase a' -> eraseRes fA (f a) = eraseRes fA (f' a')) ->
  eraseRes fA (bind m f) = eraseRes fA (bind m' f').
Proof.
  intros E H. destruct m, m'; simpl in *; try discriminate.
  - apply H. congruence.
  - assert (eraseKind e = eraseKind e0 /\ erase p = erase p0) as [-> ->]
      by (split; congruence).
    reflexivity.
Qed.

Lemma parseHeaderLine_erase line p q :
  erase p = erase q ->
  eraseRes erase (parseHeaderLine line p) = eraseRes erase (parseHeaderLine line q).
Proof.
  intros E. unfold parseHeaderLine.
  set (p1 := set_headerLines _ (if headerLines p =? 0 then _ else p)).
  set (q1 := set_headerLines _ (if headerLines q =? 0 then _ else q)).
  assert (E1 : erase p1 = erase q1).
  { unfold p1, q1. fields E. norm. destruct (_ =? 0); norm; done_erase. }
  clearbody p1 q1. clear E p q.
  destruct (HasPrefix line "# Time").
  { unfold index.
    destruct (FindStringSubmatch timeRe line !! 1%nat) as [ts|]; projs; [|simpl; by rewrite E1].
    destruct (MatchString userRe line).
    - destruct (FindStringSubmatch userRe line !! 1%nat) as [u|]; projs;
        [|fields E1; norm; done_erase].
      destruct (FindStringSubmatch userRe line !! 2%nat) as [h|]; projs;
        fields E1; norm; done_erase.
    - fields E1; norm; done_erase. }
  destruct (HasPrefix line "# User").
  { unfold index.
    destruct (FindStringSubmatch userRe line !! 1%nat) as [u|]; projs; [|simpl; by rewrite E1].
    destruct (FindStringSubmatch userRe line !! 2%nat) as [h|]; projs;
      fields E1; norm; done_erase. }
  destruct (HasPrefix line "# admin").
  { by apply parseAdmin_erase. }
  assert (Ee : eraseEvent (event p1) = eraseEvent (event q1)).
  { fields E1. unfold eraseEvent, set_Offset. projs. reflexivity. }
  pose proof (parseMetrics_erase (FindAllStringSubmatch metricsRe line) _ _ Ee) as P.
  destruct (parseMetrics _ (event p1)) as [e|], (parseMetrics _ (event q1)) as [e'|];
    simpl in P; try discriminate.
  - fields E1. assert (P' : eraseEvent e = eraseEvent e') by congruence.
    norm. rewrite P'. congruence.
  - simpl. by rewrite E1.
Qed.

Lemma parseQuery_erase line p q :
  erase p = erase q ->
  eraseRes erase (parseQuery line p) = eraseRes erase (parseQuery line q).
Proof.
  intros E. unfold parseQuery.
  destruct (HasPrefix line "# admin"); [by apply parseAdmin_erase|].
  destruct (MatchString headerRe line).
  { apply bind_erase.
    - apply sendEvent_erase. fields E. norm. done_erase.
    - intros a a' Ea. by apply parseHeaderLine_erase. }
  assert (queryLines p = queryLines q) as -> by (fields E; reflexivity).
  destruct (_ && _); [fields E; norm; done_erase|].
  destruct (MatchString setRe line); [simpl; by rewrite E|].
  destruct (0 <? queryLines q); fields E; norm; done_erase.
Qed.

Lemma parseHeader_erase line p q :
  erase p = erase q ->
  eraseRes erase (parseHeader line p) = eraseRes erase (parseHeader line q).
Proof.
  intros E. unfold parseHeader. destruct (negb _).
  - apply parseQuery_erase. fields E. norm. done_erase.
  - by apply parseHeaderLine_erase.
Qed.

Lemma dispatch_erase line p q :
  erase p = erase q ->
  eraseRes erase (dispatch line p) = eraseRes erase (dispatch line q).
Proof.
  intros E. unfold dispatch.
  assert (inHeader p = inHeader q) as -> by (fields E; reflexivity).
  assert (inQuery p = inQuery q) as -> by (fields E; reflexivity).
  destruct (inHeader q); [by apply parseHeader_erase|].
  destruct (inQuery q); [by apply parseQuery_erase|].
  destruct (MatchString headerRe line); [|simpl; by rewrite E].
  apply parseHeader_erase. fields E. norm. done_erase.
Qed.

Lemma countLine_erase n p q : erase p = erase q -> erase (countLine n p) = erase (countLine n q).
Proof.
  intros E. unfold countLine. cbv zeta.
  do 2 match goal with |- context [if ?b then _ else _] => destruct b end;
    fields E; norm; done_erase.
Qed.

Lemma scanLine_erase line p q :
  erase p = erase q ->
  eraseRes erase (scanLine line p) = eraseRes erase (scanLine line q).
Proof.
  intros E. unfold scanLine. pose proof (countLine_erase (len line) p q E) as C.
  destruct (isMeta line); [simpl; by rewrite C|]. by apply dispatch_erase.
Qed.

Lemma scannerLoop_erase lines : forall p q,
  erase p = erase q ->
  eraseRes erase1 (scannerLoop lines p) = eraseRes erase1 (scannerLoop lines q).
Proof.
  induction lines as [|l lines IH]; intros p q E; simpl;
    (assert (stopped p = stopped q) as -> by (fields E; reflexivity));
    (assert (stopSignal p = stopSignal q) as -> by (fields E; reflexivity));
    (destruct (stopped q); [unfold erase1; simpl; by rewrite E|]);
    (assert (N : erase (nextSelect p) = erase (nextSelect q))
      by (fields E; norm; done_erase));
    (assert (S : erase (set_stopped true (nextSelect p)) = erase (set_stopped true (nextSelect q)))
      by (fields E; norm; done_erase));
    (destruct (stopSignal q); [unfold erase1; simpl; by rewrite S|]).
  - unfold erase1. simpl. by rewrite N.
  - apply bind_erase; [by apply scanLine_erase|]. intros a a' Ea. by apply IH.
Qed.

Lemma flush_erase p q :
  erase p = erase q -> eraseRes erase (flush p) = eraseRes erase (flush q).
Proof.
  intros E. unfold flush.
  assert (stopped p = stopped q) as -> by (fields E; reflexivity).
  assert (queryLines p = queryLines q) as -> by (fields E; reflexivity).
  destruct (_ && _); [by apply sendEvent_erase|simpl; by rewrite E].
Qed.

Lemma events_erase r r' :
  eraseRes erase1 r = eraseRes erase1 r' ->
  map eraseEvent (events r) = map eraseEvent (events r').
Proof.
  destruct r as [[a x]|k a], r' as [[a' x']|k' a']; simpl; try discriminate;
    unfold erase1, erase; simpl; intros E; injection E; auto.
Qed.

(** X19.  The events of a session that starts at the offset of the length of
    [a] in the file [a] [b] are, their offsets apart, the events of a
    session that starts at offset 0 in the file [b]. *)
Theorem events_do_not_depend_on_the_start_offset a b flt o stops :
  StartOffset o = len a -> len a < 2 ^ 63 ->
  map (set_Offset 0)
      (events (Start (mkFile (a +:+ b) flt) (NewSlowLogParser o stops)))
  = map (set_Offset 0)
        (events (Start (mkFile b flt)
                       (NewSlowLogParser (mkOptions 0 (FilterAdminCommand o)) stops))).
Proof.
  intros So B. apply events_erase.
  set (p := NewSlowLogParser o stops).
  set (q := NewSlowLogParser (mkOptions 0 (FilterAdminCommand o)) stops).
  assert (E : erase p = erase q) by reflexivity.
  assert (I : input (mkFile (a +:+ b) flt) p = input (mkFile b flt) q).
  { unfold input. simpl. rewrite So. unfold len. rewrite Nat2N.id.
    rewrite slice_tail_app by lia. rewrite slice_none, append_nil, slice_all. reflexivity. }
  unfold Start. rewrite I. simpl opt. simpl StartOffset.
  assert ((2 ^ 63 <=? StartOffset o) = false) as -> by (apply N.leb_gt; lia).
  rewrite andb_false_r. simpl andb.
  pose proof (scannerLoop_erase (input (mkFile b flt) q) p q E) as L.
  destruct (scannerLoop _ p) as [[p1 f1]|k1 p1], (scannerLoop _ q) as [[q1 f2]|k2 q1];
    simpl in L; try discriminate.
  - cbv beta iota delta [eraseRes erase1 fst snd] in L.
    assert (erase p1 = erase q1 /\ f1 = f2) as [L' ->] by (split; congruence).
    cbn [bind fst snd].
    destruct (f2 && flt).
    { cbv beta iota delta [eraseRes erase1 fst snd]. by rewrite L'. }
    pose proof (flush_erase p1 q1 L') as F.
    destruct (flush p1) as [x|k x], (flush q1) as [x'|k' x'];
      cbv beta iota delta [eraseRes erase1 fst snd bind] in F |- *; try discriminate.
    + assert (erase x = erase x') as -> by congruence. reflexivity.
    + assert (eraseKind k = eraseKind k' /\ erase x = erase x') as [-> ->]
        by (split; congruence).
      reflexivity.
  - cbv beta iota delta [eraseRes erase1 fst snd bind] in L |- *.
    assert (eraseKind k1 = eraseKind k2 /\ erase p1 = erase q1) as [-> ->]
      by (split; congruence).
    reflexivity.
Qed.

(** *** A filtered admin command *)
(** X20.  A filtered admin command, met in the header or the query state,
    delivers nothing and leaves the parser in neither state, with the
    event marked admin, the command as its query text, and the counts of
    lines as they were.  The next header line goes on with that event,
    whether it parses or panics: nothing is delivered, the event is still
    marked admin with the command as its query text, the names of its time
    metrics are kept, and its offset is kept when a header line had been
    counted. *)
Theorem filtered_admin_command_stays_in_the_event line cmd p :
  HasPrefix line "# admin" = true ->
  FindStringSubmatch adminRe line !! 1%nat = Some cmd ->
  filtered p (TrimSuffix cmd ";") = true ->
  inHeader p = true \/ inQuery p = true ->
  exists p',
    dispatch line p = Ok p'
    /\ eventChan p' = eventChan p
    /\ inHeader p' = false /\ inQuery p' = false
    /\ event p' = set_Query (TrimSuffix cmd ";") (set_Admin true (event p))
    /\ headerLines p' = headerLines p /\ queryLines p' = queryLines p
    /\ (forall next,
          MatchString headerRe next = true ->
          after (fun p'' =>
                   eventChan p'' = eventChan p
                   /\ Admin (event p'') = true
                   /\ Query (event p'') = TrimSuffix cmd ";"
                   /\ (headerLines p <> 0 -> Offset (event p'') = Offset (event p))
                   /\ (forall k, is_Some (TimeMetrics (event p) !! k) ->
                                 is_Some (TimeMetrics (event p'') !! k))
                   /\ inHeader p'' = true /\ inQuery p'' = false)
                (dispatch next p')).
Proof.
  intros A M F S.
  pose proof (admin_not_header _ A) as NH.
  set (p1 := set_inQuery true (set_inHeader false p)).
  assert (D : dispatch line p = parseAdmin line p1 \/ dispatch line p = parseAdmin line p).
  { unfold dispatch, parseHeader, parseQuery. rewrite NH, A. simpl.
    destruct (inHeader p); [left; reflexivity|].
    destruct S as [S|S]; [done|]. rewrite S. right; reflexivity. }
  assert (PA : forall x, filtered x (TrimSuffix cmd ";") = true ->
             parseAdmin line x
             = Ok (set_inQuery false (set_inHeader false
                     (set_event (set_Query (TrimSuffix cmd ";") (set_Admin true (event x))) x)))).
  { intros x Fx. unfold parseAdmin, index. rewrite M. simpl.
    replace (filtered _ (TrimSuffix cmd ";")) with (filtered x (TrimSuffix cmd ";"))
      by reflexivity.
    rewrite Fx. simpl. by destruct x as [? ? ? ? ? ? ? ? ? ? []]. }
  assert (exists p', dispatch line p = Ok p'
            /\ eventChan p' = eventChan p /\ inHeader p' = false /\ inQuery p' = false
            /\ event p' = set_Query (TrimSuffix cmd ";") (set_Admin true (event p))
            /\ headerLines p' = headerLines p /\ queryLines p' = queryLines p
            /\ lineOffset p' = lineOffset p) as (p' & Dp & C & IH & IQ & Ev & HL & QL & LO).
  { destruct D as [D|D]; rewrite D, PA by done; eexists; (split; [reflexivity|]); by simpl. }
  exists p'. rewrite Dp. do 6 (split; [done|]). split; [done|].
  intros next H.
  unfold dispatch. rewrite IH, IQ, H. rewrite parseHeader_on_header by done.
  set (p2 := set_inQuery false (set_inHeader true p')).
  assert (NA : HasPrefix next "# admin" = false).
  { destruct (HasPrefix next "# admin") eqn:X; [|done].
    apply admin_not_header in X. congruence. }
  pose proof (parseHeaderLine_frame next p2 NA) as Fr.
  pose proof (parseHeaderLine_offset next p2 NA) as Of.
  destruct (parseHeaderLine next p2) as [p''|k p'']; simpl in Fr, Of |- *.
  all: destruct Fr as ((Q & Ad & TM & _) & I1 & I2 & _), Of as (_ & _ & C2 & _ & O).
  all: replace (event p2) with (event p') in * by done.
  all: replace (headerLines p2) with (headerLines p') in * by done.
  all: rewrite Ev in *; simpl in Q, Ad, TM, O.
  all: repeat split; try done; try (by rewrite C2, <- C).
  all: try (intros Z; rewrite O, HL; by destruct (N.eqb_spec (headerLines p) 0)).
Qed.

End Properties.

(** * The properties on the example sessions *)

#[local] Existing Instance literal_floats.

Lemma emitted_events_have_Query_time_witness :
  (exists e, e ∈ events (Start select_log (NewSlowLogParser no_filter []))
             /\ is_Some (TimeMetrics e !! "Query_time"))
  /\ (exists p', sendEvent false false after_user_line = Ok p'
                 /\ eventChan p' = eventChan after_user_line
                 /\ event p' = NewEvent).
Proof.
  split.
  - assert (H : length (events (Start select_log (NewSlowLogParser no_filter []))) = 1%nat)
      by (vm_compute; reflexivity).
    destruct (events (Start select_log (NewSlowLogParser no_filter []))) as [|e l] eqn:E;
      [discriminate H|].
    exists e.
    assert (I : e ∈ events (Start select_log (NewSlowLogParser no_filter [])))
      by (rewrite E; left).
    split; [rewrite <- E; exact I|].
    exact (proj1 emitted_events_have_Query_time select_log no_filter [] e I).
  - apply (proj2 emitted_events_have_Query_time false false after_user_line).
    + vm_compute. reflexivity.
    + vm_compute. discriminate.
Defined.

Lemma line_and_event_offsets_witness :
  lineOffset (countLine 16 (NewSlowLogParser resume_at_3 []))
  = (if bytesRead (NewSlowLogParser resume_at_3 []) =? 0 then 0
     else bytesRead (NewSlowLogParser resume_at_3 []) + 1)
  /\ (exists q line rest,
      input select_log (NewSlowLogParser no_filter []) = [] ++ line :: rest
      /\ scannerLoop [] (NewSlowLogParser no_filter []) = Ok (q, true)
      /\ lineOffset (countLine (len line) q)
         = (if StartOffset no_filter + bytesOf [] =? 0 then 0
            else StartOffset no_filter + bytesOf [] + 1))
  /\ after (fun p' => eventChan p' = eventChan after_user_line
                      /\ Offset (event p')
                         = if headerLines after_user_line =? 0
                           then lineOffset after_user_line
                           else Offset (event after_user_line))
           (parseHeader "# Query_time: 1" after_user_line)
  /\ (exists q pre1 line mid q1,
      scannerLoop (input select_log (NewSlowLogParser no_filter []))
                  (NewSlowLogParser no_filter []) = Ok (q, true)
      /\ input select_log (NewSlowLogParser no_filter []) = pre1 ++ line :: mid
      /\ scannerLoop pre1 (NewSlowLogParser no_filter []) = Ok (q1, true)
      /\ Offset (event q) = lineOffset (countLine (len line) q1))
  /\ StronglySorted leOffset (events (Start select_log (NewSlowLogParser no_filter []))).
Proof.
  destruct line_and_event_offsets as (O1 & O2 & O3 & _ & O5 & O6).
  split; [|split; [|split; [|split]]].
  - apply (O1 16 (NewSlowLogParser resume_at_3 [])). vm_compute. reflexivity.
  - assert (H : length (input select_log (NewSlowLogParser no_filter [])) = 6%nat)
      by (vm_compute; reflexivity).
    destruct (input select_log (NewSlowLogParser no_filter [])) as [|line rest] eqn:E;
      [discriminate H|].
    exists (nextSelect (NewSlowLogParser no_filter [])), line, rest.
    split; [reflexivity|]. split; [reflexivity|].
    apply (O2 select_log no_filter [] [] line rest); [vm_compute; reflexivity|exact E|reflexivity].
  - apply O3. vm_compute. reflexivity.
  - pose (p := NewSlowLogParser no_filter []).
    assert (F : read_failed (scannerLoop (input select_log p) p) = true)
      by (vm_compute; reflexivity).
    assert (Q : headerLines (loop_parser (scannerLoop (input select_log p) p)) <> 0)
      by (vm_compute; discriminate).
    destruct (scannerLoop (input select_log p) p) as [[q fl]|] eqn:E; [|discriminate F].
    simpl in F, Q. subst fl.
    destruct (O5 no_filter [] (input select_log p) q E Q)
      as (pre1 & line & mid & q1 & H1 & H2 & _ & _ & H5 & _).
    exists q, pre1, line, mid, q1. by repeat split.
  - apply (O6 select_log no_filter []). vm_compute. reflexivity.
Defined.

(** The first line read after a resume at byte 3 has three bytes before
    it, and its computed offset is four: the one is added to the first
    line too. *)
Lemma first_line_after_resume_is_incremented :
  exists q line rest,
    input resumed_log (NewSlowLogParser resume_at_3 []) = line :: rest
    /\ scannerLoop [] (NewSlowLogParser resume_at_3 []) = Ok (q, true)
    /\ bytesRead q = 3
    /\ lineOffset (countLine (len line) q) = 4
    /\ lineOffset (countLine (len line) q) <> bytesRead q
    /\ map Offset (events (Start resumed_log (NewSlowLogParser resume_at_3 []))) = [4].
Proof.
  assert (H : map len (input resumed_log (NewSlowLogParser resume_at_3 [])) = [16; 10])
    by (vm_compute; reflexivity).
  destruct (input resumed_log (NewSlowLogParser resume_at_3 [])) as [|line rest] eqn:E;
    [discriminate H|].
  injection H as H _.
  exists (nextSelect (NewSlowLogParser resume_at_3 [])), line, rest.
  rewrite H. repeat split; try (vm_compute; reflexivity).
  vm_compute. discriminate.
Qed.

Lemma admin_command_witness :
  (exists p' e,
      parseAdmin "# administrator command: Quit;" (after_duration_line no_filter []) = Ok p'
      /\ eventChan p' = eventChan (after_duration_line no_filter []) ++ [e]
      /\ Admin e = true /\ Query e = TrimSuffix (TrimSuffix "Quit;" ";") ";")
  /\ (exists p',
      parseAdmin "# administrator command: Quit;" (after_duration_line quit_filter []) = Ok p'
      /\ eventChan p' = eventChan (after_duration_line quit_filter [])
      /\ inHeader p' = false /\ inQuery p' = false)
  /\ (exists p',
      parseAdmin "# administrator command: Quit;" after_user_line = Ok p'
      /\ eventChan p' = eventChan after_user_line).
Proof.
  assert (M : FindStringSubmatch adminRe "# administrator command: Quit;" !! 1%nat
              = Some "Quit;") by (vm_compute; reflexivity).
  split; [|split].
  - destruct (admin_command _ (after_duration_line no_filter []) _ M) as (_ & _ & H & _).
    destruct H as (p' & e & H1 & H2 & H3 & H4 & _).
    + vm_compute. reflexivity.
    + vm_compute. eauto.
    + vm_compute. reflexivity.
    + exists p', e. by repeat split.
  - destruct (admin_command _ (after_duration_line quit_filter []) _ M) as (H & _).
    destruct H as [H1 H2]; [vm_compute; reflexivity|].
    eexists. split; [exact H1|]. split; [exact H2|]. by split.
  - destruct (admin_command _ after_user_line _ M) as (_ & _ & _ & H).
    destruct H as (p' & H1 & H2 & _).
    + vm_compute. reflexivity.
    + vm_compute. reflexivity.
    + vm_compute. discriminate.
    + exists p'. by split.
Defined.

(** An admin command that is not in the filter set (the set is empty),
    in an event without "Query_time": no event is delivered. *)
Lemma unfiltered_admin_command_without_duration :
  filtered (NewSlowLogParser no_filter []) "Quit" = false
  /\ ~ (exists e, events (Start admin_log (NewSlowLogParser no_filter [])) = [e]
                  /\ Admin e = true /\ Query e = "Quit").
Proof.
  split; [vm_compute; reflexivity|].
  intros (e & H & _).
  assert (L : length (events (Start admin_log (NewSlowLogParser no_filter []))) = 0%nat)
    by (vm_compute; reflexivity).
  rewrite H in L. discriminate L.
Qed.

(** A filtered admin command after a query line: the admin handler resets
    the two state flags and leaves the event and the counts as they are,
    so the flush at the end of the input delivers the event, with the
    filtered command as its query. *)
Lemma filtered_admin_command_is_flushed :
  filtered (NewSlowLogParser quit_filter []) "Quit" = true
  /\ map (fun e => (Admin e, Query e))
         (events (Start filtered_log (NewSlowLogParser quit_filter [])))
     = [(true, "Quit")].
Proof. split; vm_compute; reflexivity. Qed.

Lemma metric_classification_witness :
  parseMetric ["Query_time: 2.000001"; "Query_time"; "2.000001"] NewEvent
  = Some (set_TimeMetrics (<[ "Query_time" := (ParseFloat "2.000001").1 ]> (TimeMetrics NewEvent))
                          NewEvent)
  /\ parseMetric ["Rows_sent: 1"; "Rows_sent"; "1"] NewEvent
     = Some (set_NumberMetrics (<[ "Rows_sent" := (ParseUint "1").1 ]> (NumberMetrics NewEvent))
                               NewEvent)
  /\ (ParseUint "1x").1 = 0
  /\ (ParseUint "18446744073709551616").1 = 2 ^ 64 - 1
  /\ (ParseFloat "1x").1 = f32zero
  /\ ParseFloat "abc" = (f32zero, Some ErrSyntax)
  /\ FindAllStringSubmatch metricsRe "# Query_time: 2.000001  Rows_sent: 1"
     = [["Query_time: 2.000001"; "Query_time"; "2.000001"]; ["Rows_sent: 1"; "Rows_sent"; "1"]]
  /\ (exists e',
         parseMetrics (FindAllStringSubmatch metricsRe "# Query_time: 2.000001  Rows_sent: 1")
                      (set_Offset 0 NewEvent) = Some e'
         /\ parseHeader "# Query_time: 2.000001  Rows_sent: 1" (NewSlowLogParser no_filter [])
            = Ok (set_event e'
                    (set_headerLines 1
                       (set_event (set_Offset 0 NewEvent) (NewSlowLogParser no_filter []))))).
Proof.
  destruct metric_classification as (H & A & _ & _ & _ & M & U & Z).
  split; [|split; [|split; [|split; [|split; [|split; [|split]]]]]].
  - apply (proj1 (M "Query_time: 2.000001" "Query_time" "2.000001" NewEvent)).
    left. exists "Query". reflexivity.
  - assert (NT : ~ ((exists pre, "Rows_sent" = pre +:+ "_time")
                    \/ (exists pre, "Rows_sent" = pre +:+ "_wait"))).
    { intros [X|X]; apply HasSuffix_spec in X; vm_compute in X; discriminate X. }
    assert (NY : ~ ("1" = "Yes" \/ "1" = "No")) by (intros [X|X]; discriminate X).
    apply (proj2 (proj2 (proj2 (proj2 (proj2 (proj2
             (M "Rows_sent: 1" "Rows_sent" "1" NewEvent))))))); try done.
  - apply (proj1 (U "1x")). vm_compute. reflexivity.
  - apply (proj1 (proj2 (U "18446744073709551616"))). vm_compute. reflexivity.
  - apply (proj1 (proj2 (proj2 (U "1x")))). vm_compute. reflexivity.
  - apply (proj2 (Z "abc" eq_refl)). vm_compute. reflexivity.
  - apply (A [mkPair " " "Query_time" "2.000001"; mkPair "  " "Rows_sent" "1"]).
    repeat constructor; vm_compute; congruence.
  - apply (H "# Query_time: 2.000001  Rows_sent: 1" (NewSlowLogParser no_filter []));
      vm_compute; reflexivity.
Defined.

(** A token that is a decimal numeral out of the 64-bit range: the parse
    fails, and the value kept is the largest 64-bit value, not zero. *)
Lemma out_of_range_token_is_not_zero :
  (ParseUint "18446744073709551616").2 = Some ErrRange
  /\ map (fun e => NumberMetrics e !! "Rows_sent")
         (events (Start overflow_log (NewSlowLogParser no_filter [])))
     = [Some 18446744073709551615]
  /\ ~ (map (fun e => NumberMetrics e !! "Rows_sent")
            (events (Start overflow_log (NewSlowLogParser no_filter [])))
        = [Some 0]).
Proof.
  split; [vm_compute; reflexivity|].
  split; [vm_compute; reflexivity|].
  vm_compute. discriminate.
Qed.

Lemma finalizer_panic_witness :
  sendEvent false false after_user_line = Ok (resetEvent false false after_user_line)
  /\ (forall off q,
       Start select_log (NewSlowLogParser no_filter []) <> Panic (NoQueryTime off) q).
Proof.
  split.
  - assert (HQ : TimeMetrics (event after_user_line) !! "Query_time" = None)
      by (vm_compute; reflexivity).
    assert (HL : headerLines after_user_line <> 0) by (vm_compute; discriminate).
    exact (proj1 (proj2 (proj2 (proj1 finalizer_panic false false after_user_line HQ)) HL)).
  - apply (proj2 finalizer_panic select_log no_filter []). vm_compute. reflexivity.
Defined.

Lemma use_line_sets_db_witness :
  parseQuery ("use " +:+ "test;") (after_duration_line no_filter [])
  = Ok (set_event (set_Db (TrimRight "test;" ";") (event (after_duration_line no_filter [])))
                  (after_duration_line no_filter []))
  /\ parseQuery ("use " +:+ "test;") after_select_line
     = (if MatchString setRe ("use " +:+ "test;") then Ok after_select_line
        else Ok (set_queryLines (add64 (queryLines after_select_line) 1)
                   (set_event (set_Query (Query (event after_select_line) +:+ newline
                                          +:+ ("use " +:+ "test;"))
                                         (event after_select_line)) after_select_line)))
  /\ (exists p',
      dispatch ("use " +:+ "test;") (after_duration_line no_filter []) = Ok p'
      /\ event p' = set_Db (TrimRight "test;" ";") (event (after_duration_line no_filter []))
      /\ queryLines p' = 0).
Proof.
  split; [|split].
  - apply (proj1 (use_line_sets_db "test;" (after_duration_line no_filter []))).
    vm_compute. reflexivity.
  - apply (proj1 (proj2 (proj2 (proj2 (use_line_sets_db "test;" after_select_line))))).
    + vm_compute. discriminate.
    + left. reflexivity.
  - destruct (proj2 (proj2 (proj2 (proj2
               (use_line_sets_db "test;" (after_duration_line no_filter []))))))
      as (p' & D & E & Q & _).
    + left. vm_compute. reflexivity.
    + vm_compute. reflexivity.
    + exists p'. by repeat split.
Defined.

(** A "use " line that ends with two semicolons: both are removed. *)
Lemma use_line_with_two_semicolons :
  queryLines (after_duration_line no_filter []) = 0
  /\ Db (event (parser_of (parseQuery "use db;;" (after_duration_line no_filter [])))) = "db"
  /\ ~ (Db (event (parser_of (parseQuery "use db;;" (after_duration_line no_filter []))))
        = TrimSuffix "db;;" ";").
Proof.
  split; [vm_compute; reflexivity|].
  split; [vm_compute; reflexivity|].
  vm_compute. discriminate.
Qed.

Lemma end_of_input_flush_witness :
  exists q,
    scannerLoop (input select_log (NewSlowLogParser no_filter []))
                (NewSlowLogParser no_filter []) = Ok (q, true)
    /\ stopped q = false
    /\ Start select_log (NewSlowLogParser no_filter [])
       = (p' <- sendEvent false false q ;; Ok (p', None)).
Proof.
  pose (p := NewSlowLogParser no_filter []).
  assert (F : read_failed (scannerLoop (input select_log p) p) = true)
    by (vm_compute; reflexivity).
  assert (Q : queryLines (loop_parser (scannerLoop (input select_log p) p)) <> 0)
    by (vm_compute; discriminate).
  destruct (scannerLoop (input select_log p) p) as [[q fl]|] eqn:E; [|discriminate F].
  simpl in F, Q. subst fl. exists q.
  assert (B : StartOffset (opt p) < 2 ^ 63) by (vm_compute; reflexivity).
  destruct (end_of_input_flush select_log p q B eq_refl E) as (S & H & _).
  split; [exact E|]. split; [exact S|]. exact (proj1 (H Q)).
Defined.

Lemma cancellation_stops_the_parser_witness :
  (scannerLoop (input select_log (NewSlowLogParser no_filter [true]))
               (NewSlowLogParser no_filter [true])
   = Ok (set_stopped true (nextSelect (NewSlowLogParser no_filter [true])), false))
  /\ (exists p', sendEvent true false (after_duration_line no_filter [true]) = Ok p'
                 /\ stopped p' = true
                 /\ eventChan p' = eventChan (after_duration_line no_filter [true]))
  /\ (scannerLoop [newline] (set_stopped true after_select_line)
      = Ok (set_stopped true after_select_line, false)
      /\ flush (set_stopped true after_select_line) = Ok (set_stopped true after_select_line))
  /\ (Start select_log (NewSlowLogParser no_filter [true])
      = Ok (set_stopped true (nextSelect (NewSlowLogParser no_filter [true])), None)).
Proof.
  destruct cancellation_stops_the_parser as (C1 & C2 & C3 & C4 & C5 & C6).
  pose (p := NewSlowLogParser no_filter [true]).
  assert (L : scannerLoop (input select_log p) p
              = Ok (set_stopped true (nextSelect p), false))
    by (apply C1; reflexivity).
  split; [exact L|]. split; [|split].
  - apply C2.
    + vm_compute. eauto.
    + vm_compute. reflexivity.
  - apply C4. reflexivity.
  - apply C6; [vm_compute; reflexivity|exact L].
Defined.



Lemma malformed_header_line_panics_witness :
  (exists q, parseHeader "# Time:" (NewSlowLogParser no_filter []) = Panic IndexOutOfRange q)
  /\ (exists q, parseHeader "# User@Host: meow" (NewSlowLogParser no_filter [])
                = Panic IndexOutOfRange q).
Proof.
  split.
  - apply (malformed_header_line_panics "# Time:" (NewSlowLogParser no_filter [])).
    left. split; vm_compute; reflexivity.
  - apply (malformed_header_line_panics "# User@Host: meow" (NewSlowLogParser no_filter [])).
    right. split; vm_compute; reflexivity.
Defined.

(** * The further properties on the example sessions *)

Lemma time_line_sets_Ts_witness :
  exists p',
    parseHeader "# Time: 071015 21:43:52" (NewSlowLogParser no_filter []) = Ok p'
    /\ Ts (event p') = "071015 21:43:52".
Proof.
  destruct (time_line_sets_Ts "071015" " " "21:43:52" "" (NewSlowLogParser no_filter []))
    as (p' & H & T & _).
  - discriminate.
  - reflexivity.
  - discriminate.
  - reflexivity.
  - simpl. lia.
  - discriminate.
  - reflexivity.
  - left. reflexivity.
  - exists p'. split; [exact H|exact T].
Defined.

Lemma user_line_sets_User_and_Host_witness :
  exists p',
    parseHeader "# User@Host: root[root] @ localhost []" (NewSlowLogParser no_filter []) = Ok p'
    /\ User (event p') = "root" /\ Host (event p') = "localhost".
Proof.
  destruct (user_line_sets_User_and_Host "root" "root" "localhost" ""
              (NewSlowLogParser no_filter []))
    as (p' & H & U & Ho & _).
  - discriminate.
  - reflexivity.
  - reflexivity.
  - reflexivity.
  - reflexivity.
  - exists p'. split; [exact H|]. split; [exact U|exact Ho].
Defined.

Lemma set_line_is_dropped_witness :
  dispatch "SET timestamp=1234;" after_select_line = Ok after_select_line.
Proof.
  destruct (set_line_is_dropped "" "timestamp" "=1234;" after_select_line) as (_ & _ & D).
  - right. right. reflexivity.
  - reflexivity.
  - vm_compute. reflexivity.
  - right. reflexivity.
  - apply D; vm_compute; reflexivity.
Defined.

Lemma unterminated_last_line_is_dropped_witness :
  Start (mkFile (contents select_log +:+ "SELECT 2") false) (NewSlowLogParser no_filter [])
  = Start select_log (NewSlowLogParser no_filter []).
Proof.
  apply (unterminated_last_line_is_dropped (contents select_log) "SELECT 2" false
           (NewSlowLogParser no_filter [])).
  reflexivity.
Defined.

Lemma log_without_header_lines_witness :
  exists p e,
    Start (file_of ["SELECT 1;"; "#comment"]) (NewSlowLogParser no_filter []) = Ok (p, e)
    /\ eventChan p = [].
Proof.
  destruct (log_without_header_lines (file_of ["SELECT 1;"; "#comment"]) no_filter [])
    as (p & e & H & C & _).
  - let l := eval vm_compute in
        (input (file_of ["SELECT 1;"; "#comment"]) (NewSlowLogParser no_filter [])) in
    change (input (file_of ["SELECT 1;"; "#comment"]) (NewSlowLogParser no_filter [])) with l.
    repeat (constructor; [vm_compute; reflexivity|]). constructor.
  - exists p, e. split; [exact H|exact C].
Defined.

Lemma dispatch_state_transition_witness :
  (inHeader (parser_of (dispatch "SELECT 1;" (after_duration_line no_filter []))),
   inQuery (parser_of (dispatch "SELECT 1;" (after_duration_line no_filter []))))
  = (false, true).
Proof.
  apply (dispatch_state_transition "SELECT 1;" (after_duration_line no_filter [])).
  - vm_compute. reflexivity.
  - vm_compute. reflexivity.
Defined.

Lemma admin_line_routing_witness :
  MatchString headerRe "# administrator command: Quit;" = false
  /\ dispatch "# administrator command: Quit;" (NewSlowLogParser no_filter [])
     = Ok (NewSlowLogParser no_filter []).
Proof.
  destruct (admin_line_routing "# administrator command: Quit;" (NewSlowLogParser no_filter []))
    as (H & _ & _ & _ & _ & D).
  - reflexivity.
  - split; [exact H|]. apply D; reflexivity.
Defined.

Lemma malformed_admin_line_panics_witness :
  exists q, dispatch "# admin" (after_duration_line no_filter []) = Panic IndexOutOfRange q
            /\ Admin (event q) = true.
Proof.
  destruct (malformed_admin_line_panics "# admin" (after_duration_line no_filter []))
    as (q & D & _ & A).
  - reflexivity.
  - vm_compute. reflexivity.
  - left. vm_compute. reflexivity.
  - exists q. split; [exact D|exact A].
Defined.

Lemma header_line_ends_the_event_witness :
  after (fun p' =>
           eventChan p'
           = eventChan after_select_line
             ++ [set_Query (TrimSuffix (Query (event after_select_line)) ";")
                   (set_Db (TrimSuffix (Db (event after_select_line)) (";" +:+ newline))
                           (event after_select_line))])
        (dispatch "# Time: 071015 21:43:52" after_select_line).
Proof.
  assert (H1 : inHeader after_select_line = false) by (vm_compute; reflexivity).
  assert (H2 : inQuery after_select_line = true) by (vm_compute; reflexivity).
  assert (H3 : MatchString headerRe "# Time: 071015 21:43:52" = true)
    by (vm_compute; reflexivity).
  assert (H4 : is_Some (TimeMetrics (event after_select_line) !! "Query_time"))
    by (vm_compute; eauto).
  assert (H5 : stopSignal after_select_line = false) by (vm_compute; reflexivity).
  exact (proj1 (header_line_ends_the_event "# Time: 071015 21:43:52" after_select_line
                  H1 H2 H3 H4 H5)).
Defined.

Lemma well_formed_log_never_panics_witness :
  exists p e, Start select_log (NewSlowLogParser no_filter []) = Ok (p, e).
Proof.
  apply (well_formed_log_never_panics select_log no_filter []).
  - vm_compute. reflexivity.
  - let l := eval vm_compute in (input select_log (NewSlowLogParser no_filter [])) in
    change (input select_log (NewSlowLogParser no_filter [])) with l.
    repeat (constructor; [intros _; vm_compute; reflexivity|]). constructor.
Defined.

Lemma last_pair_of_a_name_wins_witness :
  exists e',
    parseMetrics [["Rows_sent: 1"; "Rows_sent"; "1"]; ["Rows_sent: 2"; "Rows_sent"; "2"]] NewEvent
    = Some e'
    /\ NumberMetrics e' !! "Rows_sent" = Some (ParseUint "2").1.
Proof.
  set (e' := set_NumberMetrics (<[ "Rows_sent" := 2 ]> (<[ "Rows_sent" := 1 ]> ∅)) NewEvent).
  assert (H : parseMetrics ([["Rows_sent: 1"; "Rows_sent"; "1"]]
                            ++ ["Rows_sent: 2"; "Rows_sent"; "2"] :: []) NewEvent = Some e')
    by reflexivity.
  exists e'. split; [exact H|].
  destruct (last_pair_of_a_name_wins [["Rows_sent: 1"; "Rows_sent"; "1"]]
              "Rows_sent: 2" "Rows_sent" "2" [] NewEvent e' H) as (_ & _ & _ & N).
  - constructor.
  - apply N; [reflexivity|discriminate..].
Defined.

Lemma names_not_on_the_line_are_kept_witness :
  exists e',
    parseMetrics [["Rows_sent: 1"; "Rows_sent"; "1"]]
                 (set_TimeMetrics (<[ "Query_time" := "2" ]> ∅) NewEvent) = Some e'
    /\ TimeMetrics e' !! "Query_time" = Some "2".
Proof.
  set (e := set_TimeMetrics (<[ "Query_time" := "2" ]> ∅) NewEvent).
  set (e' := set_NumberMetrics (<[ "Rows_sent" := 1 ]> ∅) e).
  assert (H : parseMetrics [["Rows_sent: 1"; "Rows_sent"; "1"]] e = Some e') by reflexivity.
  exists e'. split; [exact H|].
  destruct (names_not_on_the_line_are_kept [["Rows_sent: 1"; "Rows_sent"; "1"]]
              "Query_time" e e' H) as (T & _).
  - repeat constructor. discriminate.
  - etransitivity; [exact T|reflexivity].
Defined.

Lemma header_lines_keep_the_event_witness :
  after (fun p' => headerFrame (event after_select_line) (event p')
                   /\ inHeader p' = inHeader after_select_line
                   /\ inQuery p' = inQuery after_select_line
                   /\ queryLines p' = queryLines after_select_line
                   /\ eventChan p' = eventChan after_select_line)
        (parseHeader "# Rows_sent: 1" after_select_line).
Proof.
  apply (header_lines_keep_the_event "# Rows_sent: 1" after_select_line).
  vm_compute. reflexivity.
Defined.

Lemma numeral_is_stored_as_its_value_witness :
  ParseUint "42" = (42, None)
  /\ parseMetric ["Rows_sent: 42"; "Rows_sent"; "42"] NewEvent
     = Some (set_NumberMetrics (<[ "Rows_sent" := 42 ]> (NumberMetrics NewEvent)) NewEvent).
Proof.
  destruct (numeral_is_stored_as_its_value "Rows_sent: 42" "Rows_sent" "42" NewEvent)
    as (U & M).
  - discriminate.
  - reflexivity.
  - reflexivity.
  - split; [exact U|]. apply M; [reflexivity|discriminate..].
Defined.

Lemma events_do_not_depend_on_the_start_offset_witness :
  map (set_Offset 0)
      (events (Start (mkFile (("xx" +:+ newline) +:+ contents select_log) false)
                     (NewSlowLogParser resume_at_3 [])))
  = map (set_Offset 0) (events (Start select_log (NewSlowLogParser no_filter []))).
Proof.
  apply (events_do_not_depend_on_the_start_offset ("xx" +:+ newline) (contents select_log)
           false resume_at_3 []).
  - reflexivity.
  - reflexivity.
Defined.

Lemma filtered_admin_command_stays_in_the_event_witness :
  exists p',
    dispatch "# administrator command: Quit;" (after_duration_line quit_filter []) = Ok p'
    /\ eventChan p' = eventChan (after_duration_line quit_filter [])
    /\ after (fun p'' => eventChan p'' = eventChan (after_duration_line quit_filter [])
                         /\ Admin (event p'') = true
                         /\ Query (event p'') = TrimSuffix "Quit;" ";")
             (dispatch "# Time: 071015 21:43:52" p').
Proof.
  destruct (filtered_admin_command_stays_in_the_event "# administrator command: Quit;" "Quit;"
              (after_duration_line quit_filter []))
    as (p' & D & C & _ & _ & _ & _ & _ & N).
  - reflexivity.
  - vm_compute. reflexivity.
  - vm_compute. reflexivity.
  - left. vm_compute. reflexivity.
  - exists p'. split; [exact D|]. split; [exact C|].
    specialize (N "# Time: 071015 21:43:52" eq_refl).
    destruct (dispatch "# Time: 071015 21:43:52" p') as [p''|k p''];
      destruct N as (N1 & N2 & N3 & _); (split; [exact N1|]); (split; [exact N2|exact N3]).
Defined.
